(** * Patient360: medication activity, interaction checks and upload paths

    A shallow embedding of
      - [backend/services/medicationService.js]
        (getCurrentMedications, getMedicationHistory,
         checkMedicationInteractions, filterActiveMedications,
         isMedicationActive),
      - [backend/utils/fileUpload.js] (generateFilePath,
        generateDoctorRequestPath and the directories of
        moveDoctorRequestToApproved), and
      - the multer storages that call it
        ([backend/middleware/uploadDoctorFiles.js], the visit and ECG
        routes),
    together with the parts of the JavaScript host they call: strings as
    sequences of UTF-16 code units, the three number-and-unit regular
    expressions, the ECMAScript Date arithmetic behind getDate/setDate/
    getMonth/setMonth/toISOString with the host's time zone as
    LocalTZA(t, isUTC), and Node's POSIX [path.join] and [path.extname]. *)

From Stdlib Require Import ZArith List Bool Lia String Ascii QArith Sorted.
Import ListNotations.

Local Open Scope Z_scope.

(* ================================================================== *)
(** ** JavaScript strings *)
(* ================================================================== *)

Module JsString.

(** A JavaScript string is a sequence of 16-bit code units. *)
Definition codeunit := Z.
Definition jsstring := list codeunit.

(** A Basic Latin literal written as a Rocq string. *)
Fixpoint u16 (s : string) : jsstring :=
  match s with
  | EmptyString => []
  | String a r => Z.of_N (N_of_ascii a) :: u16 r
  end.

Fixpoint eqb (a b : jsstring) : bool :=
  match a, b with
  | [], [] => true
  | x :: a', y :: b' => (x =? y) && eqb a' b'
  | _, _ => false
  end.

Fixpoint startsWith (s t : jsstring) : bool :=
  match t, s with
  | [], _ => true
  | _ :: _, [] => false
  | y :: t', x :: s' => (x =? y) && startsWith s' t'
  end.

(** [s.includes(t)]: [t] occurs at some index of [s]. *)
Fixpoint includes (s t : jsstring) : bool :=
  startsWith s t ||
  match s with
  | [] => false
  | _ :: s' => includes s' t
  end.

(** [s.indexOf(x)] on an array of strings: first index holding a string
    equal to [x], or -1. *)
Fixpoint indexOf (l : list jsstring) (x : jsstring) : Z :=
  match l with
  | [] => -1
  | y :: l' =>
      if eqb y x then 0
      else let i := indexOf l' x in if i <? 0 then -1 else i + 1
  end.

(** [s.substring(a, b)] for [0 <= a <= b]. *)
Definition substring (a b : nat) (s : jsstring) : jsstring :=
  firstn (b - a) (skipn a s).

(** [s.replace(/c/g, d)] for a one-character class given as a predicate. *)
Definition replaceAll (p : codeunit -> bool) (d : codeunit) (s : jsstring)
  : jsstring :=
  map (fun c => if p c then d else c) s.

(** [s.split(sep)[0]] for a one-character separator: the text before the
    first separator, the whole text when there is none. *)
Fixpoint splitHead (sep : codeunit) (s : jsstring) : jsstring :=
  match s with
  | [] => []
  | c :: s' => if c =? sep then [] else c :: splitHead sep s'
  end.

(** Decimal rendering of a non-negative integer, [String(n)]. *)
Fixpoint digitsFuel (fuel : nat) (n : Z) (acc : jsstring) : jsstring :=
  match fuel with
  | O => acc
  | S f =>
      let acc' := (48 + n mod 10) :: acc in
      if n <? 10 then acc' else digitsFuel f (n / 10) acc'
  end.

Definition natToString (n : Z) : jsstring :=
  digitsFuel (S (Z.to_nat (Z.log2 n))) n [].

(** [String(n)] for an integer Number. *)
Definition intToString (n : Z) : jsstring :=
  if n <? 0 then 45 :: natToString (- n) else natToString n.

(** [s.padStart(w, "0")]. *)
Definition padStart0 (w : nat) (s : jsstring) : jsstring :=
  repeat 48 (w - List.length s) ++ s.

(** The Basic Latin part of [String.prototype.toLowerCase]: A-Z go to
    a-z, every other code unit is kept.  On a string of Basic Latin
    characters this is what the host computes. *)
Definition asciiLowerUnit (c : codeunit) : codeunit :=
  if (65 <=? c) && (c <=? 90) then c + 32 else c.

Definition asciiToLowerCase (s : jsstring) : jsstring :=
  map asciiLowerUnit s.

End JsString.

(* ================================================================== *)
(** ** Regular expressions (the fragment the service uses) *)
(* ================================================================== *)

Module JsRegExp.
Import JsString.

(** Patterns of the shape [/(\d+)\s*(a|b)/i]: character tests,
    sequence, alternation, greedy star and capture groups. *)
Inductive regex : Type :=
| Chr (p : codeunit -> bool)
| Seq (a b : regex)
| Alt (a b : regex)
| Star (a : regex)
| Group (i : nat) (a : regex).

Definition Plus (a : regex) : regex := Seq a (Star a).

(** [\d] *)
Definition isDigit (c : codeunit) : bool := (48 <=? c) && (c <=? 57).

(** [\s]: WhiteSpace and LineTerminator code units. *)
Definition isSpace (c : codeunit) : bool :=
  (c =? 9) || (c =? 10) || (c =? 11) || (c =? 12) || (c =? 13) ||
  (c =? 32) || (c =? 160) || (c =? 0x1680) ||
  ((0x2000 <=? c) && (c <=? 0x200A)) ||
  (c =? 0x2028) || (c =? 0x2029) || (c =? 0x202F) || (c =? 0x205F) ||
  (c =? 0x3000) || (c =? 0xFEFF).

(** Canonicalize of a pattern without the [u] flag, restricted to what
    the patterns here contain: a Basic Latin letter folds to its upper
    case, and a code unit above 127 never folds into Basic Latin.  The
    Arabic letters of the patterns have no case, and no code unit has one
    of them as its upper case, so they only match themselves. *)
Definition canonicalize (c : codeunit) : codeunit :=
  if (97 <=? c) && (c <=? 122) then c - 32 else c.

(** A literal character under the [i] flag. *)
Definition chrI (c : codeunit) : regex :=
  Chr (fun x => canonicalize x =? canonicalize c).

(** A literal word under the [i] flag (never empty in the patterns). *)
Fixpoint litI (w : jsstring) : regex :=
  match w with
  | [] => Star (Chr (fun _ => false))
  | [c] => chrI c
  | c :: w' => Seq (chrI c) (litI w')
  end.

(** Captures: the text of each numbered group. *)
Definition captures := list (nat * jsstring).

Fixpoint capture (i : nat) (c : captures) : option jsstring :=
  match c with
  | [] => None
  | (j, s) :: c' => if Nat.eqb i j then Some s else capture i c'
  end.

(** Backtracking matcher in continuation style.  [Star] is greedy and,
    as in the RepeatMatcher of the language specification, gives up an
    iteration that consumed nothing. *)
Fixpoint rmatch (r : regex) (k : jsstring -> captures -> option captures)
         (s : jsstring) (c : captures) {struct r} : option captures :=
  match r with
  | Chr p =>
      match s with
      | x :: s' => if p x then k s' c else None
      | [] => None
      end
  | Seq a b => rmatch a (rmatch b k) s c
  | Alt a b =>
      match rmatch a k s c with
      | Some res => Some res
      | None => rmatch b k s c
      end
  | Star a =>
      (fix loop (fuel : nat) (s : jsstring) (c : captures)
         : option captures :=
         match fuel with
         | O => k s c
         | S f =>
             match
               rmatch a
                 (fun s' c' =>
                    if (List.length s' <? List.length s)%nat then loop f s' c'
                    else None)
                 s c
             with
             | Some res => Some res
             | None => k s c
             end
         end) (S (List.length s)) s c
  | Group i a =>
      rmatch a
        (fun s' c' => k s' ((i, firstn (List.length s - List.length s') s) :: c'))
        s c
  end.

(** [s.match(r)] without the [g] flag: the captures of the leftmost
    match, [None] for [null]. *)
Fixpoint exec (r : regex) (s : jsstring) : option captures :=
  match rmatch r (fun _ c => Some c) s [] with
  | Some c => Some c
  | None =>
      match s with
      | [] => None
      | _ :: s' => exec r s'
      end
  end.

(** [/(\d+)\s*(a|b)/i] *)
Definition numberUnit (a b : jsstring) : regex :=
  Seq (Group 1 (Plus (Chr isDigit)))
      (Seq (Star (Chr isSpace)) (Group 2 (Alt (litI a) (litI b)))).

(** The integer that a run of decimal digits writes. *)
Definition decimalValue (s : jsstring) : Z :=
  fold_left (fun acc c => 10 * acc + (c - 48)) s 0.

(** The Number nearest to a non-negative integer [n]: [n] itself up to
    2^53, and beyond it [n] rounded to 53 significant bits, a tie going
    to the even neighbour. *)
Definition toNumber (n : Z) : Z :=
  let e := Z.log2 n - 52 in
  if e <=? 0 then n
  else
    let q := n / 2 ^ e in
    let r := n mod 2 ^ e in
    let half := 2 ^ (e - 1) in
    let q' :=
      if r <? half then q
      else if half <? r then q + 1
      else if Z.even q then q else q + 1 in
    q' * 2 ^ e.

(** [parseInt] of a run of decimal digits: the Number nearest to the
    integer written.  A run of more than 308 digits can write more than
    the largest finite Number and then reads as Infinity in the source;
    here it keeps its rounded value.  The callers add the count to a day
    or month number and set a Date to the sum, and on a host of bounded
    offsets a count that large makes the Date invalid either way. *)
Definition parseInt (s : jsstring) : Z := toNumber (decimalValue s).

(** [m = s.match(r)] followed by [parseInt(m[1])]. *)
Definition matchNumber (r : regex) (s : jsstring) : option Z :=
  match exec r s with
  | Some c =>
      match capture 1 c with
      | Some d => Some (parseInt d)
      | None => None
      end
  | None => None
  end.

End JsRegExp.

(* ================================================================== *)
(** ** ECMAScript time values and the Date methods the code calls *)
(* ================================================================== *)

Module JsDate.
Import JsString.

Definition msPerDay : Z := 86400000.
Definition msPerHour : Z := 3600000.
Definition msPerMinute : Z := 60000.
Definition msPerSecond : Z := 1000.

(** Largest magnitude of a time value; beyond it a Date is invalid. *)
Definition maxTime : Z := 8640000000000000.

Definition Day (t : Z) : Z := t / msPerDay.
Definition TimeWithinDay (t : Z) : Z := t mod msPerDay.

Definition DaysInYear (y : Z) : Z :=
  if negb (y mod 4 =? 0) then 365
  else if negb (y mod 100 =? 0) then 366
  else if negb (y mod 400 =? 0) then 365
  else 366.

Definition DayFromYear (y : Z) : Z :=
  365 * (y - 1970) + (y - 1969) / 4 - (y - 1901) / 100 + (y - 1601) / 400.

(** The largest year whose first day is not after day [d]: an estimate
    from the mean year length, moved by one where it is off. *)
Definition yearFromDay (d : Z) : Z :=
  let y := 1970 + (400 * d) / 146097 in
  if DayFromYear (y + 1) <=? d then y + 1
  else if DayFromYear y <=? d then y
  else y - 1.

Definition YearFromTime (t : Z) : Z := yearFromDay (Day t).

Definition leapOfYear (y : Z) : Z := if DaysInYear y =? 366 then 1 else 0.
Definition InLeapYear (t : Z) : Z := leapOfYear (YearFromTime t).

Definition DayWithinYear (t : Z) : Z := Day t - DayFromYear (YearFromTime t).

(** Days of the year before month [m] (0 = January). *)
Definition daysBeforeMonth (m leap : Z) : Z :=
  if m =? 0 then 0
  else if m =? 1 then 31
  else if m =? 2 then 59 + leap
  else if m =? 3 then 90 + leap
  else if m =? 4 then 120 + leap
  else if m =? 5 then 151 + leap
  else if m =? 6 then 181 + leap
  else if m =? 7 then 212 + leap
  else if m =? 8 then 243 + leap
  else if m =? 9 then 273 + leap
  else if m =? 10 then 304 + leap
  else 334 + leap.

Definition MonthFromTime (t : Z) : Z :=
  let d := DayWithinYear t in
  let leap := InLeapYear t in
  if d <? 31 then 0
  else if d <? 59 + leap then 1
  else if d <? 90 + leap then 2
  else if d <? 120 + leap then 3
  else if d <? 151 + leap then 4
  else if d <? 181 + leap then 5
  else if d <? 212 + leap then 6
  else if d <? 243 + leap then 7
  else if d <? 273 + leap then 8
  else if d <? 304 + leap then 9
  else if d <? 334 + leap then 10
  else 11.

Definition DateFromTime (t : Z) : Z :=
  DayWithinYear t - daysBeforeMonth (MonthFromTime t) (InLeapYear t) + 1.

Definition HourFromTime (t : Z) : Z := (t / msPerHour) mod 24.
Definition MinFromTime (t : Z) : Z := (t / msPerMinute) mod 60.
Definition SecFromTime (t : Z) : Z := (t / msPerSecond) mod 60.
Definition msFromTime (t : Z) : Z := t mod msPerSecond.

(** MakeDay(year, month, date): the day number of the first of the
    month, months beyond 0..11 carried into the year, plus [date - 1]. *)
Definition MakeDay (year month date : Z) : Z :=
  let ym := year + month / 12 in
  let mn := month mod 12 in
  DayFromYear ym + daysBeforeMonth mn (leapOfYear ym) + date - 1.

Definition MakeDate (day time : Z) : Z := day * msPerDay + time.

(** A Number that is an integer, or NaN. *)
Definition number := option Z.

Definition TimeClip (t : Z) : number :=
  if Z.abs t <=? maxTime then Some t else None.

(** The time value of a Date object; [None] is an Invalid Date. *)
Definition date := number.

(** [new Date(d)] for a Date [d]. *)
Definition newDate (d : date) : date :=
  match d with
  | Some t => TimeClip t
  | None => None
  end.

Definition numAdd (a b : number) : number :=
  match a, b with
  | Some x, Some y => Some (x + y)
  | _, _ => None
  end.

(** [a <= b] on Numbers: false as soon as one side is NaN. *)
Definition numLe (a b : number) : bool :=
  match a, b with
  | Some x, Some y => x <=? y
  | _, _ => false
  end.

(** LocalTZA(t, isUTC) of the host: its offset from UTC in milliseconds,
    the one in force at the UTC time [t] when [isUTC] is true, the one
    that belongs to the local time [t] when it is false.  Where the zone
    has daylight-saving time the offset changes with [t]. *)
Definition timezone : Type := Z -> bool -> Z.

(** A zone whose clocks never change (offset 0 for a server on UTC). *)
Definition fixedOffset (tza : Z) : timezone := fun _ _ => tza.

(** A server on UTC, and one three hours ahead of it. *)
Definition zoneUTC : timezone := fixedOffset 0.
Definition zonePlus3 : timezone := fixedOffset 10800000.

(** A zone whose clocks change once, at the UTC time [change], from the
    offset [before] to the offset [after].  A local time that the change
    skips or repeats is read with the offset before the change. *)
Definition clockChange (change before after : Z) : timezone :=
  fun t isUTC =>
    if isUTC then (if t <? change then before else after)
    else (if t <? change + Z.max before after then before else after).

Section LocalTime.

Variable zone : timezone.

Definition LocalTime (t : Z) : Z := t + zone t true.
Definition UTC (t : Z) : Z := t - zone t false.

Definition getFullYear (d : date) : number :=
  option_map (fun t => YearFromTime (LocalTime t)) d.

Definition getMonth (d : date) : number :=
  option_map (fun t => MonthFromTime (LocalTime t)) d.

Definition getDate (d : date) : number :=
  option_map (fun t => DateFromTime (LocalTime t)) d.

(** [d.setDate(dt)]: the new time value of [d]. *)
Definition setDate (d : date) (dt : number) : date :=
  match d, dt with
  | Some t0, Some n =>
      let t := LocalTime t0 in
      TimeClip (UTC (MakeDate (MakeDay (YearFromTime t) (MonthFromTime t) n)
                              (TimeWithinDay t)))
  | _, _ => None
  end.

(** [d.setMonth(m)]: the new time value of [d]. *)
Definition setMonth (d : date) (m : number) : date :=
  match d, m with
  | Some t0, Some n =>
      let t := LocalTime t0 in
      TimeClip (UTC (MakeDate (MakeDay (YearFromTime t) n (DateFromTime t))
                              (TimeWithinDay t)))
  | _, _ => None
  end.

End LocalTime.

(** The year of [toISOString]: four digits from 0 to 9999, otherwise a
    sign and six digits. *)
Definition isoYear (y : Z) : jsstring :=
  if (0 <=? y) && (y <=? 9999) then padStart0 4 (natToString y)
  else (if y <? 0 then 45 else 43) :: padStart0 6 (natToString (Z.abs y)).

(** [d.toISOString()] of a valid time value: YYYY-MM-DDTHH:mm:ss.sssZ
    in UTC. *)
Definition toISOString (t : Z) : jsstring :=
  isoYear (YearFromTime t) ++ [45] ++
  padStart0 2 (natToString (MonthFromTime t + 1)) ++ [45] ++
  padStart0 2 (natToString (DateFromTime t)) ++ [84] ++
  padStart0 2 (natToString (HourFromTime t)) ++ [58] ++
  padStart0 2 (natToString (MinFromTime t)) ++ [58] ++
  padStart0 2 (natToString (SecFromTime t)) ++ [46] ++
  padStart0 3 (natToString (msFromTime t)) ++ [90].

End JsDate.

(* ================================================================== *)
(** ** backend/services/medicationService.js *)
(* ================================================================== *)

Module MedicationService.
Import JsString JsRegExp JsDate.

(** *** Data *)

Record Prescription : Type := mkPrescription {
  medicationName : jsstring;
  dosage : jsstring;
  duration : option jsstring;      (* [None]: null or undefined *)
  notes : option jsstring
}.

Record Person : Type := mkPerson {
  firstName : jsstring;
  lastName : jsstring
}.

Record Doctor : Type := mkDoctor {
  personId : option Person;
  specialization : option jsstring
}.

Record Visit : Type := mkVisit {
  _id : Z;
  visitDate : date;
  doctorId : option Doctor;
  prescribedMedications : option (list Prescription)
}.

(** A prescription spread into a new object with its visit context. *)
Record MedicationRecord : Type := mkRecord {
  med : Prescription;
  visitId : Z;
  recVisitDate : date;
  doctorName : jsstring;
  doctorSpecialization : option jsstring;
  isActive : option bool           (* only stamped by the history *)
}.

(** What [Visit.find(query)...sort({ visitDate: -1 })...lean()] gave
    back: the completed visits of the patient that the query selects,
    newest first, or a rejection. *)
Inductive QueryOutcome : Type :=
| Found (visits : list Visit)
| Rejected.

(** What [Visit.countDocuments(query)] gave back: the number of visits
    the query matches, or a rejection. *)
Inductive CountOutcome : Type :=
| Counted (matching : Z)
| CountRejected.

Inductive WarningType : Type := DUPLICATE | POLYPHARMACY.
Inductive Severity : Type := low | medium | high.

Record Warning : Type := mkWarning {
  wtype : WarningType;
  severity : Severity;
  wmessage : jsstring;
  wmedications : option (list jsstring);
  wcount : option nat
}.

(** Nothing is ever pushed on [interactions]. *)
Inductive Interaction : Type := .

Record CurrentResult : Type := mkCurrent {
  cSuccess : bool;
  medications : option (list MedicationRecord);
  count : option nat;
  cMessage : option jsstring
}.

Record Statistics : Type := mkStatistics {
  totalPrescriptions : nat;
  uniqueMedications : nat;
  activeMedications : nat
}.

Record Pagination : Type := mkPagination {
  total : Z;
  page : Z;
  limit : Z;
  pages : option Z                 (* [None]: not a finite Number *)
}.

Record HistoryResult : Type := mkHistory {
  hSuccess : bool;
  history : option (list MedicationRecord);
  statistics : option Statistics;
  pagination : option Pagination;
  hMessage : option jsstring
}.

Record InteractionResult : Type := mkInteraction {
  iSuccess : bool;
  interactions : option (list Interaction);
  warnings : option (list Warning);
  medicationCount : option nat;
  iMessage : option jsstring
}.

(** *** String constants of the source (UTF-16 code units) *)

Definition kw_mustamirr : jsstring := [0x645; 0x633; 0x62A; 0x645; 0x631].
Definition kw_continuous : jsstring := u16 "continuous".
Definition kw_ongoing : jsstring := u16 "ongoing".

Definition unit_yawm : jsstring := [0x64A; 0x648; 0x645].
Definition unit_usbu : jsstring := [0x623; 0x633; 0x628; 0x648; 0x639].
Definition unit_shahr : jsstring := [0x634; 0x647; 0x631].

(** [/(\d+)\s*(يوم|day)/i], [/(\d+)\s*(أسبوع|week)/i],
    [/(\d+)\s*(شهر|month)/i] *)
Definition daysRe : regex := numberUnit unit_yawm (u16 "day").
Definition weeksRe : regex := numberUnit unit_usbu (u16 "week").
Definition monthsRe : regex := numberUnit unit_shahr (u16 "month").

Definition doctorPrefix : jsstring := [0x62F; 0x2E; 0x20].
Definition doctorUnspecified : jsstring :=
  [0x63A; 0x64A; 0x631; 0x20; 0x645; 0x62D; 0x62F; 0x62F].

Definition msgCurrentFailed : jsstring :=
  [0x62D; 0x62F; 0x62B; 0x20; 0x62E; 0x637; 0x623; 0x20; 0x623; 0x62B;
   0x646; 0x627; 0x621; 0x20; 0x62C; 0x644; 0x628; 0x20; 0x627; 0x644;
   0x623; 0x62F; 0x648; 0x64A; 0x629; 0x20; 0x627; 0x644; 0x62D; 0x627;
   0x644; 0x64A; 0x629].
Definition msgHistoryFailed : jsstring :=
  [0x62D; 0x62F; 0x62B; 0x20; 0x62E; 0x637; 0x623; 0x20; 0x623; 0x62B;
   0x646; 0x627; 0x621; 0x20; 0x62C; 0x644; 0x628; 0x20; 0x62A; 0x627;
   0x631; 0x64A; 0x62E; 0x20; 0x627; 0x644; 0x623; 0x62F; 0x648; 0x64A;
   0x629].
Definition msgInteractionsFailed : jsstring :=
  [0x62D; 0x62F; 0x62B; 0x20; 0x62E; 0x637; 0x623; 0x20; 0x623; 0x62B;
   0x646; 0x627; 0x621; 0x20; 0x641; 0x62D; 0x635; 0x20; 0x62A; 0x641;
   0x627; 0x639; 0x644; 0x627; 0x62A; 0x20; 0x627; 0x644; 0x623; 0x62F;
   0x648; 0x64A; 0x629].

Definition msgDuplicate : jsstring :=
  [0x62A; 0x645; 0x20; 0x648; 0x635; 0x641; 0x20; 0x646; 0x641; 0x633;
   0x20; 0x627; 0x644; 0x62F; 0x648; 0x627; 0x621; 0x20; 0x645; 0x646;
   0x20; 0x642; 0x628; 0x644; 0x20; 0x623; 0x643; 0x62B; 0x631; 0x20;
   0x645; 0x646; 0x20; 0x637; 0x628; 0x64A; 0x628].

Definition msgPolyBefore : jsstring :=
  [0x62A; 0x62A; 0x646; 0x627; 0x648; 0x644; 0x20].
Definition msgPolyAfter : jsstring :=
  [0x20; 0x623; 0x62F; 0x648; 0x64A; 0x629; 0x20; 0x62D; 0x627; 0x644;
   0x64A; 0x627; 0x64B; 0x2E; 0x20; 0x64A; 0x64F; 0x646; 0x635; 0x62D;
   0x20; 0x628; 0x645; 0x631; 0x627; 0x62C; 0x639; 0x629; 0x20; 0x627;
   0x644; 0x637; 0x628; 0x64A; 0x628; 0x20; 0x644; 0x645; 0x631; 0x627;
   0x62C; 0x639; 0x629; 0x20; 0x627; 0x644; 0x623; 0x62F; 0x648; 0x64A;
   0x629].

Section Host.

(** The host's time zone, and its [String.prototype.toLowerCase]
    (Unicode case mapping). *)
Variable zone : timezone.
Variable toLowerCase : jsstring -> jsstring.

(** The time value of [new Date()].  filterActiveMedications reads the
    clock once for the whole list; isMedicationActive reads it once per
    record, and the history gives all its records the same instant. *)
Variable now : Z.

(** *** Helper functions *)

(** [d && (...)]: null, undefined and the empty string are falsy. *)
Definition truthy (d : option jsstring) : bool :=
  match d with
  | Some (_ :: _) => true
  | _ => false
  end.

(** [d?.match(r)] followed by [parseInt(m[1])]. *)
Definition durationMatch (r : regex) (d : option jsstring) : option Z :=
  match d with
  | Some s => matchNumber r s
  | None => None
  end.

(** [(now - prescribedDate) / (1000 * 60 * 60 * 24)], as an exact
    rational.  The double quotient of the source compares with 90 and
    with 30 as the exact one does: both bounds are integers that a
    double holds, the rounding is monotone, and a quotient above the
    bound exceeds it by at least 1/86400000. *)
Definition daysSince (prescribedDate : date) : option Q :=
  match prescribedDate with
  | Some p => Some (inject_Z (now - p) / inject_Z (1000 * 60 * 60 * 24))%Q
  | None => None
  end.

(** [x <= n] for a Number [x] that may be NaN. *)
Definition ratLe (x : option Q) (n : Z) : bool :=
  match x with
  | Some q => Qle_bool q (inject_Z n)
  | None => false
  end.

(** The callback of [medications.filter] in filterActiveMedications. *)
Definition activeByDuration (m : MedicationRecord) : bool :=
  let d := duration (med m) in
  if truthy d &&
     match d with
     | Some s =>
         includes s kw_mustamirr ||
         includes (toLowerCase s) kw_continuous ||
         includes (toLowerCase s) kw_ongoing
     | None => false
     end
  then true
  else
    match durationMatch daysRe d with
    | Some days =>
        let prescribedDate := newDate (recVisitDate m) in
        let endDate := newDate prescribedDate in
        let endDate :=
          setDate zone endDate (numAdd (getDate zone endDate) (Some days)) in
        numLe (Some now) endDate
    | None =>
    match durationMatch weeksRe d with
    | Some weeks =>
        let prescribedDate := newDate (recVisitDate m) in
        let endDate := newDate prescribedDate in
        let endDate :=
          setDate zone endDate
                  (numAdd (getDate zone endDate) (Some (weeks * 7))) in
        numLe (Some now) endDate
    | None =>
    match durationMatch monthsRe d with
    | Some months =>
        let prescribedDate := newDate (recVisitDate m) in
        let endDate := newDate prescribedDate in
        let endDate :=
          setMonth zone endDate
                   (numAdd (getMonth zone endDate) (Some months)) in
        numLe (Some now) endDate
    | None =>
        let prescribedDate := newDate (recVisitDate m) in
        let daysSincePrescribed := daysSince prescribedDate in
        ratLe daysSincePrescribed 90
    end end end.

Definition filterActiveMedications (l : list MedicationRecord)
  : list MedicationRecord :=
  filter activeByDuration l.

Definition isMedicationActive (medication : Prescription)
           (visitDate : date) : bool :=
  let prescribedDate := newDate visitDate in
  let d := duration medication in
  if truthy d &&
     match d with
     | Some s =>
         includes s kw_mustamirr ||
         includes (toLowerCase s) kw_continuous
     | None => false
     end
  then true
  else
    match durationMatch daysRe d with
    | Some days =>
        let endDate := newDate prescribedDate in
        let endDate :=
          setDate zone endDate (numAdd (getDate zone endDate) (Some days)) in
        numLe (Some now) endDate
    | None =>
        let daysSincePrescribed := daysSince prescribedDate in
        ratLe daysSincePrescribed 30
    end.

(** *** The visit context attached to each prescription *)

Definition doctorNameOf (v : Visit) : jsstring :=
  match doctorId v with
  | Some doc =>
      match personId doc with
      | Some p =>
          doctorPrefix ++ firstName p ++ [32] ++ lastName p
      | None => doctorUnspecified
      end
  | None => doctorUnspecified
  end.

Definition doctorSpecializationOf (v : Visit) : option jsstring :=
  match doctorId v with
  | Some doc => specialization doc
  | None => None
  end.

Definition withVisit (v : Visit) (p : Prescription) : MedicationRecord :=
  {| med := p;
     visitId := _id v;
     recVisitDate := visitDate v;
     doctorName := doctorNameOf v;
     doctorSpecialization := doctorSpecializationOf v;
     isActive := None |}.

(** The prescriptions a visit contributes ([forEach] returns at once
    when the list is missing). *)
Definition visitMedications (v : Visit) : list Prescription :=
  match prescribedMedications v with
  | Some l => l
  | None => []
  end.

(** The two nested [forEach] loops pushing on [allMedications]. *)
Definition collectMedications (visits : list Visit)
  : list MedicationRecord :=
  flat_map (fun v => map (withVisit v) (visitMedications v)) visits.

(** *** getCurrentMedications *)

Definition getCurrentMedications (q : QueryOutcome) : CurrentResult :=
  match q with
  | Rejected =>
      {| cSuccess := false; medications := None; count := None;
         cMessage := Some msgCurrentFailed |}
  | Found visits =>
      if (List.length visits =? 0)%nat then
        {| cSuccess := true; medications := Some []; count := Some O;
           cMessage := None |}
      else
        let allMedications := collectMedications visits in
        let active := filterActiveMedications allMedications in
        {| cSuccess := true; medications := Some active;
           count := Some (List.length active); cMessage := None |}
  end.

(** *** getMedicationHistory *)

(** [medicationName && !med.medicationName.includes(medicationName)]
    skips the prescription. *)
Definition nameSelected (filterName : option jsstring) (p : Prescription)
  : bool :=
  negb (truthy filterName &&
        match filterName with
        | Some n => negb (includes (medicationName p) n)
        | None => false
        end).

Definition withVisitStamped (v : Visit) (p : Prescription)
  : MedicationRecord :=
  {| med := p;
     visitId := _id v;
     recVisitDate := visitDate v;
     doctorName := doctorNameOf v;
     doctorSpecialization := doctorSpecializationOf v;
     isActive := Some (isMedicationActive p (visitDate v)) |}.

Definition collectHistory (filterName : option jsstring)
           (visits : list Visit) : list MedicationRecord :=
  flat_map (fun v =>
              map (withVisitStamped v)
                  (filter (nameSelected filterName) (visitMedications v)))
           visits.

(** [[...new Set(l)]]: the first occurrence of each string. *)
Fixpoint distinct (seen l : list jsstring) : list jsstring :=
  match l with
  | [] => []
  | x :: l' =>
      if existsb (eqb x) seen then distinct seen l'
      else x :: distinct (x :: seen) l'
  end.

Definition stampedActive (m : MedicationRecord) : bool :=
  match isActive m with
  | Some b => b
  | None => false
  end.

(** [Math.ceil(count / limit)]; the quotient by 0 is not finite.  The
    double quotient of the source has the ceiling of the exact one for
    counts and limits below 2^26. *)
Definition pageCount (matching limit : Z) : option Z :=
  if limit =? 0 then None else Some (- ((- matching) / limit)).

(** getMedicationHistory with its two reads of the store made arguments:
    [q] is what [Visit.find(query)] gave back for the dates, the [limit]
    and the skip of [(page - 1) * limit] visits asked for, and [c] what
    [Visit.countDocuments(query)] gave back.  The count is awaited after
    the find, and a rejection of either one is caught and answered with
    the failure message. *)
Definition getMedicationHistory (filterName : option jsstring)
           (page limit : Z) (q : QueryOutcome) (c : CountOutcome)
  : HistoryResult :=
  let failed :=
    {| hSuccess := false; history := None; statistics := None;
       pagination := None; hMessage := Some msgHistoryFailed |} in
  match q with
  | Rejected => failed
  | Found visits =>
      match c with
      | CountRejected => failed
      | Counted matching =>
          let medicationHistory := collectHistory filterName visits in
          let uniqueMedications :=
            distinct [] (map (fun m => medicationName (med m))
                             medicationHistory) in
          {| hSuccess := true;
             history := Some medicationHistory;
             statistics :=
               Some {| totalPrescriptions := List.length medicationHistory;
                       uniqueMedications := List.length uniqueMedications;
                       activeMedications :=
                         List.length
                           (filter stampedActive medicationHistory) |};
             pagination :=
               Some {| total := matching; page := page; limit := limit;
                       pages := pageCount matching limit |};
             hMessage := None |}
      end
  end.

(** *** checkMedicationInteractions *)

(** [names.filter((name, index) => names.indexOf(name) !== index)],
    the callback run from position [index] on. *)
Fixpoint duplicatesFrom (all : list jsstring) (index : Z)
         (rest : list jsstring) : list jsstring :=
  match rest with
  | [] => []
  | name :: rest' =>
      if negb (indexOf all name =? index)
      then name :: duplicatesFrom all (index + 1) rest'
      else duplicatesFrom all (index + 1) rest'
  end.

Definition duplicateWarning (duplicates : list jsstring) : list Warning :=
  if (0 <? List.length duplicates)%nat then
    [ {| wtype := DUPLICATE; severity := medium;
         wmessage := msgDuplicate;
         wmedications := Some duplicates; wcount := None |} ]
  else [].

Definition polypharmacyWarning (n : nat) : list Warning :=
  if (5 <=? n)%nat then
    [ {| wtype := POLYPHARMACY; severity := low;
         wmessage :=
           msgPolyBefore ++ natToString (Z.of_nat n) ++ msgPolyAfter;
         wmedications := None; wcount := Some n |} ]
  else [].

Definition checkMedicationInteractions (q : QueryOutcome)
  : InteractionResult :=
  let result := getCurrentMedications q in
  let empty :=
    {| iSuccess := true; interactions := Some []; warnings := Some [];
       medicationCount := None; iMessage := None |} in
  if negb (cSuccess result) then empty
  else
    match medications result with
    | None =>
        (* [result.medications.length] of undefined throws *)
        {| iSuccess := false; interactions := None; warnings := None;
           medicationCount := None;
           iMessage := Some msgInteractionsFailed |}
    | Some meds =>
        if (List.length meds =? 0)%nat then empty
        else
          let medicationNames :=
            map (fun m => toLowerCase (medicationName (med m))) meds in
          let duplicates :=
            duplicatesFrom medicationNames 0 medicationNames in
          let warnings :=
            duplicateWarning duplicates ++
            polypharmacyWarning (List.length meds) in
          {| iSuccess := true; interactions := Some [];
             warnings := Some warnings;
             medicationCount := Some (List.length meds);
             iMessage := None |}
    end.

End Host.

End MedicationService.

(* ================================================================== *)
(** ** Node's [path] module, POSIX flavour *)
(* ================================================================== *)

Module NodePath.
Import JsString.

Definition SLASH : codeunit := 47.
Definition DOT : codeunit := 46.
Definition BACKSLASH : codeunit := 92.

(** The segments of a path between its separators. *)
Fixpoint splitOn (sep : codeunit) (s : jsstring) : list jsstring :=
  match s with
  | [] => [[]]
  | c :: s' =>
      if c =? sep then [] :: splitOn sep s'
      else
        match splitOn sep s' with
        | seg :: segs => (c :: seg) :: segs
        | [] => [[c]]
        end
  end.

Fixpoint joinWith (sep : codeunit) (segs : list jsstring) : jsstring :=
  match segs with
  | [] => []
  | [s] => s
  | s :: rest => s ++ sep :: joinWith sep rest
  end.

(** Segment resolution of normalizeString; [kept] holds the segments
    kept so far, last one first.  Empty and "." segments are dropped;
    ".." removes the last kept segment unless that is ".." itself, and
    is kept at the front of a relative path. *)
Fixpoint resolveSegments (allowAboveRoot : bool) (kept : list jsstring)
         (segs : list jsstring) : list jsstring :=
  match segs with
  | [] => rev kept
  | seg :: rest =>
      if eqb seg [] || eqb seg [DOT] then
        resolveSegments allowAboveRoot kept rest
      else if eqb seg [DOT; DOT] then
        match kept with
        | last :: kept' =>
            if eqb last [DOT; DOT] then
              resolveSegments allowAboveRoot
                (if allowAboveRoot then seg :: kept else kept) rest
            else resolveSegments allowAboveRoot kept' rest
        | [] =>
            resolveSegments allowAboveRoot
              (if allowAboveRoot then [seg] else []) rest
        end
      else resolveSegments allowAboveRoot (seg :: kept) rest
  end.

Definition normalizeString (path : jsstring) (allowAboveRoot : bool)
  : jsstring :=
  joinWith SLASH (resolveSegments allowAboveRoot [] (splitOn SLASH path)).

(** [path.posix.normalize] *)
Definition normalize (path : jsstring) : jsstring :=
  match path with
  | [] => [DOT]
  | first :: _ =>
      let isAbsolute := first =? SLASH in
      let trailingSeparator := last path 0 =? SLASH in
      let p := normalizeString path (negb isAbsolute) in
      match p with
      | [] =>
          if isAbsolute then [SLASH]
          else if trailingSeparator then [DOT; SLASH] else [DOT]
      | _ :: _ =>
          let p := if trailingSeparator then p ++ [SLASH] else p in
          if isAbsolute then SLASH :: p else p
      end
  end.

(** [path.posix.join(...args)]: the non-empty arguments joined by "/"
    and normalized; "." when nothing is left. *)
Definition join (args : list jsstring) : jsstring :=
  match filter (fun a => negb (eqb a [])) args with
  | [] => [DOT]
  | parts => normalize (joinWith SLASH parts)
  end.

(** State of the backwards scan of [path.posix.extname]. *)
Record ExtScan : Type := mkExtScan {
  startDot : Z;
  startPart : Z;
  endPos : Z;
  matchedSlash : bool;
  preDotState : Z;
  stopped : bool                   (* the loop has executed [break] *)
}.

(** One iteration of the loop, at index [i] holding [code]. *)
Definition extStep (st : ExtScan) (i : Z) (code : codeunit) : ExtScan :=
  if stopped st then st
  else if code =? SLASH then
    if negb (matchedSlash st) then
      {| startDot := startDot st; startPart := i + 1; endPos := endPos st;
         matchedSlash := matchedSlash st; preDotState := preDotState st;
         stopped := true |}
    else st
  else
    let matched := if endPos st =? -1 then false else matchedSlash st in
    let e := if endPos st =? -1 then i + 1 else endPos st in
    if code =? DOT then
      if startDot st =? -1 then
        {| startDot := i; startPart := startPart st; endPos := e;
           matchedSlash := matched; preDotState := preDotState st;
           stopped := false |}
      else
        {| startDot := startDot st; startPart := startPart st; endPos := e;
           matchedSlash := matched; preDotState := 1; stopped := false |}
    else if negb (startDot st =? -1) then
      {| startDot := startDot st; startPart := startPart st; endPos := e;
         matchedSlash := matched; preDotState := -1; stopped := false |}
    else
      {| startDot := startDot st; startPart := startPart st; endPos := e;
         matchedSlash := matched; preDotState := preDotState st;
         stopped := false |}.

(** The loop [for (i = path.length - 1; i >= 0; --i)], run on the
    reversed path with [i + 1] counting what is still ahead. *)
Fixpoint extScan (st : ExtScan) (revPath : jsstring) : ExtScan :=
  match revPath with
  | [] => st
  | code :: rest => extScan (extStep st (Z.of_nat (List.length rest)) code) rest
  end.

Definition extInit : ExtScan :=
  {| startDot := -1; startPart := 0; endPos := -1; matchedSlash := true;
     preDotState := 0; stopped := false |}.

(** [path.slice(a, b)] for [0 <= a <= b]. *)
Definition slice (a b : Z) (s : jsstring) : jsstring :=
  firstn (Z.to_nat (b - a)) (skipn (Z.to_nat a) s).

(** [path.posix.extname] *)
Definition extname (path : jsstring) : jsstring :=
  let st := extScan extInit (rev path) in
  if (startDot st =? -1) || (endPos st =? -1) || (preDotState st =? 0) ||
     ((preDotState st =? 1) && (startDot st =? endPos st - 1) &&
      (startDot st =? startPart st + 1))
  then []
  else slice (startDot st) (endPos st) path.

End NodePath.

(* ================================================================== *)
(** ** backend/utils/fileUpload.js *)
(* ================================================================== *)

Module FileUploadManager.
Import JsString JsDate NodePath.

Record FilePath : Type := mkFilePath {
  fullPath : jsstring;
  relativePath : jsstring;
  filename : jsstring;
  directory : jsstring
}.

(** The text of the timestamp: [toISOString()] with every ":" and "."
    replaced by "-", then cut at the first "." (none is left). *)
Definition timestampOf (now : Z) : jsstring :=
  splitHead 46
    (replaceAll (fun c => (c =? 58) || (c =? 46)) 45 (toISOString now)).

Section Host.

(** The host's time zone. *)
Variable zone : timezone.

(** [generateFilePath] with its two reads of the environment made
    arguments: [now], the time value of [new Date()], and
    [randomText], the text of [Math.random().toString(36)]. *)
Definition generateFilePath (uploadType patientId originalFilename
                             : jsstring)
           (now : Z) (randomText : jsstring) : FilePath :=
  let year := YearFromTime (LocalTime zone now) in
  let month :=
    padStart0 2 (intToString (MonthFromTime (LocalTime zone now) + 1)) in
  let timestamp := timestampOf now in
  let randomSuffix := substring 2 10 randomText in
  let ext := extname originalFilename in
  let filename :=
    uploadType ++ [95] ++ timestamp ++ [95] ++ randomSuffix ++ ext in
  let directory :=
    join [u16 "uploads"; uploadType ++ u16 "s"; intToString year; month;
          u16 "patient_" ++ patientId] in
  let fullPath := join [directory; filename] in
  let relativePath :=
    replaceAll (fun c => c =? BACKSLASH) SLASH fullPath in
  {| fullPath := fullPath; relativePath := relativePath;
     filename := filename; directory := directory |}.

End Host.

End FileUploadManager.

(* ================================================================== *)
(** ** The duration variants of the specification *)
(* ================================================================== *)

Module DurationParser.
Import JsString JsRegExp JsDate MedicationService.

(** The tagged variant of the specification's data model. *)
Inductive DurationSpec : Type :=
| Continuous
| Days (n : Z)
| Weeks (n : Z)
| Months (n : Z)
| Unknown.

(** parseDuration as the specification words it (4.2): a continuous or
    ongoing keyword anywhere in the text first, then the numeric days,
    weeks and months patterns in that order, [Unknown] when nothing
    matches or the text is empty or null.  The service has no such
    function; its two evaluators inline the tests. *)
Definition parseDuration (toLowerCase : jsstring -> jsstring)
           (text : option jsstring) : DurationSpec :=
  match text with
  | None => Unknown
  | Some [] => Unknown
  | Some s =>
      if includes s kw_mustamirr ||
         includes (toLowerCase s) kw_continuous ||
         includes (toLowerCase s) kw_ongoing
      then Continuous
      else
        match matchNumber daysRe s with
        | Some n => Days n
        | None =>
        match matchNumber weeksRe s with
        | Some n => Weeks n
        | None =>
        match matchNumber monthsRe s with
        | Some n => Months n
        | None => Unknown
        end end end
  end.

(** A time value a Date can hold. *)
Definition validTime (t : Z) : Prop := Z.abs t <= maxTime.

(** A record of the current-medications view for a prescription with
    the given duration text, prescribed at [origination]. *)
Definition recordWith (text : option jsstring) (origination : Z)
  : MedicationRecord :=
  {| med := {| medicationName := []; dosage := []; duration := text;
               notes := None |};
     visitId := 0;
     recVisitDate := Some origination;
     doctorName := doctorUnspecified;
     doctorSpecialization := None;
     isActive := None |}.

(** Some position of [s] holds [w] up to the case of Basic Latin
    letters. *)
Definition containsAnyCase (s w : jsstring) : Prop :=
  exists a v b, s = a ++ v ++ b /\ asciiToLowerCase v = w.

(** The end date either evaluator builds for a day count. *)
Definition endAfterDays (zone : timezone) (visitDate : date) (days : Z) : date :=
  let endDate := newDate (newDate visitDate) in
  setDate zone endDate (numAdd (getDate zone endDate) (Some days)).

(** The end date the current-medications path builds for a month
    count. *)
Definition endAfterMonths (zone : timezone) (visitDate : date) (months : Z)
  : date :=
  let endDate := newDate (newDate visitDate) in
  setMonth zone endDate (numAdd (getMonth zone endDate) (Some months)).

(** No clock change is felt between the time [t] and the local time
    [span] later: the offset that belongs to that local time is the one
    in force at [t].  It holds in every zone of fixed offset, and in a
    zone with daylight-saving time whenever both ends lie in the same
    season. *)
Definition sameOffsetAfter (zone : timezone) (t span : Z) : Prop :=
  zone (LocalTime zone t + span) false = zone t true.

(** Clocks that went from UTC+2 to UTC+3 on 25 March 2022 at midnight,
    as in Damascus. *)
Definition springForward2022 : timezone :=
  clockChange 1648159200000 7200000 10800000.

(** The duration texts of the specification's examples. *)
Definition text_3_asabi : jsstring :=
  [0x33; 0x20; 0x623; 0x633; 0x627; 0x628; 0x64A; 0x639].
Definition text_3_usbu : jsstring := [0x33; 0x20] ++ unit_usbu.
Definition text_2_months : jsstring := u16 "2 months".

(** 2024-01-31 12:00 and 2024-03-31 12:00 as local times. *)
Definition jan31noon : Z := 1706702400000.
Definition mar31noon : Z := 1711886400000.

(** A Basic Latin letter. *)
Definition isLatinLetter (c : codeunit) : bool :=
  ((65 <=? c) && (c <=? 90)) || ((97 <=? c) && (c <=? 122)).

(** What the evaluators rely on from the host's [toLowerCase]: a run of
    Basic Latin letters is lowered letter by letter wherever it stands;
    the text around it may change, also in length. *)
Definition lowersLatin (toLowerCase : jsstring -> jsstring) : Prop :=
  forall a v b,
    forallb isLatinLetter v = true ->
    exists a' b', toLowerCase (a ++ v ++ b) = a' ++ asciiToLowerCase v ++ b'.

End DurationParser.

(* ================================================================== *)
(** ** Terms of the aggregator and interaction-checker properties *)
(* ================================================================== *)

Module MedicationAggregator.
Import JsString JsDate MedicationService.

(** Visit dates from newest to oldest, an invalid date counting as
    oldest. *)
Definition notOlder (a b : date) : Prop :=
  match a, b with
  | Some x, Some y => y <= x
  | _, None => True
  | None, Some _ => False
  end.

(** The source sequence of a visit: its prescribedMedications as they
    are stored, nothing when the visit has none. *)
Definition prescribedOf (v : Visit) : list Prescription :=
  match prescribedMedications v with
  | Some l => l
  | None => []
  end.

(** The records a visit contributes to the current medications: the
    prescriptions of its source sequence that pass the filter, in their
    order. *)
Definition currentOfVisit (zone : timezone) (toLowerCase : jsstring -> jsstring)
           (now : Z) (v : Visit) : list MedicationRecord :=
  map (withVisit v)
      (filter (fun p => activeByDuration zone toLowerCase now (withVisit v p))
              (prescribedOf v)).

(** The records a visit contributes to the history: the prescriptions
    of its source sequence that pass the name filter, in their order. *)
Definition historyOfVisit (zone : timezone) (toLowerCase : jsstring -> jsstring)
           (now : Z) (filterName : option jsstring) (v : Visit)
  : list MedicationRecord :=
  map (withVisitStamped zone toLowerCase now v)
      (filter (nameSelected filterName) (prescribedOf v)).

End MedicationAggregator.

Module InteractionChecker.
Import JsString JsDate MedicationService.

Definition isDuplicate (w : Warning) : bool :=
  match wtype w with
  | DUPLICATE => true
  | POLYPHARMACY => false
  end.

Definition isPolypharmacy (w : Warning) : bool :=
  match wtype w with
  | POLYPHARMACY => true
  | DUPLICATE => false
  end.

(** [s] stands at two positions of [names]. *)
Definition repeated (names : list jsstring) (s : jsstring) : Prop :=
  exists i j, (i < j)%nat /\ nth_error names i = Some s /\
              nth_error names j = Some s.

(** The result returned when there is nothing to check. *)
Definition emptyReport : InteractionResult :=
  {| iSuccess := true; interactions := Some []; warnings := Some [];
     medicationCount := None; iMessage := None |}.

(** A prescription without end. *)
Definition continuousRx (name : string) : Prescription :=
  {| medicationName := u16 name; dosage := u16 "1x1";
     duration := Some kw_continuous; notes := None |}.

(** One completed visit prescribing the given medications. *)
Definition visitWith (names : list string) : Visit :=
  {| _id := 1; visitDate := Some 1706702400000; doctorId := None;
     prescribedMedications := Some (map continuousRx names) |}.

End InteractionChecker.

Module PathNamer.
Import JsString JsRegExp JsDate NodePath FileUploadManager.

Definition notSlash (c : codeunit) : bool := negb (c =? SLASH).


(** A segment the normalization leaves alone: not empty, without a
    separator, and neither "." nor "..". *)
Definition cleanSegment (s : jsstring) : bool :=
  negb (eqb s []) && forallb notSlash s &&
  negb (eqb s [DOT]) && negb (eqb s [DOT; DOT]).

(** The month of the directory as the source writes it. *)
Definition monthText (zone : timezone) (now : Z) : jsstring :=
  padStart0 2 (intToString (MonthFromTime (LocalTime zone now) + 1)).

(** uploads/<uploadType>s/<year>/<month>/patient_<ownerId> *)
Definition expectedDirectory (zone : timezone) (uploadType patientId : jsstring)
           (now : Z) : jsstring :=
  u16 "uploads/" ++ uploadType ++ u16 "s/" ++
  intToString (YearFromTime (LocalTime zone now)) ++ u16 "/" ++
  monthText zone now ++ u16 "/patient_" ++ patientId.



(** 2024-01-20T10:30:45.123Z *)
Definition sampleTime : Z := 1705746645123.

End PathNamer.

(* ================================================================== *)
(** ** Terms of the further properties *)
(* ================================================================== *)

Module ServiceTerms.
Import JsString JsRegExp JsDate MedicationService.

(** [u] is the word [w] up to the case folding of the [i] flag. *)
Definition isUnitVariant (w u : jsstring) : bool :=
  JsString.eqb (map canonicalize u) (map canonicalize w).

Definition notDigit (c : codeunit) : bool := negb (isDigit c).

(** The continuous-keyword test of filterActiveMedications. *)
Definition keywordCurrent (toLowerCase : jsstring -> jsstring) (s : jsstring)
  : bool :=
  includes s kw_mustamirr || includes (toLowerCase s) kw_continuous ||
  includes (toLowerCase s) kw_ongoing.

(** The continuous-keyword test of isMedicationActive. *)
Definition keywordHistory (toLowerCase : jsstring -> jsstring) (s : jsstring)
  : bool :=
  includes s kw_mustamirr || includes (toLowerCase s) kw_continuous.

(** [d && (...)] of filterActiveMedications: the text is not empty and
    holds a continuous keyword. *)
Definition continuousCurrent (toLowerCase : jsstring -> jsstring)
           (d : option jsstring) : bool :=
  truthy d &&
  match d with
  | Some s => keywordCurrent toLowerCase s
  | None => false
  end.

(** The same test in isMedicationActive. *)
Definition continuousHistory (toLowerCase : jsstring -> jsstring)
           (d : option jsstring) : bool :=
  truthy d &&
  match d with
  | Some s => keywordHistory toLowerCase s
  | None => false
  end.

(** The same local clock time [n] days after the time [t], as a time
    value: what [d.setDate(d.getDate() + n)] makes of a valid date. *)
Definition localDaysLater (zone : timezone) (t n : Z) : Z :=
  UTC zone (LocalTime zone t + n * msPerDay).


(** A history record without its stamp. *)
Definition unstamp (r : MedicationRecord) : MedicationRecord :=
  {| med := med r; visitId := visitId r; recVisitDate := recVisitDate r;
     doctorName := doctorName r;
     doctorSpecialization := doctorSpecialization r; isActive := None |}.

End ServiceTerms.

(* ================================================================== *)
(** ** backend/utils/fileUpload.js, doctor requests *)
(* ================================================================== *)

Module DoctorRequestFiles.
Import JsString JsDate NodePath FileUploadManager.

(** [generateDoctorRequestPath], its read of [Date.now()] made the
    argument [now]. *)
Definition generateDoctorRequestPath
           (requestId fieldName originalFilename : jsstring) (now : Z)
  : FilePath :=
  let ext := extname originalFilename in
  let timestamp := now in
  let filename := fieldName ++ [95] ++ intToString timestamp ++ ext in
  let directory :=
    join [u16 "uploads"; u16 "doctor-requests"; u16 "pending";
          u16 "request_" ++ requestId] in
  let fullPath := join [directory; filename] in
  {| fullPath := fullPath;
     relativePath := replaceAll (fun c => c =? BACKSLASH) SLASH fullPath;
     filename := filename;
     directory := directory |}.

(** The two directories of [moveDoctorRequestToApproved]. *)
Definition pendingDir (requestId : jsstring) : jsstring :=
  join [u16 "uploads"; u16 "doctor-requests"; u16 "pending";
        u16 "request_" ++ requestId].


End DoctorRequestFiles.

Module ExtnameTerms.
Import JsString NodePath.

(** The scan of [extname] over [path], with [pre] still ahead: while it
    runs, the text between [pre] and the end of the extension holds no
    separator, and a dot once found starts such a text. *)
Definition extInvariant (path pre : jsstring) (st : ExtScan) : Prop :=
  (stopped st = false -> (matchedSlash st = true <-> endPos st = -1)) /\
  (stopped st = false -> endPos st <> -1 ->
   Z.of_nat (List.length pre) <= endPos st /\
   forall j, (List.length pre <= j)%nat -> Z.of_nat j < endPos st ->
             nth j path 0 <> SLASH) /\
  (startDot st <> -1 ->
   0 <= startDot st < endPos st /\
   (stopped st = false -> Z.of_nat (List.length pre) <= startDot st) /\
   forall j, startDot st <= Z.of_nat j < endPos st -> nth j path 0 <> SLASH).

End ExtnameTerms.

(* ================================================================== *)
(** ** backend/middleware/uploadDoctorFiles.js and the upload routes *)
(* ================================================================== *)

Module UploadDoctorFiles.
Import JsString JsDate NodePath FileUploadManager DoctorRequestFiles.

(** The fields of a multer file the callbacks read. *)
Record File : Type := mkFile {
  fieldname : jsstring;
  originalname : jsstring;
  mimetype : jsstring
}.

(** The two properties the storage callbacks keep on the request;
    [uploadDirectories] is an object from field names to directories. *)
Record Request : Type := mkRequest {
  uploadDirectories : option (list (jsstring * jsstring));
  tempRequestId : option jsstring
}.

(** What a callback hands to [cb]: a value, or an error. *)
Inductive Callback (A : Type) : Type :=
| Done (value : A)
| Failed (error : jsstring).

Arguments Done {A} value.
Arguments Failed {A} error.

(** [o[k]] *)
Fixpoint getProp (k : jsstring) (o : list (jsstring * jsstring))
  : option jsstring :=
  match o with
  | [] => None
  | (k', v) :: o' => if JsString.eqb k' k then Some v else getProp k o'
  end.

(** [o[k] = v] *)
Fixpoint setProp (k v : jsstring) (o : list (jsstring * jsstring))
  : list (jsstring * jsstring) :=
  match o with
  | [] => [(k, v)]
  | (k', v') :: o' =>
      if JsString.eqb k' k then (k, v) :: o' else (k', v') :: setProp k v o'
  end.

(** [`temp_${Date.now()}_${Math.random().toString(36).substring(7)}`] *)
Definition newTempRequestId (now : Z) (randomText : jsstring) : jsstring :=
  u16 "temp_" ++ intToString now ++ [95] ++ skipn 7 randomText.

(** The [destination] callback of the doctor-request storage.  [now] and
    [randomText] are the clock and the random text of the temporary id,
    [nowInner] the clock read inside generateDoctorRequestPath, and
    [ensureFailure] the error ensureDirectory rejected with, if any. *)
Definition destination (req : Request) (file : File) (now : Z)
           (randomText : jsstring) (nowInner : Z)
           (ensureFailure : option jsstring)
  : Request * Callback jsstring :=
  let tempId := newTempRequestId now randomText in
  let fileInfo :=
    generateDoctorRequestPath tempId (fieldname file) (originalname file)
                              nowInner in
  match ensureFailure with
  | Some error => (req, Failed error)
  | None =>
      let dirs :=
        match uploadDirectories req with
        | Some d => d
        | None => []
        end in
      ({| uploadDirectories :=
            Some (setProp (fieldname file) (directory fileInfo) dirs);
          tempRequestId := Some tempId |},
       Done (directory fileInfo))
  end.

(** The [filename] callback: [req.tempRequestId || `temp_${Date.now()}`]. *)
Definition filenameCallback (req : Request) (file : File) (now nowInner : Z)
  : Callback jsstring :=
  let tempId :=
    match tempRequestId req with
    | Some (c :: s) => c :: s
    | _ => u16 "temp_" ++ intToString now
    end in
  Done (filename (generateDoctorRequestPath tempId (fieldname file)
                                            (originalname file) nowInner)).

(** An error reaching handleUploadErrors: a MulterError with its code and
    message, or any other truthy value with its message, if it has one. *)
Inductive UploadError : Type :=
| MulterError (code message : jsstring)
| OtherError (message : option jsstring).

Record Response : Type := mkResponse {
  status : Z;
  success : bool;
  message : jsstring
}.

Inductive Handled : Type :=
| Respond (r : Response)
| Next.

Definition msgFileTooLarge : jsstring :=
  [0x62D; 0x62C; 0x645; 0x20; 0x627; 0x644; 0x645; 0x644; 0x641; 0x20;
   0x643; 0x628; 0x64A; 0x631; 0x20; 0x62C; 0x62F; 0x627; 0x64B; 0x2E;
   0x20; 0x627; 0x644; 0x62D; 0x62F; 0x20; 0x627; 0x644; 0x623; 0x642;
   0x635; 0x649; 0x20; 0x31; 0x30; 0x20; 0x645; 0x64A; 0x63A; 0x627;
   0x628; 0x627; 0x64A; 0x62A; 0x20; 0x644; 0x643; 0x644; 0x20; 0x645;
   0x644; 0x641].
Definition msgUploadErrorPrefix : jsstring :=
  [0x62E; 0x637; 0x623; 0x20; 0x641; 0x64A; 0x20; 0x631; 0x641; 0x639;
   0x20; 0x627; 0x644; 0x645; 0x644; 0x641; 0x3A; 0x20].
Definition msgUploadError : jsstring :=
  [0x62E; 0x637; 0x623; 0x20; 0x641; 0x64A; 0x20; 0x631; 0x641; 0x639;
   0x20; 0x627; 0x644; 0x645; 0x644; 0x641].

(** [handleUploadErrors(err, req, res, next)]; [None] is a falsy [err]. *)
Definition handleUploadErrors (err : option UploadError) : Handled :=
  match err with
  | Some (MulterError code m) =>
      if JsString.eqb code (u16 "LIMIT_FILE_SIZE") then
        Respond {| status := 400; success := false;
                   message := msgFileTooLarge |}
      else
        Respond {| status := 400; success := false;
                   message := msgUploadErrorPrefix ++ m |}
  | Some (OtherError m) =>
      Respond {| status := 400; success := false;
                 message :=
                   match m with
                   | Some (c :: s) => c :: s
                   | _ => msgUploadError
                   end |}
  | None => Next
  end.

End UploadDoctorFiles.

Module UploadRoutes.
Import JsString JsDate NodePath FileUploadManager UploadDoctorFiles.

Definition msgPatientIdMissing : jsstring :=
  u16 "Patient ID not found in request".

(** [destination] of the visit-attachment storage of the doctor routes;
    [nationalId] is [req.params.nationalId]. *)
Definition visitDestination (zone : timezone) (nationalId : option jsstring)
           (file : File) (now : Z) (randomText : jsstring)
           (ensureFailure : option jsstring) : Callback jsstring :=
  match nationalId with
  | Some (c :: s) =>
      let fileInfo :=
        generateFilePath zone (u16 "visit") (c :: s) (originalname file)
                         now randomText in
      match ensureFailure with
      | Some error => Failed error
      | None => Done (directory fileInfo)
      end
  | _ => Failed msgPatientIdMissing
  end.

(** [destination] of the ECG storage; [patientId] is
    [req.body.patientId]. *)
Definition ecgDestination (zone : timezone) (patientId : option jsstring)
           (file : File) (now : Z) (randomText : jsstring)
           (ensureFailure : option jsstring) : Callback jsstring :=
  match patientId with
  | Some (c :: s) =>
      let fileInfo :=
        generateFilePath zone (u16 "ecg") (c :: s) (originalname file)
                         now randomText in
      match ensureFailure with
      | Some error => Failed error
      | None => Done (directory fileInfo)
      end
  | _ =>
      let tempDir := join [u16 "uploads"; u16 "temp"] in
      match ensureFailure with
      | Some error => Failed error
      | None => Done tempDir
      end
  end.

(** [filename] of the ECG storage; [randomInt] is
    [Math.round(Math.random() * 1E9)]. *)
Definition ecgFilename (zone : timezone) (patientId : option jsstring) (file : File)
           (now : Z) (randomText : jsstring) (randomInt : Z)
  : Callback jsstring :=
  match patientId with
  | Some (c :: s) =>
      Done (filename (generateFilePath zone (u16 "ecg") (c :: s)
                                       (originalname file) now randomText))
  | _ =>
      let uniqueSuffix := intToString now ++ u16 "-" ++ intToString randomInt in
      let ext := extname (originalname file) in
      Done (u16 "ecg-temp-" ++ uniqueSuffix ++ ext)
  end.

End UploadRoutes.

(* ================================================================== *)
(** * Properties *)
(* ================================================================== *)

Import JsString JsRegExp JsDate MedicationService DurationParser.
Import MedicationAggregator InteractionChecker.
Import NodePath FileUploadManager PathNamer.

(** ** Date arithmetic *)

Section DateFacts.

Variable zone : timezone.

Lemma MonthFromTime_range (t : Z) : 0 <= MonthFromTime t <= 11.
Proof.
  unfold MonthFromTime.
  repeat match goal with
         | |- context [if ?c then _ else _] => destruct c
         end; lia.
Qed.

(** The day number of a time is rebuilt from its year, month and date. *)
Lemma MakeDay_of_fields (t n : Z) :
  MakeDay (YearFromTime t) (MonthFromTime t) (DateFromTime t + n) = Day t + n.
Proof.
  pose proof (MonthFromTime_range t) as Hm.
  unfold MakeDay.
  rewrite (Z.div_small (MonthFromTime t) 12) by lia.
  rewrite (Z.mod_small (MonthFromTime t) 12) by lia.
  rewrite Z.add_0_r.
  unfold DateFromTime, DayWithinYear, InLeapYear. lia.
Qed.

Lemma MakeDate_Day_TimeWithinDay (t n : Z) :
  MakeDate (Day t + n) (TimeWithinDay t) = t + n * msPerDay.
Proof.
  unfold MakeDate, Day, TimeWithinDay.
  pose proof (Z.div_mod t msPerDay) as H.
  assert (msPerDay <> 0) as Hne by (unfold msPerDay; lia).
  specialize (H Hne). lia.
Qed.

(** [d.setDate(d.getDate() + n)] moves the local time of a date by [n]
    whole days; the new time value is the UTC time of that local time. *)
Lemma setDate_add_days (t n : Z) :
  setDate zone (Some t) (numAdd (getDate zone (Some t)) (Some n))
  = TimeClip (UTC zone (LocalTime zone t + n * msPerDay)).
Proof.
  unfold setDate, getDate, numAdd, option_map.
  rewrite MakeDay_of_fields, MakeDate_Day_TimeWithinDay. reflexivity.
Qed.

(** Without a clock change in between, a span of local time is the same
    span of time. *)
Lemma UTC_sameOffset (t span : Z) :
  sameOffsetAfter zone t span -> UTC zone (LocalTime zone t + span) = t + span.
Proof.
  unfold sameOffsetAfter, UTC. intros ->. unfold LocalTime. lia.
Qed.

Lemma sameOffsetAfter_fixed (tza t span : Z) :
  sameOffsetAfter (fixedOffset tza) t span.
Proof. reflexivity. Qed.

Lemma TimeClip_valid (t : Z) : validTime t -> TimeClip t = Some t.
Proof.
  unfold validTime, TimeClip. intros H.
  destruct (Z.leb_spec (Z.abs t) maxTime); [reflexivity | lia].
Qed.

Lemma newDate_valid (t : Z) : validTime t -> newDate (Some t) = Some t.
Proof. apply TimeClip_valid. Qed.

Lemma numLe_TimeClip_false (now t : Z) :
  t < now -> numLe (Some now) (TimeClip t) = false.
Proof.
  intros H. unfold TimeClip, numLe.
  destruct (Z.abs t <=? maxTime); [apply Z.leb_gt; lia | reflexivity].
Qed.

End DateFacts.

(** ** The fallback window as an integer comparison *)

Lemma ratLe_daysSince (now p n : Z) :
  ratLe (daysSince now (Some p)) n = (now - p <=? n * msPerDay).
Proof.
  unfold ratLe, daysSince.
  apply eq_true_iff_eq.
  rewrite Qle_bool_iff, Z.leb_le.
  change (1000 * 60 * 60 * 24) with 86400000.
  unfold Qle, Qdiv, Qmult, Qinv, inject_Z, msPerDay; simpl.
  lia.
Qed.

(** ** The two evaluators, read through the parsed duration *)

Section Evaluators.

Variable zone : timezone.
Variable toLowerCase : jsstring -> jsstring.
Variable now : Z.

(** filterActiveMedications keeps a record exactly as the parsed
    duration says, with the 90-day window for an unknown duration. *)
Lemma activeByDuration_parse (m : MedicationRecord) :
  activeByDuration zone toLowerCase now m =
  match parseDuration toLowerCase (duration (med m)) with
  | Continuous => true
  | Days n => numLe (Some now) (endAfterDays zone (recVisitDate m) n)
  | Weeks n => numLe (Some now) (endAfterDays zone (recVisitDate m) (n * 7))
  | Months n => numLe (Some now) (endAfterMonths zone (recVisitDate m) n)
  | Unknown => ratLe (daysSince now (newDate (recVisitDate m))) 90
  end.
Proof.
  unfold activeByDuration, parseDuration, endAfterDays, endAfterMonths.
  destruct (duration (med m)) as [[|c s]|]; try reflexivity.
  cbn [truthy andb durationMatch].
  destruct (includes (c :: s) kw_mustamirr
            || includes (toLowerCase (c :: s)) kw_continuous
            || includes (toLowerCase (c :: s)) kw_ongoing); [reflexivity|].
  destruct (matchNumber daysRe (c :: s)); [reflexivity|].
  destruct (matchNumber weeksRe (c :: s)); [reflexivity|].
  destruct (matchNumber monthsRe (c :: s)); reflexivity.
Qed.

(** isMedicationActive agrees with the parsed duration on [Days] and
    on [Unknown], with the 30-day window. *)
Lemma isMedicationActive_Days (p : Prescription) (visitDate : date) (n : Z) :
  parseDuration toLowerCase (duration p) = Days n ->
  isMedicationActive zone toLowerCase now p visitDate
  = numLe (Some now) (endAfterDays zone visitDate n).
Proof.
  unfold isMedicationActive, parseDuration, endAfterDays.
  destruct (duration p) as [[|c s]|]; try discriminate.
  cbn [truthy andb durationMatch].
  destruct (includes (c :: s) kw_mustamirr); [discriminate|].
  destruct (includes (toLowerCase (c :: s)) kw_continuous); [discriminate|].
  destruct (includes (toLowerCase (c :: s)) kw_ongoing); [discriminate|].
  cbn [orb].
  destruct (matchNumber daysRe (c :: s)) as [k|].
  - intros H. injection H as ->. reflexivity.
  - destruct (matchNumber weeksRe (c :: s)); [discriminate|].
    destruct (matchNumber monthsRe (c :: s)); discriminate.
Qed.

Lemma isMedicationActive_Unknown (p : Prescription) (visitDate : date) :
  parseDuration toLowerCase (duration p) = Unknown ->
  isMedicationActive zone toLowerCase now p visitDate
  = ratLe (daysSince now (newDate visitDate)) 30.
Proof.
  unfold isMedicationActive, parseDuration.
  destruct (duration p) as [[|c s]|]; try reflexivity.
  cbn [truthy andb durationMatch].
  destruct (includes (c :: s) kw_mustamirr); [discriminate|].
  destruct (includes (toLowerCase (c :: s)) kw_continuous); [discriminate|].
  destruct (includes (toLowerCase (c :: s)) kw_ongoing); [discriminate|].
  cbn [orb].
  destruct (matchNumber daysRe (c :: s)); [discriminate|]. reflexivity.
Qed.

(** The end date for a day count: the visit's local time moved by whole
    days, read back as a time value. *)
Lemma endAfterDays_local (t n : Z) :
  validTime t ->
  endAfterDays zone (Some t) n
  = TimeClip (UTC zone (LocalTime zone t + n * msPerDay)).
Proof.
  intros Ht. unfold endAfterDays.
  rewrite !newDate_valid by assumption.
  apply setDate_add_days.
Qed.

Lemma endAfterDays_valid (t n : Z) :
  validTime t ->
  sameOffsetAfter zone t (n * msPerDay) ->
  endAfterDays zone (Some t) n = TimeClip (t + n * msPerDay).
Proof.
  intros Ht Hsame.
  rewrite endAfterDays_local, UTC_sameOffset by assumption. reflexivity.
Qed.

End Evaluators.

(** C5, as the code has it.  For a duration parsed as [Days n] and a
    visit with no clock change between it and the local time [n] days
    later (the host's offset from UTC is the same at both ends, as it
    always is on a host of fixed offset), both evaluators are inclusive at
    the boundary: a prescription is active when now is the origination
    plus exactly [n] days, and inactive one second later. *)
Theorem days_boundary_inclusive
        (zone : timezone) (toLowerCase : jsstring -> jsstring)
        (m : MedicationRecord) (origination n : Z) :
  parseDuration toLowerCase (duration (med m)) = Days n ->
  recVisitDate m = Some origination ->
  validTime origination ->
  validTime (origination + n * msPerDay) ->
  sameOffsetAfter zone origination (n * msPerDay) ->
  let atBoundary := origination + n * msPerDay in
  let oneSecondLater := origination + n * msPerDay + 1000 in
  activeByDuration zone toLowerCase atBoundary m = true /\
  activeByDuration zone toLowerCase oneSecondLater m = false /\
  isMedicationActive zone toLowerCase atBoundary (med m) (Some origination)
  = true /\
  isMedicationActive zone toLowerCase oneSecondLater (med m) (Some origination)
  = false.
Proof.
  intros Hparse Hdate Horig Hend Hsame atBoundary oneSecondLater.
  rewrite !activeByDuration_parse, Hparse, Hdate.
  rewrite !(isMedicationActive_Days _ _ _ _ _ n Hparse).
  rewrite !endAfterDays_valid by assumption.
  repeat split.
  - rewrite TimeClip_valid by assumption. apply Z.leb_refl.
  - apply numLe_TimeClip_false. unfold oneSecondLater. lia.
  - rewrite TimeClip_valid by assumption. apply Z.leb_refl.
  - apply numLe_TimeClip_false. unfold oneSecondLater. lia.
Qed.

Lemma days_boundary_inclusive_witness :
  let m := recordWith (Some (u16 "5 days")) 1706702400000 in
  activeByDuration springForward2022 asciiToLowerCase 1707134400000 m
  = true /\
  activeByDuration springForward2022 asciiToLowerCase 1707134401000 m
  = false /\
  isMedicationActive springForward2022 asciiToLowerCase 1707134400000 (med m)
                     (Some 1706702400000) = true /\
  isMedicationActive springForward2022 asciiToLowerCase 1707134401000 (med m)
                     (Some 1706702400000) = false.
Proof.
  apply (days_boundary_inclusive springForward2022 asciiToLowerCase
           (recordWith (Some (u16 "5 days")) 1706702400000)
           1706702400000 5).
  - reflexivity.
  - reflexivity.
  - unfold validTime, maxTime. simpl. lia.
  - unfold validTime, maxTime, msPerDay. simpl. lia.
  - reflexivity.
Defined.

(** C5 as stated fails where the clocks change within the [n] days.  A
    visit on 23 March 2022 at noon in a zone that went from UTC+2 to UTC+3
    two days later: setDate moves the local time to 28 March noon, which is
    five days less one hour after the visit, so exactly five days after
    the visit both evaluators already answer false. *)
Lemma days_boundary_counterexample :
  let origination := 1648029600000 in
  let m := recordWith (Some (u16 "5 days")) origination in
  parseDuration asciiToLowerCase (duration (med m)) = Days 5 /\
  endAfterDays springForward2022 (Some origination) 5
  = Some (origination + 5 * msPerDay - msPerHour) /\
  activeByDuration springForward2022 asciiToLowerCase
                   (origination + 5 * msPerDay) m = false /\
  isMedicationActive springForward2022 asciiToLowerCase
                     (origination + 5 * msPerDay) (med m) (Some origination)
  = false.
Proof. repeat split; vm_compute; reflexivity. Qed.

(** C4. A duration that is null, empty or matches no pattern is parsed as
    [Unknown], and such a prescription is active exactly while the time
    since origination is at most the fallback window: 90 days in
    filterActiveMedications (getCurrentMedications), 30 days in
    isMedicationActive (getMedicationHistory).  So it is active at +89 and
    inactive at +91 days in the first, active at +29 and inactive at +31
    days in the second. *)
Theorem unknown_fallback_windows
        (zone : timezone) (toLowerCase : jsstring -> jsstring)
        (m : MedicationRecord) (origination : Z) :
  parseDuration toLowerCase (duration (med m)) = Unknown ->
  recVisitDate m = Some origination ->
  validTime origination ->
  parseDuration toLowerCase None = Unknown /\
  parseDuration toLowerCase (Some []) = Unknown /\
  (forall now,
      activeByDuration zone toLowerCase now m = true
      <-> now - origination <= 90 * msPerDay) /\
  (forall now,
      isMedicationActive zone toLowerCase now (med m) (Some origination) = true
      <-> now - origination <= 30 * msPerDay) /\
  activeByDuration zone toLowerCase (origination + 89 * msPerDay) m = true /\
  activeByDuration zone toLowerCase (origination + 91 * msPerDay) m = false /\
  isMedicationActive zone toLowerCase (origination + 29 * msPerDay) (med m)
                     (Some origination) = true /\
  isMedicationActive zone toLowerCase (origination + 31 * msPerDay) (med m)
                     (Some origination) = false.
Proof.
  intros Hparse Hdate Hvalid.
  assert (Hcur : forall now,
             activeByDuration zone toLowerCase now m
             = (now - origination <=? 90 * msPerDay)).
  { intros now. rewrite activeByDuration_parse, Hparse, Hdate.
    rewrite newDate_valid by assumption. apply ratLe_daysSince. }
  assert (Hhis : forall now,
             isMedicationActive zone toLowerCase now (med m) (Some origination)
             = (now - origination <=? 30 * msPerDay)).
  { intros now. rewrite (isMedicationActive_Unknown _ _ _ _ _ Hparse).
    rewrite newDate_valid by assumption. apply ratLe_daysSince. }
  split; [reflexivity|]. split; [reflexivity|].
  split; [intros now; rewrite Hcur; apply Z.leb_le|].
  split; [intros now; rewrite Hhis; apply Z.leb_le|].
  rewrite !Hcur, !Hhis. unfold msPerDay.
  repeat split; first [apply Z.leb_le; lia | apply Z.leb_gt; lia].
Qed.

Lemma unknown_fallback_windows_witness :
  let m := recordWith (Some (u16 "as needed")) 1706702400000 in
  parseDuration asciiToLowerCase None = Unknown /\
  parseDuration asciiToLowerCase (Some []) = Unknown /\
  (forall now,
      activeByDuration zoneUTC asciiToLowerCase now m = true
      <-> now - 1706702400000 <= 90 * msPerDay) /\
  (forall now,
      isMedicationActive zoneUTC asciiToLowerCase now (med m) (Some 1706702400000)
      = true
      <-> now - 1706702400000 <= 30 * msPerDay) /\
  activeByDuration zoneUTC asciiToLowerCase (1706702400000 + 89 * msPerDay) m
  = true /\
  activeByDuration zoneUTC asciiToLowerCase (1706702400000 + 91 * msPerDay) m
  = false /\
  isMedicationActive zoneUTC asciiToLowerCase (1706702400000 + 29 * msPerDay) (med m)
                     (Some 1706702400000) = true /\
  isMedicationActive zoneUTC asciiToLowerCase (1706702400000 + 31 * msPerDay) (med m)
                     (Some 1706702400000) = false.
Proof.
  apply (unknown_fallback_windows zoneUTC asciiToLowerCase
           (recordWith (Some (u16 "as needed")) 1706702400000)
           1706702400000).
  - reflexivity.
  - reflexivity.
  - unfold validTime, maxTime. simpl. lia.
Defined.

(** ** Keywords in any letter case *)

Lemma startsWith_app (w b : jsstring) : startsWith (w ++ b) w = true.
Proof.
  induction w as [|c w IH]; [destruct b; reflexivity|].
  simpl. rewrite Z.eqb_refl. exact IH.
Qed.

Lemma includes_app (a w b : jsstring) : includes (a ++ w ++ b) w = true.
Proof.
  induction a as [|c a IH].
  - pose proof (startsWith_app w b) as H. cbn [app].
    destruct (w ++ b); cbn [includes]; rewrite H; reflexivity.
  - cbn [app includes]. rewrite IH. apply orb_true_r.
Qed.

Lemma lowered_letters (v : jsstring) :
  forallb (fun c => (97 <=? c) && (c <=? 122)) (asciiToLowerCase v) = true ->
  forallb isLatinLetter v = true.
Proof.
  induction v as [|c v IH]; [reflexivity|].
  simpl. rewrite !andb_true_iff. intros [[H1 H2] Hv].
  split; [|apply IH; exact Hv].
  unfold isLatinLetter, asciiLowerUnit in *.
  destruct ((65 <=? c) && (c <=? 90)) eqn:E; [reflexivity|].
  simpl. rewrite H1, H2. reflexivity.
Qed.

Lemma includes_lowered (toLowerCase : jsstring -> jsstring) (s w : jsstring) :
  lowersLatin toLowerCase ->
  forallb (fun c => (97 <=? c) && (c <=? 122)) w = true ->
  containsAnyCase s w ->
  includes (toLowerCase s) w = true.
Proof.
  intros Hlow Hw (a & v & b & -> & Hv).
  destruct (Hlow a v b) as (a' & b' & ->).
  - apply lowered_letters. rewrite Hv. exact Hw.
  - rewrite Hv. apply includes_app.
Qed.

(** The current-medications path does treat all three keywords as
    continuous, the Latin ones in any letter case. *)
Lemma current_path_continuous
      (zone : timezone) (toLowerCase : jsstring -> jsstring) (now : Z)
      (m : MedicationRecord) (s : jsstring) :
  lowersLatin toLowerCase ->
  duration (med m) = Some s ->
  (exists a b, s = a ++ kw_mustamirr ++ b) \/
  containsAnyCase s kw_continuous \/ containsAnyCase s kw_ongoing ->
  activeByDuration zone toLowerCase now m = true.
Proof.
  intros Hlow Hd Hkw.
  assert (Hne : truthy (Some s) = true).
  { destruct s as [|c s]; [|reflexivity]. exfalso.
    destruct Hkw as [(a & b & E) | [(a & v & b & E & Hv) | (a & v & b & E & Hv)]];
      destruct a; try discriminate; destruct v; discriminate. }
  unfold activeByDuration. rewrite Hd, Hne. cbn [andb].
  destruct Hkw as [(a & b & ->) | [H | H]].
  - rewrite includes_app. reflexivity.
  - rewrite (includes_lowered toLowerCase s kw_continuous Hlow eq_refl H).
    rewrite orb_true_r. reflexivity.
  - rewrite (includes_lowered toLowerCase s kw_ongoing Hlow eq_refl H).
    rewrite !orb_true_r. reflexivity.
Qed.

Lemma asciiToLowerCase_lowersLatin : lowersLatin asciiToLowerCase.
Proof.
  intros a v b _. exists (asciiToLowerCase a), (asciiToLowerCase b).
  unfold asciiToLowerCase. rewrite !map_app. reflexivity.
Qed.

Lemma current_path_continuous_example (zone : timezone) (now : Z) (visitDate : date) :
  activeByDuration zone asciiToLowerCase now
    {| med := {| medicationName := u16 "Insulin"; dosage := u16 "10u";
                 duration := Some (u16 "Daily, OnGoing"); notes := None |};
       visitId := 7; recVisitDate := visitDate;
       doctorName := doctorUnspecified; doctorSpecialization := None;
       isActive := None |} = true.
Proof.
  apply (current_path_continuous zone asciiToLowerCase now _
           (u16 "Daily, OnGoing") asciiToLowerCase_lowersLatin);
    [reflexivity|].
  right. right. exists (u16 "Daily, "), (u16 "OnGoing"), [].
  split; reflexivity.
Qed.

(** C1. The specification treats "ongoing" as a continuous duration on both
    paths.  isMedicationActive (getMedicationHistory) tests only for the
    Arabic keyword and "continuous": a prescription whose duration is
    "ongoing" is kept by filterActiveMedications at any time, yet is
    stamped inactive by the history 31 days after the visit. *)
Theorem history_misses_ongoing
        (zone : timezone) (toLowerCase : jsstring -> jsstring) (origination : Z) :
  toLowerCase kw_ongoing = kw_ongoing ->
  validTime origination ->
  let m := recordWith (Some kw_ongoing) origination in
  let now := origination + 31 * msPerDay in
  parseDuration toLowerCase (Some kw_ongoing) = Continuous /\
  activeByDuration zone toLowerCase now m = true /\
  isMedicationActive zone toLowerCase now (med m) (Some origination) = false.
Proof.
  intros Hlow Hvalid m now.
  assert (Hparse : parseDuration toLowerCase (Some kw_ongoing) = Continuous).
  { unfold parseDuration, kw_ongoing in *. simpl u16 in *.
    rewrite Hlow. reflexivity. }
  split; [exact Hparse|]. split.
  - rewrite activeByDuration_parse. unfold m, recordWith.
    cbn [med duration]. rewrite Hparse. reflexivity.
  - unfold isMedicationActive, m. simpl duration.
    unfold kw_ongoing in *. simpl u16 in *. cbn [truthy andb].
    rewrite Hlow.
    replace (includes _ kw_mustamirr || includes _ kw_continuous)
      with false by reflexivity.
    replace (durationMatch daysRe _) with (@None Z) by reflexivity.
    rewrite newDate_valid by assumption.
    rewrite ratLe_daysSince. apply Z.leb_gt. unfold now, msPerDay. lia.
Qed.

Lemma history_misses_ongoing_witness :
  let m := recordWith (Some kw_ongoing) jan31noon in
  let now := jan31noon + 31 * msPerDay in
  parseDuration asciiToLowerCase (Some kw_ongoing) = Continuous /\
  activeByDuration zoneUTC asciiToLowerCase now m = true /\
  isMedicationActive zoneUTC asciiToLowerCase now (med m) (Some jan31noon) = false.
Proof.
  apply (history_misses_ongoing zoneUTC asciiToLowerCase jan31noon).
  - reflexivity.
  - unfold validTime, maxTime, jan31noon. simpl. lia.
Defined.

(** ** Weeks and months *)

(** The singular of the pattern is parsed as weeks and expires at seven
    days a week, inclusive, where no clock change falls within them. *)
Lemma singular_weeks_parsed
      (zone : timezone) (toLowerCase : jsstring -> jsstring) (origination : Z) :
  toLowerCase text_3_usbu = text_3_usbu ->
  validTime origination ->
  validTime (origination + 21 * msPerDay) ->
  sameOffsetAfter zone origination (21 * msPerDay) ->
  let m := recordWith (Some text_3_usbu) origination in
  parseDuration toLowerCase (Some text_3_usbu) = Weeks 3 /\
  activeByDuration zone toLowerCase (origination + 20 * msPerDay) m = true /\
  activeByDuration zone toLowerCase (origination + 21 * msPerDay) m = true /\
  activeByDuration zone toLowerCase (origination + 22 * msPerDay) m = false.
Proof.
  intros Hlow Hvalid Hend Hsame m.
  assert (Hparse : parseDuration toLowerCase (Some text_3_usbu) = Weeks 3).
  { unfold parseDuration, text_3_usbu, unit_usbu in *. cbn [app] in *.
    rewrite Hlow. reflexivity. }
  split; [exact Hparse|].
  rewrite !activeByDuration_parse. unfold m, recordWith.
  cbn [med duration recVisitDate]. rewrite Hparse.
  rewrite endAfterDays_valid by assumption.
  change (3 * 7 * msPerDay) with (21 * msPerDay).
  rewrite TimeClip_valid by assumption.
  unfold numLe, msPerDay. repeat split.
  - apply Z.leb_le. lia.
  - apply Z.leb_le. lia.
  - apply Z.leb_gt. lia.
Qed.

(** C2. The text "3 أسابيع" of the specification's example carries the
    plural of the Arabic word for week, which the pattern
    [/(\d+)\s*(أسبوع|week)/i] does not contain: no pattern matches, the
    duration falls to the 90-day default, and the prescription is still
    active 22 days after origination. *)
Theorem arabic_plural_weeks_unparsed
        (zone : timezone) (toLowerCase : jsstring -> jsstring) (origination : Z) :
  toLowerCase text_3_asabi = text_3_asabi ->
  validTime origination ->
  let m := recordWith (Some text_3_asabi) origination in
  matchNumber weeksRe text_3_asabi = None /\
  parseDuration toLowerCase (Some text_3_asabi) = Unknown /\
  activeByDuration zone toLowerCase (origination + 20 * msPerDay) m = true /\
  activeByDuration zone toLowerCase (origination + 22 * msPerDay) m = true.
Proof.
  intros Hlow Hvalid m.
  assert (Hparse : parseDuration toLowerCase (Some text_3_asabi) = Unknown).
  { unfold parseDuration, text_3_asabi in *. rewrite Hlow. reflexivity. }
  split; [reflexivity|]. split; [exact Hparse|].
  rewrite !activeByDuration_parse. unfold m, recordWith.
  cbn [med duration recVisitDate]. rewrite Hparse.
  rewrite newDate_valid by assumption.
  rewrite !ratLe_daysSince. unfold msPerDay.
  split; apply Z.leb_le; lia.
Qed.

Lemma arabic_plural_weeks_unparsed_witness :
  let m := recordWith (Some text_3_asabi) jan31noon in
  matchNumber weeksRe text_3_asabi = None /\
  parseDuration asciiToLowerCase (Some text_3_asabi) = Unknown /\
  activeByDuration zoneUTC asciiToLowerCase (jan31noon + 20 * msPerDay) m = true /\
  activeByDuration zoneUTC asciiToLowerCase (jan31noon + 22 * msPerDay) m = true.
Proof.
  apply (arabic_plural_weeks_unparsed zoneUTC asciiToLowerCase jan31noon).
  - reflexivity.
  - unfold validTime, maxTime, jan31noon. simpl. lia.
Defined.

Section Months.

(** A host of fixed offset [tza]. *)
Variable tza : Z.

(** [d.setMonth(d.getMonth() + k)] on the date whose local time is
    [L]. *)
Lemma setMonth_local (L k : Z) :
  setMonth (fixedOffset tza) (Some (L - tza))
           (numAdd (getMonth (fixedOffset tza) (Some (L - tza))) (Some k))
  = TimeClip (MakeDate (MakeDay (YearFromTime L) (MonthFromTime L + k)
                                (DateFromTime L))
                       (TimeWithinDay L) - tza).
Proof.
  unfold setMonth, getMonth, numAdd, option_map, LocalTime, UTC, fixedOffset.
  replace (L - tza + tza) with L by lia. reflexivity.
Qed.

Hypothesis tza_range : Z.abs tza <= msPerDay.

Lemma local_valid (L : Z) :
  Z.abs L <= maxTime - msPerDay -> validTime (L - tza).
Proof. unfold validTime, maxTime, msPerDay in *. lia. Qed.

(** Two calendar months after 31 January 2024 noon is 31 March 2024
    noon, not sixty days later (which is 31 March only in a leap
    year), and one month after it is 2 March. *)
Lemma jan31_plus_months :
  endAfterMonths (fixedOffset tza) (Some (jan31noon - tza)) 2
  = Some (mar31noon - tza) /\
  endAfterMonths (fixedOffset tza) (Some (jan31noon - tza)) 1
  = Some (jan31noon + 31 * msPerDay - tza).
Proof.
  unfold endAfterMonths.
  rewrite !newDate_valid
    by (apply local_valid; unfold jan31noon, maxTime, msPerDay; simpl; lia).
  rewrite !setMonth_local.
  split.
  - replace (MakeDate _ _) with mar31noon by (vm_compute; reflexivity).
    apply TimeClip_valid, local_valid.
    unfold mar31noon, maxTime, msPerDay; simpl; lia.
  - replace (MakeDate _ _) with (jan31noon + 31 * msPerDay)
      by (vm_compute; reflexivity).
    apply TimeClip_valid, local_valid.
    unfold jan31noon, maxTime, msPerDay; simpl; lia.
Qed.

End Months.

(** C3. A "2 months" prescription originated on 31 January (noon, local
    time) is kept by filterActiveMedications through 31 March noon, by
    calendar-month arithmetic.  isMedicationActive has no months pattern:
    the same prescription falls to its 30-day default and is stamped
    inactive on 31 March, and already 31 days after origination. *)
Theorem history_ignores_months
        (tza : Z) (toLowerCase : jsstring -> jsstring) :
  Z.abs tza <= msPerDay ->
  toLowerCase text_2_months = text_2_months ->
  let origination := jan31noon - tza in
  let zone := fixedOffset tza in
  let m := recordWith (Some text_2_months) origination in
  parseDuration toLowerCase (Some text_2_months) = Months 2 /\
  activeByDuration zone toLowerCase (mar31noon - tza) m = true /\
  activeByDuration zone toLowerCase (mar31noon - tza + 1000) m = false /\
  isMedicationActive zone toLowerCase (mar31noon - tza) (med m)
                     (Some origination) = false /\
  isMedicationActive zone toLowerCase (origination + 31 * msPerDay) (med m)
                     (Some origination) = false /\
  activeByDuration zone toLowerCase (origination + 31 * msPerDay) m = true.
Proof.
  intros Htz Hlow origination zone m.
  assert (Hparse : parseDuration toLowerCase (Some text_2_months) = Months 2).
  { unfold parseDuration, text_2_months in *. simpl u16 in *.
    rewrite Hlow. reflexivity. }
  assert (Hvalid : validTime origination).
  { apply local_valid; [exact Htz|].
    unfold jan31noon, maxTime, msPerDay; simpl; lia. }
  destruct (jan31_plus_months tza Htz) as [Hend _].
  assert (Hhist : forall now,
             isMedicationActive zone toLowerCase now (med m) (Some origination)
             = (now - origination <=? 30 * msPerDay)).
  { intros now. unfold isMedicationActive, m, recordWith. cbn [med duration].
    unfold text_2_months in *. simpl u16 in *. cbn [truthy andb].
    rewrite Hlow.
    replace (includes _ kw_mustamirr || includes _ kw_continuous)
      with false by reflexivity.
    replace (durationMatch daysRe _) with (@None Z) by reflexivity.
    rewrite newDate_valid by assumption.
    apply ratLe_daysSince. }
  split; [exact Hparse|].
  rewrite !activeByDuration_parse, !Hhist. unfold m, recordWith.
  cbn [med duration recVisitDate]. rewrite Hparse.
  unfold origination, zone. rewrite !Hend.
  unfold numLe, mar31noon, jan31noon, msPerDay.
  repeat split; first [apply Z.leb_le; lia | apply Z.leb_gt; lia].
Qed.

Lemma history_ignores_months_witness :
  let origination := jan31noon - 10800000 in
  let m := recordWith (Some text_2_months) origination in
  parseDuration asciiToLowerCase (Some text_2_months) = Months 2 /\
  activeByDuration zonePlus3 asciiToLowerCase (mar31noon - 10800000) m
  = true /\
  activeByDuration zonePlus3 asciiToLowerCase (mar31noon - 10800000 + 1000) m
  = false /\
  isMedicationActive zonePlus3 asciiToLowerCase (mar31noon - 10800000) (med m)
                     (Some origination) = false /\
  isMedicationActive zonePlus3 asciiToLowerCase (origination + 31 * msPerDay)
                     (med m) (Some origination) = false /\
  activeByDuration zonePlus3 asciiToLowerCase (origination + 31 * msPerDay) m
  = true.
Proof.
  apply (history_ignores_months 10800000 asciiToLowerCase).
  - unfold msPerDay. simpl. lia.
  - reflexivity.
Defined.

(** ** Order of the aggregated records *)

Lemma filter_flat_map {A B : Type} (f : B -> bool) (g : A -> list B)
      (l : list A) :
  filter f (flat_map g l) = flat_map (fun a => filter f (g a)) l.
Proof.
  induction l as [|a l IH]; [reflexivity|].
  simpl. rewrite filter_app, IH. reflexivity.
Qed.

Lemma filter_map_swap {A B : Type} (f : B -> bool) (h : A -> B) (l : list A) :
  filter f (map h l) = map h (filter (fun a => f (h a)) l).
Proof.
  induction l as [|a l IH]; [reflexivity|].
  simpl. destruct (f (h a)); simpl; rewrite IH; reflexivity.
Qed.

Lemma notOlder_refl (d : date) : notOlder d d.
Proof. destruct d; simpl; [lia | exact I]. Qed.

Lemma notOlder_trans (a b c : date) :
  notOlder a b -> notOlder b c -> notOlder a c.
Proof. destruct a, b, c; simpl; try tauto; lia. Qed.

(** Blocks of records that carry their visit's date, laid out in visit
    order, are in date order when the visits are. *)
Lemma blocks_sorted (g : Visit -> list MedicationRecord) (vs : list Visit) :
  (forall v r, In r (g v) -> recVisitDate r = visitDate v) ->
  StronglySorted notOlder (map visitDate vs) ->
  StronglySorted notOlder (map recVisitDate (flat_map g vs)).
Proof.
  intros Hg. induction vs as [|v vs IH]; intros Hs.
  - constructor.
  - simpl in *. inversion Hs as [|d ds Hrest Hall]; subst.
    specialize (IH Hrest). rewrite map_app.
    assert (Hlater : Forall (notOlder (visitDate v))
                            (map recVisitDate (flat_map g vs))).
    { rewrite Forall_forall in *. intros d Hin.
      apply in_map_iff in Hin. destruct Hin as (r & <- & Hr).
      apply in_flat_map in Hr. destruct Hr as (v' & Hv' & Hr).
      rewrite (Hg v' r Hr). apply Hall. apply in_map. exact Hv'. }
    assert (Hblock : forall r, In r (g v) -> recVisitDate r = visitDate v)
      by (intros r; apply Hg).
    induction (g v) as [|r rs IHr]; [exact IH|].
    simpl. constructor.
    + apply IHr. intros r' Hr'. apply Hblock. right. exact Hr'.
    + rewrite (Hblock r (or_introl eq_refl)).
      apply Forall_app. split; [|exact Hlater].
      rewrite Forall_forall. intros d Hin.
      apply in_map_iff in Hin. destruct Hin as (r' & <- & Hr').
      rewrite (Hblock r' (or_intror Hr')). apply notOlder_refl.
Qed.

(** C9. Both aggregators lay their records out visit by visit in the order
    of the visits they were given.  Each visit contributes the
    prescriptions of its own prescribedMedications sequence, in the order
    of that sequence: those the activity filter keeps in the current
    medications, those the name filter keeps in the history, and all of
    them when no name is asked for.  Every record carries the id and the
    date of its visit, so for visits sorted from newest to oldest the
    records are in most-recent-visit-first order. *)
Theorem aggregator_order
        (zone : timezone) (toLowerCase : jsstring -> jsstring) (now : Z)
        (filterName : option jsstring) (page limit matching : Z)
        (visits : list Visit) :
  Sorted notOlder (map visitDate visits) ->
  let current := flat_map (currentOfVisit zone toLowerCase now) visits in
  let past :=
    flat_map (historyOfVisit zone toLowerCase now filterName) visits in
  medications (getCurrentMedications zone toLowerCase now (Found visits))
  = Some current /\
  history (getMedicationHistory zone toLowerCase now filterName page limit
                                (Found visits) (Counted matching))
  = Some past /\
  map med current
  = flat_map
      (fun v =>
         filter (fun p => activeByDuration zone toLowerCase now
                            {| med := p; visitId := _id v;
                               recVisitDate := visitDate v;
                               doctorName := doctorNameOf v;
                               doctorSpecialization :=
                                 doctorSpecializationOf v;
                               isActive := None |})
                (prescribedOf v))
      visits /\
  map med past
  = flat_map (fun v => filter (nameSelected filterName) (prescribedOf v))
             visits /\
  (filterName = None -> map med past = flat_map prescribedOf visits) /\
  (forall v r,
      In r (currentOfVisit zone toLowerCase now v) \/
      In r (historyOfVisit zone toLowerCase now filterName v) ->
      visitId r = _id v /\ recVisitDate r = visitDate v) /\
  StronglySorted notOlder (map recVisitDate current) /\
  StronglySorted notOlder (map recVisitDate past).
Proof.
  intros Hsorted current past.
  assert (Hstrong : StronglySorted notOlder (map visitDate visits)).
  { apply Sorted_StronglySorted; [|exact Hsorted].
    intros a b c. apply notOlder_trans. }
  assert (Hblock : forall v r,
             In r (currentOfVisit zone toLowerCase now v) \/
             In r (historyOfVisit zone toLowerCase now filterName v) ->
             visitId r = _id v /\ recVisitDate r = visitDate v).
  { intros v r [Hr | Hr]; apply in_map_iff in Hr;
      destruct Hr as (p & <- & _); split; reflexivity. }
  assert (Hmed : map med past
                 = flat_map (fun v => filter (nameSelected filterName)
                                             (prescribedOf v)) visits).
  { unfold past. rewrite flat_map_concat_map, concat_map, map_map.
    rewrite <- flat_map_concat_map. apply flat_map_ext. intros v.
    unfold historyOfVisit. rewrite map_map. apply map_id. }
  split; [|split; [reflexivity|split; [|split; [exact Hmed|split;
             [|split; [exact Hblock|split]]]]]].
  - unfold getCurrentMedications. destruct visits as [|v vs]; [reflexivity|].
    cbn [List.length Nat.eqb medications]. f_equal.
    unfold filterActiveMedications, collectMedications, current.
    rewrite filter_flat_map. apply flat_map_ext. intros a.
    unfold currentOfVisit. apply filter_map_swap.
  - unfold current. rewrite flat_map_concat_map, concat_map, map_map.
    rewrite <- flat_map_concat_map. apply flat_map_ext. intros v.
    unfold currentOfVisit. rewrite map_map. apply map_id.
  - intros ->. rewrite Hmed. apply flat_map_ext. intros v.
    apply forallb_filter_id. apply forallb_forall. reflexivity.
  - apply blocks_sorted; [|exact Hstrong].
    intros v r Hr. apply (Hblock v r). left. exact Hr.
  - apply blocks_sorted; [|exact Hstrong].
    intros v r Hr. apply (Hblock v r). right. exact Hr.
Qed.

Lemma aggregator_order_witness :
  let visits :=
    [ {| _id := 2; visitDate := Some mar31noon; doctorId := None;
         prescribedMedications :=
           Some [continuousRx "Metformin"; continuousRx "Aspirin"] |};
      visitWith ["Insulin"]%string ] in
  exists current past,
    medications (getCurrentMedications zoneUTC asciiToLowerCase
                                       mar31noon (Found visits))
    = Some current /\
    history (getMedicationHistory zoneUTC asciiToLowerCase mar31noon
                                  None 1 50 (Found visits) (Counted 2))
    = Some past /\
    map (fun r => medicationName (med r)) current
    = [u16 "Metformin"; u16 "Aspirin"; u16 "Insulin"] /\
    map (fun r => medicationName (med r)) past
    = [u16 "Metformin"; u16 "Aspirin"; u16 "Insulin"] /\
    map visitId current = [2; 2; 1] /\
    StronglySorted notOlder (map recVisitDate current) /\
    StronglySorted notOlder (map recVisitDate past).
Proof.
  intros visits.
  destruct (aggregator_order zoneUTC asciiToLowerCase mar31noon None
              1 50 2 visits)
    as (Hcurrent & Hpast & Hmc & Hmp & _ & _ & Hsc & Hsp).
  - repeat constructor; unfold mar31noon; simpl; lia.
  - do 2 eexists. split; [exact Hcurrent|]. split; [exact Hpast|].
    split; [rewrite <- (map_map med medicationName), Hmc; reflexivity|].
    split; [rewrite <- (map_map med medicationName), Hmp; reflexivity|].
    split; [reflexivity|]. split; [exact Hsc | exact Hsp].
Defined.

(** ** The interaction checker *)

Lemma eqb_eq (a b : jsstring) : JsString.eqb a b = true <-> a = b.
Proof.
  revert b. induction a as [|x a IH]; intros [|y b]; simpl;
    try (split; [discriminate | discriminate]); [tauto|].
  rewrite andb_true_iff, Z.eqb_eq, IH.
  split; [intros [-> ->]; reflexivity | intros E; injection E; auto].
Qed.

Lemma eqb_refl (a : jsstring) : JsString.eqb a a = true.
Proof. apply eqb_eq. reflexivity. Qed.

(** [indexOf] finds the first position holding the string. *)
Lemma indexOf_first (l : list jsstring) (s : jsstring) (k : nat) :
  nth_error l k = Some s ->
  exists j, indexOf l s = Z.of_nat j /\ (j <= k)%nat /\
            nth_error l j = Some s /\
            forall j', (j' < j)%nat -> nth_error l j' <> Some s.
Proof.
  revert k. induction l as [|a l IH]; intros k Hk.
  - destruct k; discriminate.
  - simpl. destruct (JsString.eqb a s) eqn:E.
    + apply eqb_eq in E. subst a. exists O.
      repeat split; [lia | intros j' Hj'; lia].
    + destruct k as [|k].
      * simpl in Hk. injection Hk as ->. rewrite eqb_refl in E. discriminate.
      * simpl in Hk. destruct (IH k Hk) as (j & Hj & Hle & Hnth & Hmin).
        exists (S j). rewrite Hj.
        destruct (Z.ltb_spec (Z.of_nat j) 0); [lia|].
        repeat split; [lia | lia | exact Hnth |].
        intros [|j'] Hj'; simpl.
        -- intros Ha. injection Ha as ->. rewrite eqb_refl in E. discriminate.
        -- apply Hmin. lia.
Qed.

(** The filter callback keeps exactly the positions that are not the
    first of their string. *)
Lemma In_duplicatesFrom (all rest : list jsstring) (i : Z) (s : jsstring) :
  In s (duplicatesFrom all i rest) <->
  exists k, nth_error rest k = Some s /\ indexOf all s <> i + Z.of_nat k.
Proof.
  revert i. induction rest as [|x rest IH]; intros i.
  - simpl. split; [tauto | intros ([|k] & Hk & _); discriminate].
  - cbn [duplicatesFrom].
    destruct (Z.eqb_spec (indexOf all x) i) as [E|E]; cbn [negb].
    + rewrite IH. split.
      * intros (k & Hk & Hne). exists (S k). split; [exact Hk | lia].
      * intros ([|k] & Hk & Hne).
        -- simpl in Hk. injection Hk as ->. exfalso. apply Hne. lia.
        -- exists k. split; [exact Hk | lia].
    + simpl. rewrite IH. split.
      * intros [-> | (k & Hk & Hne)].
        -- exists O. split; [reflexivity | lia].
        -- exists (S k). split; [exact Hk | lia].
      * intros ([|k] & Hk & Hne).
        -- simpl in Hk. injection Hk as ->. left. reflexivity.
        -- right. exists k. split; [exact Hk | lia].
Qed.

Lemma duplicates_repeated (names : list jsstring) (s : jsstring) :
  In s (duplicatesFrom names 0 names) <-> repeated names s.
Proof.
  rewrite In_duplicatesFrom. split.
  - intros (k & Hk & Hne).
    destruct (indexOf_first names s k Hk) as (j & Hj & Hle & Hnth & _).
    exists j, k. repeat split; [lia | exact Hnth | exact Hk].
  - intros (i & j & Hlt & Hi & Hj). exists j. split; [exact Hj|].
    destruct (indexOf_first names s i Hi) as (j0 & Hj0 & Hle & _).
    lia.
Qed.

Lemma current_medications_success
      (zone : timezone) (toLowerCase : jsstring -> jsstring) (now : Z)
      (q : QueryOutcome) (meds : list MedicationRecord) :
  medications (getCurrentMedications zone toLowerCase now q) = Some meds ->
  cSuccess (getCurrentMedications zone toLowerCase now q) = true.
Proof.
  destruct q as [vs|]; simpl; [|discriminate].
  destruct (List.length vs =? 0)%nat; reflexivity.
Qed.

(** The warnings computed from a successful, non-failed lookup. *)
Lemma warnings_of_medications
      (zone : timezone) (toLowerCase : jsstring -> jsstring) (now : Z)
      (q : QueryOutcome) (meds : list MedicationRecord) :
  medications (getCurrentMedications zone toLowerCase now q) = Some meds ->
  let names := map (fun m => toLowerCase (medicationName (med m))) meds in
  warnings (checkMedicationInteractions zone toLowerCase now q)
  = Some (match meds with
          | [] => []
          | _ :: _ =>
              duplicateWarning (duplicatesFrom names 0 names) ++
              polypharmacyWarning (List.length meds)
          end).
Proof.
  intros H names. unfold checkMedicationInteractions.
  rewrite (current_medications_success _ _ _ _ _ H), H. cbn [negb].
  destruct meds; reflexivity.
Qed.

Lemma no_polypharmacy_in_duplicate (d : list jsstring) :
  filter isPolypharmacy (duplicateWarning d) = [].
Proof. unfold duplicateWarning. destruct (0 <? _)%nat; reflexivity. Qed.

Lemma no_duplicate_in_polypharmacy (n : nat) :
  filter isDuplicate (polypharmacyWarning n) = [].
Proof. unfold polypharmacyWarning. destruct (5 <=? n)%nat; reflexivity. Qed.

(** C6. Among the active medications, with names compared after
    [toLowerCase]: when some name stands at two positions the checker emits
    exactly one DUPLICATE warning, of severity medium, whose list holds
    exactly the names that are repeated; when no name is repeated it emits
    none. *)
Theorem duplicate_rule
        (zone : timezone) (toLowerCase : jsstring -> jsstring) (now : Z)
        (q : QueryOutcome) (meds : list MedicationRecord) :
  medications (getCurrentMedications zone toLowerCase now q) = Some meds ->
  let names := map (fun m => toLowerCase (medicationName (med m))) meds in
  exists ws,
    warnings (checkMedicationInteractions zone toLowerCase now q) = Some ws /\
    ((exists s, repeated names s) ->
     exists dups,
       filter isDuplicate ws =
       [ {| wtype := DUPLICATE; severity := medium; wmessage := msgDuplicate;
            wmedications := Some dups; wcount := None |} ] /\
       forall s, In s dups <-> repeated names s) /\
    (~ (exists s, repeated names s) -> filter isDuplicate ws = []).
Proof.
  intros H names.
  rewrite (warnings_of_medications _ _ _ _ _ H). fold names.
  eexists. split; [reflexivity|].
  destruct meds as [|m0 meds'].
  - split; [|reflexivity].
    intros (s & i & j & _ & Hi & _). destruct i; discriminate.
  - set (dups := duplicatesFrom names 0 names).
    assert (Hiff : forall s, In s dups <-> repeated names s)
      by (intros s; apply duplicates_repeated).
    clearbody dups.
    rewrite filter_app, no_duplicate_in_polypharmacy, app_nil_r.
    unfold duplicateWarning. split.
    + intros (s & Hs). exists dups. apply Hiff in Hs.
      destruct dups as [|d ds]; [destruct Hs|].
      split; [reflexivity | exact Hiff].
    + intros Hnone. destruct dups as [|d ds]; [reflexivity|].
      exfalso. apply Hnone. exists d. apply Hiff. left. reflexivity.
Qed.

(** The set of the specification's example: the name differing only in
    case is reported once, in lower case; three distinct names give no
    warning. *)
Lemma aspirin_example (zone : timezone) (now : Z) :
  warnings (checkMedicationInteractions zone asciiToLowerCase now
              (Found [visitWith ["Aspirin"; "aspirin"; "Metformin"]%string]))
  = Some [ {| wtype := DUPLICATE; severity := medium;
              wmessage := msgDuplicate;
              wmedications := Some [u16 "aspirin"]; wcount := None |} ] /\
  warnings (checkMedicationInteractions zone asciiToLowerCase now
              (Found [visitWith ["Aspirin"; "Insulin"; "Metformin"]%string]))
  = Some [].
Proof. split; reflexivity. Qed.

Lemma duplicate_rule_witness :
  let q := Found [visitWith ["Aspirin"; "aspirin"; "Metformin"]%string] in
  let names := [u16 "aspirin"; u16 "aspirin"; u16 "metformin"] in
  exists ws,
    warnings (checkMedicationInteractions zoneUTC asciiToLowerCase 0 q) = Some ws /\
    ((exists s, repeated names s) ->
     exists dups,
       filter isDuplicate ws =
       [ {| wtype := DUPLICATE; severity := medium; wmessage := msgDuplicate;
            wmedications := Some dups; wcount := None |} ] /\
       forall s, In s dups <-> repeated names s) /\
    (~ (exists s, repeated names s) -> filter isDuplicate ws = []).
Proof.
  apply (duplicate_rule zoneUTC asciiToLowerCase 0
           (Found [visitWith ["Aspirin"; "aspirin"; "Metformin"]%string])
           (map (withVisit (visitWith ["Aspirin"; "aspirin"; "Metformin"]%string))
                (map continuousRx ["Aspirin"; "aspirin"; "Metformin"]%string))).
  reflexivity.
Defined.

(** C7. The checker emits exactly one POLYPHARMACY warning, of severity
    low, carrying the number of active medications in its count and in its
    message, when that number is at least 5, and none when it is below. *)
Theorem polypharmacy_rule
        (zone : timezone) (toLowerCase : jsstring -> jsstring) (now : Z)
        (q : QueryOutcome) (meds : list MedicationRecord) :
  medications (getCurrentMedications zone toLowerCase now q) = Some meds ->
  let n := List.length meds in
  exists ws,
    warnings (checkMedicationInteractions zone toLowerCase now q) = Some ws /\
    ((5 <= n)%nat ->
     filter isPolypharmacy ws =
     [ {| wtype := POLYPHARMACY; severity := low;
          wmessage := msgPolyBefore ++ natToString (Z.of_nat n) ++ msgPolyAfter;
          wmedications := None; wcount := Some n |} ]) /\
    ((n < 5)%nat -> filter isPolypharmacy ws = []) /\
    (List.length (filter isPolypharmacy ws) = 1%nat <-> (5 <= n)%nat).
Proof.
  intros H n.
  rewrite (warnings_of_medications _ _ _ _ _ H).
  eexists. split; [reflexivity|].
  assert (Hws : filter isPolypharmacy
                  match meds with
                  | [] => []
                  | _ :: _ =>
                      duplicateWarning
                        (duplicatesFrom
                           (map (fun m => toLowerCase (medicationName (med m)))
                                meds) 0
                           (map (fun m => toLowerCase (medicationName (med m)))
                                meds)) ++
                      polypharmacyWarning (List.length meds)
                  end
                = filter isPolypharmacy (polypharmacyWarning n)).
  { destruct meds; [reflexivity|].
    rewrite filter_app, no_polypharmacy_in_duplicate. reflexivity. }
  rewrite Hws. unfold polypharmacyWarning.
  destruct (Nat.leb_spec 5 n) as [Hge|Hlt]; cbn.
  - repeat split; intros; try reflexivity; lia.
  - repeat split; intros; try reflexivity; try lia; discriminate.
Qed.

(** Five distinct active medications give one warning with count 5 and
    the digit 5 in the message; four give none. *)
Lemma five_and_four_example (zone : timezone) (now : Z) :
  warnings (checkMedicationInteractions zone asciiToLowerCase now
              (Found [visitWith ["A"; "B"; "C"; "D"; "E"]%string]))
  = Some [ {| wtype := POLYPHARMACY; severity := low;
              wmessage := msgPolyBefore ++ u16 "5" ++ msgPolyAfter;
              wmedications := None; wcount := Some 5%nat |} ] /\
  warnings (checkMedicationInteractions zone asciiToLowerCase now
              (Found [visitWith ["A"; "B"; "C"; "D"]%string]))
  = Some [].
Proof. split; reflexivity. Qed.

Lemma polypharmacy_rule_witness :
  let q := Found [visitWith ["A"; "B"; "C"; "D"; "E"]%string] in
  exists ws,
    warnings (checkMedicationInteractions zoneUTC asciiToLowerCase 0 q) = Some ws /\
    ((5 <= 5)%nat ->
     filter isPolypharmacy ws =
     [ {| wtype := POLYPHARMACY; severity := low;
          wmessage := msgPolyBefore ++ natToString (Z.of_nat 5) ++ msgPolyAfter;
          wmedications := None; wcount := Some 5%nat |} ]) /\
    ((5 < 5)%nat -> filter isPolypharmacy ws = []) /\
    (List.length (filter isPolypharmacy ws) = 1%nat <-> (5 <= 5)%nat).
Proof.
  apply (polypharmacy_rule zoneUTC asciiToLowerCase 0
           (Found [visitWith ["A"; "B"; "C"; "D"; "E"]%string])
           (map (withVisit (visitWith ["A"; "B"; "C"; "D"; "E"]%string))
                (map continuousRx ["A"; "B"; "C"; "D"; "E"]%string))).
  reflexivity.
Defined.

(** C10. A failed lookup is not passed on: the checker answers a failure of
    getCurrentMedications with the same successful, empty report, without a
    medicationCount, that it gives when there is no active medication. *)
Theorem failure_reported_as_empty
        (zone : timezone) (toLowerCase : jsstring -> jsstring) (now : Z)
        (q : QueryOutcome) :
  cSuccess (getCurrentMedications zone toLowerCase now q) = false ->
  checkMedicationInteractions zone toLowerCase now q
  = {| iSuccess := true; interactions := Some []; warnings := Some [];
       medicationCount := None; iMessage := None |} /\
  forall q',
    medications (getCurrentMedications zone toLowerCase now q') = Some [] ->
    checkMedicationInteractions zone toLowerCase now q'
    = checkMedicationInteractions zone toLowerCase now q.
Proof.
  intros Hfail.
  assert (Hq : checkMedicationInteractions zone toLowerCase now q = emptyReport).
  { unfold checkMedicationInteractions. rewrite Hfail. reflexivity. }
  split; [exact Hq|].
  intros q' Hnone. rewrite Hq. unfold checkMedicationInteractions.
  rewrite (current_medications_success _ _ _ _ _ Hnone), Hnone. reflexivity.
Qed.

Lemma failure_reported_as_empty_witness :
  checkMedicationInteractions zoneUTC asciiToLowerCase 0 Rejected
  = {| iSuccess := true; interactions := Some []; warnings := Some [];
       medicationCount := None; iMessage := None |} /\
  forall q',
    medications (getCurrentMedications zoneUTC asciiToLowerCase 0 q') = Some [] ->
    checkMedicationInteractions zoneUTC asciiToLowerCase 0 q'
    = checkMedicationInteractions zoneUTC asciiToLowerCase 0 Rejected.
Proof.
  apply (failure_reported_as_empty zoneUTC asciiToLowerCase 0 Rejected).
  reflexivity.
Defined.

(** ** Decimal texts *)

Lemma digitsFuel_digits (fuel : nat) (n : Z) (acc : jsstring) :
  forallb isDigit acc = true -> forallb isDigit (digitsFuel fuel n acc) = true.
Proof.
  revert n acc. induction fuel as [|f IH]; intros n acc Hacc; [exact Hacc|].
  cbn [digitsFuel].
  assert (Hd : forallb isDigit ((48 + n mod 10) :: acc) = true).
  { cbn [forallb]. rewrite Hacc, andb_true_r. unfold isDigit.
    pose proof (Z.mod_pos_bound n 10 ltac:(lia)).
    apply andb_true_iff; split; apply Z.leb_le; lia. }
  destruct (n <? 10); [exact Hd | apply IH; exact Hd].
Qed.

Lemma digitsFuel_nonempty (fuel : nat) (n : Z) (acc : jsstring) :
  digitsFuel (S fuel) n acc <> [].
Proof.
  revert n acc. induction fuel as [|f IH]; intros n acc.
  - cbn. destruct (n <? 10); discriminate.
  - cbn [digitsFuel]. destruct (n <? 10); [discriminate|].
    apply (IH (n / 10)).
Qed.

Lemma natToString_digits (n : Z) : forallb isDigit (natToString n) = true.
Proof. apply digitsFuel_digits. reflexivity. Qed.

Lemma natToString_nonempty (n : Z) : natToString n <> [].
Proof. apply digitsFuel_nonempty. Qed.

Lemma digit_notSlash (s : jsstring) :
  forallb isDigit s = true -> forallb notSlash s = true.
Proof.
  induction s as [|c s IH]; [reflexivity|].
  cbn [forallb]. rewrite !andb_true_iff. intros [Hc Hs].
  split; [|apply IH; exact Hs].
  unfold isDigit, notSlash, SLASH in *.
  apply andb_true_iff in Hc. destruct Hc as [H1 H2].
  apply Z.leb_le in H1. apply negb_true_iff, Z.eqb_neq. lia.
Qed.

Lemma intToString_clean (n : Z) : cleanSegment (intToString n) = true.
Proof.
  unfold intToString.
  pose proof (natToString_digits n) as Hd.
  pose proof (natToString_digits (- n)) as Hd'.
  pose proof (natToString_nonempty n) as Hn.
  destruct (n <? 0).
  - unfold cleanSegment. cbn [JsString.eqb forallb].
    rewrite (digit_notSlash _ Hd'). reflexivity.
  - destruct (natToString n) as [|c s]; [contradiction|].
    unfold cleanSegment. rewrite (digit_notSlash _ Hd).
    cbn [forallb] in Hd. apply andb_true_iff in Hd. destruct Hd as [Hc _].
    unfold isDigit in Hc. apply andb_true_iff in Hc. destruct Hc as [H1 _].
    apply Z.leb_le in H1.
    assert (Hne : (c =? DOT) = false) by (apply Z.eqb_neq; unfold DOT; lia).
    cbn. rewrite Hne. reflexivity.
Qed.

(** The month is written with exactly two digits. *)
Lemma monthText_two_digits (zone : timezone) (now : Z) :
  List.length (monthText zone now) = 2%nat /\
  forallb isDigit (monthText zone now) = true /\
  cleanSegment (monthText zone now) = true.
Proof.
  unfold monthText.
  pose proof (MonthFromTime_range (LocalTime zone now)) as H.
  assert (Hcases : exists k, (k < 12)%nat /\
                             MonthFromTime (LocalTime zone now) = Z.of_nat k).
  { exists (Z.to_nat (MonthFromTime (LocalTime zone now))). lia. }
  destruct Hcases as (k & Hk & ->).
  do 12 (destruct k as [|k]; [repeat split; reflexivity|]).
  lia.
Qed.

(** ** Node's path.join on clean segments *)

Lemma splitOn_noSlash (s : jsstring) :
  forallb notSlash s = true -> splitOn SLASH s = [s].
Proof.
  induction s as [|c s IH]; [reflexivity|].
  cbn [forallb splitOn]. intros H. apply andb_true_iff in H.
  destruct H as [Hc Hs]. unfold notSlash in Hc.
  apply negb_true_iff in Hc. rewrite Hc, (IH Hs). reflexivity.
Qed.

Lemma splitOn_app (s t : jsstring) :
  forallb notSlash s = true ->
  splitOn SLASH (s ++ SLASH :: t) = s :: splitOn SLASH t.
Proof.
  induction s as [|c s IH]; intros H.
  - cbn. reflexivity.
  - cbn [forallb] in H. apply andb_true_iff in H. destruct H as [Hc Hs].
    unfold notSlash in Hc. apply negb_true_iff in Hc.
    cbn [app splitOn]. rewrite Hc, (IH Hs). reflexivity.
Qed.

Lemma cleanSegment_notSlash (s : jsstring) :
  cleanSegment s = true -> forallb notSlash s = true.
Proof.
  unfold cleanSegment. rewrite !andb_true_iff. tauto.
Qed.

Lemma splitOn_joinWith (segs : list jsstring) :
  segs <> [] ->
  forallb cleanSegment segs = true ->
  splitOn SLASH (joinWith SLASH segs) = segs.
Proof.
  induction segs as [|s segs IH]; [contradiction|]. intros _ H.
  cbn [forallb] in H. apply andb_true_iff in H. destruct H as [Hs Hrest].
  apply cleanSegment_notSlash in Hs.
  destruct segs as [|s2 rest].
  - cbn [joinWith]. apply splitOn_noSlash. exact Hs.
  - change (joinWith SLASH (s :: s2 :: rest))
      with (s ++ SLASH :: joinWith SLASH (s2 :: rest)).
    rewrite (splitOn_app _ _ Hs), IH; [reflexivity | discriminate | exact Hrest].
Qed.

Lemma resolveSegments_clean (above : bool) (segs kept : list jsstring) :
  forallb cleanSegment segs = true ->
  resolveSegments above kept segs = rev kept ++ segs.
Proof.
  revert kept. induction segs as [|s segs IH]; intros kept H.
  - cbn. rewrite app_nil_r. reflexivity.
  - cbn [forallb] in H. apply andb_true_iff in H. destruct H as [Hs Hrest].
    unfold cleanSegment in Hs. rewrite !andb_true_iff in Hs.
    destruct Hs as [[[H1 _] H2] H3].
    apply negb_true_iff in H1, H2, H3.
    cbn [resolveSegments]. rewrite H1, H2, H3. cbn [orb].
    rewrite (IH _ Hrest). cbn [rev]. rewrite <- app_assoc. reflexivity.
Qed.

Lemma last_notSlash (s : jsstring) :
  s <> [] -> forallb notSlash s = true -> (last s 0 =? SLASH) = false.
Proof.
  induction s as [|c s IH]; [contradiction|]. intros _ H.
  cbn [forallb] in H. apply andb_true_iff in H. destruct H as [Hc Hs].
  destruct s as [|c' s'].
  - cbn. unfold notSlash in Hc. apply negb_true_iff. exact Hc.
  - change (last (c :: c' :: s') 0) with (last (c' :: s') 0).
    apply IH; [discriminate | exact Hs].
Qed.

Lemma last_app_nonempty (a s : jsstring) :
  s <> [] -> last (a ++ s) 0 = last s 0.
Proof.
  intros Hs. induction a as [|c a IH]; [reflexivity|].
  cbn [app]. destruct (a ++ s) eqn:E.
  - destruct a; [cbn in E; contradiction | discriminate].
  - cbn [last]. exact IH.
Qed.

Lemma nonempty_of_clean (s : jsstring) : cleanSegment s = true -> s <> [].
Proof. intros H ->. discriminate. Qed.

Lemma last_joinWith (segs : list jsstring) :
  segs <> [] ->
  forallb cleanSegment segs = true ->
  (last (joinWith SLASH segs) 0 =? SLASH) = false.
Proof.
  induction segs as [|s segs IH]; [contradiction|]. intros _ H.
  cbn [forallb] in H. apply andb_true_iff in H. destruct H as [Hs Hrest].
  destruct segs as [|s2 rest].
  - cbn [joinWith]. apply last_notSlash.
    + apply nonempty_of_clean. exact Hs.
    + apply cleanSegment_notSlash. exact Hs.
  - change (joinWith SLASH (s :: s2 :: rest))
      with (s ++ SLASH :: joinWith SLASH (s2 :: rest)).
    assert (Hne : joinWith SLASH (s2 :: rest) <> []).
    { cbn [forallb] in Hrest. apply andb_true_iff in Hrest.
      destruct Hrest as [H2 _]. apply nonempty_of_clean in H2.
      destruct s2; [contradiction|]. destruct rest; discriminate. }
    change (s ++ SLASH :: joinWith SLASH (s2 :: rest))
      with (s ++ [SLASH] ++ joinWith SLASH (s2 :: rest)).
    rewrite app_assoc, (last_app_nonempty _ _ Hne).
    apply IH; [discriminate | exact Hrest].
Qed.

Lemma normalize_relative (c : codeunit) (rest p : jsstring) :
  (c =? SLASH) = false ->
  (last (c :: rest) 0 =? SLASH) = false ->
  normalizeString (c :: rest) true = p ->
  p <> [] ->
  normalize (c :: rest) = p.
Proof.
  intros Hc Hlast Hp Hne. unfold normalize.
  rewrite Hc, Hlast. cbn [negb]. rewrite Hp.
  destruct p; [contradiction | reflexivity].
Qed.

(** Joining clean segments only puts separators between them. *)
Lemma join_clean (segs : list jsstring) :
  segs <> [] ->
  forallb cleanSegment segs = true ->
  join segs = joinWith SLASH segs.
Proof.
  intros Hne Hclean. unfold join.
  assert (Hkeep : filter (fun a => negb (JsString.eqb a [])) segs = segs).
  { clear Hne. induction segs as [|s segs IH]; [reflexivity|].
    cbn [forallb] in Hclean. apply andb_true_iff in Hclean.
    destruct Hclean as [Hs Hrest]. cbn [filter].
    unfold cleanSegment in Hs. rewrite !andb_true_iff in Hs.
    destruct Hs as [[[H1 _] _] _]. rewrite H1, (IH Hrest). reflexivity. }
  rewrite Hkeep.
  pose proof (last_joinWith _ Hne Hclean) as Hlast.
  assert (Hnorm : normalizeString (joinWith SLASH segs) true
                  = joinWith SLASH segs).
  { unfold normalizeString.
    rewrite (splitOn_joinWith _ Hne Hclean).
    rewrite (resolveSegments_clean _ _ _ Hclean). reflexivity. }
  assert (Hfirst : exists c rest,
             joinWith SLASH segs = c :: rest /\ (c =? SLASH) = false).
  { destruct segs as [|s segs]; [contradiction|].
    cbn [forallb] in Hclean. apply andb_true_iff in Hclean.
    destruct Hclean as [Hs _].
    pose proof (cleanSegment_notSlash _ Hs) as Hns.
    destruct s as [|c s']; [discriminate|].
    cbn [forallb] in Hns. apply andb_true_iff in Hns. destruct Hns as [Hc _].
    unfold notSlash in Hc. apply negb_true_iff in Hc.
    destruct segs; cbn [joinWith app]; eauto. }
  destruct Hfirst as (c & rest & Hpath & Hc).
  destruct segs as [|s segs]; [contradiction|].
  rewrite Hpath in *.
  apply normalize_relative; [exact Hc | exact Hlast | exact Hnorm | discriminate].
Qed.

(** ** Node's path.extname *)






(** ** FileUploadManager.generateFilePath *)


Lemma typeSegment_clean (uploadType : jsstring) :
  forallb notSlash uploadType = true ->
  cleanSegment (uploadType ++ u16 "s") = true.
Proof.
  intros H. unfold cleanSegment.
  assert (Hns : forallb notSlash (uploadType ++ u16 "s") = true).
  { rewrite forallb_app, H. reflexivity. }
  rewrite Hns.
  destruct uploadType as [|a [|b [|c t]]]; cbn;
    rewrite ?andb_false_r; reflexivity.
Qed.

Lemma patientSegment_clean (patientId : jsstring) :
  forallb notSlash patientId = true ->
  cleanSegment (u16 "patient_" ++ patientId) = true.
Proof.
  intros H. unfold cleanSegment.
  assert (Hns : forallb notSlash (u16 "patient_" ++ patientId) = true).
  { rewrite forallb_app, H. reflexivity. }
  rewrite Hns. reflexivity.
Qed.

Lemma directory_text (t y m p : jsstring) :
  joinWith SLASH [u16 "uploads"; t ++ u16 "s"; y; m; u16 "patient_" ++ p]
  = u16 "uploads/" ++ t ++ u16 "s/" ++ y ++ u16 "/" ++ m ++
    u16 "/patient_" ++ p.
Proof. cbn. rewrite <- app_assoc. reflexivity. Qed.

(** After ":" and "." have been replaced there is no "." left to split
    at: the timestamp keeps the milliseconds and the final Z. *)
Lemma timestamp_keeps_milliseconds (now : Z) :
  timestampOf now
  = replaceAll (fun c => (c =? 58) || (c =? 46)) 45 (toISOString now).
Proof.
  unfold timestampOf. generalize (toISOString now). intros s.
  induction s as [|c s IH]; [reflexivity|].
  cbn [replaceAll map splitHead].
  fold (replaceAll (fun c => (c =? 58) || (c =? 46)) 45 s).
  destruct (c =? 46) eqn:E.
  - rewrite orb_true_r. cbn. rewrite IH. reflexivity.
  - rewrite orb_false_r. destruct (c =? 58) eqn:E'.
    + cbn. rewrite IH. reflexivity.
    + rewrite E, IH. reflexivity.
Qed.

Lemma repeat_digits (n : nat) : forallb isDigit (repeat 48 n) = true.
Proof. induction n as [|n IH]; [reflexivity|]. cbn. exact IH. Qed.







(** The example of the specification, evaluated. *)
Lemma scan_jpg_example :
  let r := generateFilePath zoneUTC (u16 "visit") (u16 "12345678901")
                            (u16 "scan.jpg") sampleTime (u16 "0.abc12345xyz") in
  directory r = u16 "uploads/visits/2024/01/patient_12345678901" /\
  filename r = u16 "visit_2024-01-20T10-30-45-123Z_abc12345.jpg" /\
  relativePath r
  = u16 "uploads/visits/2024/01/patient_12345678901/visit_2024-01-20T10-30-45-123Z_abc12345.jpg".
Proof. repeat split; reflexivity. Qed.


(** ** Soundness of the host model *)

(** [yearFromDay] is YearFromTime: the year whose first day is the last
    one not after the given day. *)
Lemma yearFromDay_spec (d : Z) :
  DayFromYear (yearFromDay d) <= d < DayFromYear (yearFromDay d + 1).
Proof.
  unfold yearFromDay.
  set (y := 1970 + 400 * d / 146097).
  assert (Hy : 146097 * (y - 1970) <= 400 * d
               < 146097 * (y - 1970) + 146097).
  { unfold y.
    pose proof (Z.div_mod (400 * d) 146097 ltac:(lia)).
    pose proof (Z.mod_pos_bound (400 * d) 146097 ltac:(lia)). lia. }
  clearbody y.
  destruct (Z.leb_spec (DayFromYear (y + 1)) d) as [H1|H1].
  - split; [exact H1|].
    unfold DayFromYear in *. Z.to_euclidean_division_equations. lia.
  - destruct (Z.leb_spec (DayFromYear y) d) as [H2|H2].
    + split; [exact H2 | exact H1].
    + split; [|replace (y - 1 + 1) with y by lia; exact H2].
      unfold DayFromYear in *. Z.to_euclidean_division_equations. lia.
Qed.

Lemma DayWithinYear_nonneg (t : Z) : 0 <= DayWithinYear t.
Proof.
  unfold DayWithinYear, YearFromTime.
  pose proof (yearFromDay_spec (Day t)). lia.
Qed.

(** The text of a count reads back as the count. *)
Lemma fold_digits_app (ds acc : jsstring) (a : Z) :
  fold_left (fun x c => 10 * x + (c - 48)) (ds ++ acc) a
  = fold_left (fun x c => 10 * x + (c - 48)) acc
              (fold_left (fun x c => 10 * x + (c - 48)) ds a).
Proof. apply fold_left_app. Qed.

Lemma digitsFuel_value (fuel : nat) (n : Z) (acc : jsstring) :
  0 <= n < 2 ^ Z.of_nat fuel ->
  exists ds, digitsFuel fuel n acc = ds ++ acc /\ decimalValue ds = n.
Proof.
  revert n acc. induction fuel as [|f IH]; intros n acc Hn.
  - exists []. split; [reflexivity|].
    change (2 ^ Z.of_nat 0) with 1 in Hn. unfold decimalValue.
    cbn [fold_left]. lia.
  - cbn [digitsFuel].
    destruct (Z.ltb_spec n 10) as [Hlt|Hge].
    + exists [48 + n mod 10]. split; [reflexivity|].
      unfold decimalValue. cbn [fold_left]. rewrite Z.mod_small by lia. lia.
    + assert (Hdiv : 0 <= n / 10 < 2 ^ Z.of_nat f).
      { rewrite Nat2Z.inj_succ, Z.pow_succ_r in Hn by lia.
        split; [apply Z.div_pos; lia|].
        apply Z.div_lt_upper_bound; lia. }
      destruct (IH (n / 10) ((48 + n mod 10) :: acc) Hdiv) as (ds & -> & Hds).
      exists (ds ++ [48 + n mod 10]). split.
      * rewrite <- app_assoc. reflexivity.
      * unfold decimalValue in *. rewrite fold_digits_app, Hds.
        cbn [fold_left].
        pose proof (Z.div_mod n 10 ltac:(lia)). lia.
Qed.

Lemma decimalValue_natToString (n : Z) :
  0 <= n -> decimalValue (natToString n) = n.
Proof.
  intros Hn. unfold natToString.
  destruct (digitsFuel_value (S (Z.to_nat (Z.log2 n))) n []) as (ds & E & Hds).
  - split; [exact Hn|].
    rewrite Nat2Z.inj_succ, Z2Nat.id by apply Z.log2_nonneg.
    destruct (Z.eq_dec n 0) as [->|Hne]; [reflexivity|].
    apply Z.log2_spec. lia.
  - rewrite E, app_nil_r. exact Hds.
Qed.

(** Up to 2^53 an integer is a Number. *)
Lemma toNumber_exact (n : Z) : 0 <= n <= 2 ^ 53 -> toNumber n = n.
Proof.
  intros Hn. unfold toNumber.
  destruct (Z.eq_dec n (2 ^ 53)) as [->|Hne]; [reflexivity|].
  assert (Hlog : Z.log2 n <= 52).
  { destruct (Z.eq_dec n 0) as [->|Hpos]; [cbn; lia|].
    assert (Z.log2 n < 53) by (apply Z.log2_lt_pow2; lia). lia. }
  destruct (Z.leb_spec (Z.log2 n - 52) 0); [reflexivity | lia].
Qed.

(** A count written with digits reads back as itself while it is a
    Number. *)
Lemma parseInt_natToString (n : Z) :
  0 <= n <= 2 ^ 53 -> parseInt (natToString n) = n.
Proof.
  intros Hn. unfold parseInt.
  rewrite decimalValue_natToString by lia. apply toNumber_exact. exact Hn.
Qed.

(* ================================================================== *)
(** * Further properties of the medication service *)
(* ================================================================== *)

Import ServiceTerms.

(** ** The number-and-unit patterns *)

Lemma numberUnit_needs_digit (a b : jsstring)
      (k : jsstring -> captures -> option captures) (s : jsstring)
      (c : captures) :
  match s with [] => true | x :: _ => notDigit x end = true ->
  rmatch (numberUnit a b) k s c = None.
Proof.
  intros H. unfold numberUnit, Plus. cbn [rmatch].
  destruct s as [|x s]; [reflexivity|].
  unfold notDigit in H. apply negb_true_iff in H. rewrite H. reflexivity.
Qed.

Lemma exec_without_digit (a b s : jsstring) :
  forallb notDigit s = true -> exec (numberUnit a b) s = None.
Proof.
  induction s as [|x s IH]; intros H.
  - cbn [exec]. rewrite numberUnit_needs_digit; reflexivity.
  - cbn [forallb] in H. apply andb_true_iff in H. destruct H as [Hx Hs].
    cbn [exec]. rewrite numberUnit_needs_digit by exact Hx.
    apply IH. exact Hs.
Qed.

(** One turn of a starred character class. *)
Lemma star_chr_cons (p : codeunit -> bool)
      (k : jsstring -> captures -> option captures) (x : codeunit)
      (s : jsstring) (c : captures) :
  rmatch (Star (Chr p)) k (x :: s) c =
  if p x then
    match rmatch (Star (Chr p)) k s c with
    | Some r => Some r
    | None => k (x :: s) c
    end
  else k (x :: s) c.
Proof.
  assert (E : rmatch (Star (Chr p)) k (x :: s) c =
              match (if p x
                     then (if (List.length s <? List.length (x :: s))%nat
                           then rmatch (Star (Chr p)) k s c else None)
                     else None) with
              | Some r => Some r
              | None => k (x :: s) c
              end) by reflexivity.
  rewrite E.
  assert (L : (List.length s <? List.length (x :: s))%nat = true)
    by (apply Nat.ltb_lt; cbn; lia).
  rewrite L. destruct (p x); reflexivity.
Qed.

Lemma star_chr_nil (p : codeunit -> bool)
      (k : jsstring -> captures -> option captures) (c : captures) :
  rmatch (Star (Chr p)) k [] c = k [] c.
Proof. reflexivity. Qed.

(** A starred class takes the whole run when the rest matches from its end:
    the longest repetition is tried first. *)
Lemma star_chr_greedy (p : codeunit -> bool)
      (k : jsstring -> captures -> option captures)
      (run tail : jsstring) (c r : captures) :
  forallb p run = true ->
  k tail c = Some r ->
  match tail with [] => true | x :: _ => negb (p x) end = true ->
  rmatch (Star (Chr p)) k (run ++ tail) c = Some r.
Proof.
  intros Hrun Hk Htail. induction run as [|x run IH].
  - cbn [app]. destruct tail as [|y tail].
    + rewrite star_chr_nil. exact Hk.
    + rewrite star_chr_cons. apply negb_true_iff in Htail.
      rewrite Htail. exact Hk.
  - cbn [forallb] in Hrun. apply andb_true_iff in Hrun.
    destruct Hrun as [Hx Hrun].
    cbn [app]. rewrite star_chr_cons, Hx, (IH Hrun). reflexivity.
Qed.

Lemma canonicalize_digit (x : codeunit) :
  isDigit (canonicalize x) = isDigit x.
Proof.
  unfold canonicalize, isDigit.
  destruct ((97 <=? x) && (x <=? 122)) eqn:E; [|reflexivity].
  apply andb_true_iff in E. destruct E as [H1 H2].
  apply Z.leb_le in H1, H2.
  assert (A : (x - 32 <=? 57) = false) by (apply Z.leb_gt; lia).
  assert (B : (x <=? 57) = false) by (apply Z.leb_gt; lia).
  rewrite A, B, !andb_false_r. reflexivity.
Qed.

Lemma canonicalize_space (x : codeunit) :
  isSpace (canonicalize x) = isSpace x.
Proof.
  unfold canonicalize.
  destruct ((97 <=? x) && (x <=? 122)) eqn:E; [|reflexivity].
  apply andb_true_iff in E. destruct E as [H1 H2].
  apply Z.leb_le in H1, H2.
  assert (L : isSpace (x - 32) = false).
  { unfold isSpace.
    repeat match goal with
           | |- context [?a =? ?b] =>
               replace (a =? b) with false by (symmetry; apply Z.eqb_neq; lia)
           | |- context [?a <=? ?b] =>
               replace (a <=? b) with false by (symmetry; apply Z.leb_gt; lia)
           end.
    reflexivity. }
  assert (R : isSpace x = false).
  { unfold isSpace.
    repeat match goal with
           | |- context [?a =? ?b] =>
               replace (a =? b) with false by (symmetry; apply Z.eqb_neq; lia)
           | |- context [?a <=? ?b] =>
               replace (a <=? b) with false by (symmetry; apply Z.leb_gt; lia)
           end.
    reflexivity. }
  rewrite L, R. reflexivity.
Qed.

(** A literal word under the [i] flag consumes any of its case variants. *)
Lemma litI_variant (w u rest : jsstring)
      (k : jsstring -> captures -> option captures) (c : captures) :
  w <> [] ->
  isUnitVariant w u = true ->
  rmatch (litI w) k (u ++ rest) c = k rest c.
Proof.
  unfold isUnitVariant. revert u k. induction w as [|a w IH]; intros u k Hw Hu.
  - contradiction.
  - destruct u as [|x u]; [discriminate|].
    cbn [map JsString.eqb] in Hu. apply andb_true_iff in Hu.
    destruct Hu as [Hx Hu].
    destruct w as [|a' w'].
    + destruct u; [|discriminate].
      cbn [litI chrI rmatch app]. rewrite Hx. reflexivity.
    + change (litI (a :: a' :: w')) with (Seq (chrI a) (litI (a' :: w'))).
      cbn [chrI rmatch app]. rewrite Hx.
      apply IH; [discriminate | exact Hu].
Qed.

(** It fails at once on a text starting with another letter. *)
Lemma litI_other_head (a x : codeunit) (w s : jsstring)
      (k : jsstring -> captures -> option captures) (c : captures) :
  (canonicalize x =? canonicalize a) = false ->
  rmatch (litI (a :: w)) k (x :: s) c = None.
Proof.
  intros H. destruct w as [|a' w'].
  - cbn [litI chrI rmatch]. rewrite H. reflexivity.
  - change (litI (a :: a' :: w')) with (Seq (chrI a) (litI (a' :: w'))).
    cbn [chrI rmatch]. rewrite H. reflexivity.
Qed.

Lemma alt_variant (a0 : codeunit) (a b u rest : jsstring)
      (k : jsstring -> captures -> option captures) (c r : captures) :
  b <> [] ->
  isUnitVariant (a0 :: a) u = true \/
  (isUnitVariant b u = true /\
   match u with
   | x :: _ => (canonicalize x =? canonicalize a0) = false
   | [] => False
   end) ->
  k rest c = Some r ->
  rmatch (Alt (litI (a0 :: a)) (litI b)) k (u ++ rest) c = Some r.
Proof.
  intros Hb [Ha | [Hub Hhead]] Hk; cbn [rmatch].
  - rewrite (litI_variant (a0 :: a) u rest k c) by (discriminate || exact Ha).
    rewrite Hk. reflexivity.
  - destruct u as [|x u]; [contradiction|].
    cbn [app]. rewrite (litI_other_head a0 x a (u ++ rest) k c Hhead).
    change (x :: u ++ rest) with ((x :: u) ++ rest).
    rewrite (litI_variant b (x :: u) rest k c Hb Hub). exact Hk.
Qed.

Lemma firstn_consumed (u rest : jsstring) :
  firstn (List.length (u ++ rest) - List.length rest) (u ++ rest) = u.
Proof.
  rewrite length_app, Nat.add_sub.
  rewrite firstn_app, Nat.sub_diag, firstn_all. cbn. apply app_nil_r.
Qed.

Lemma rmatch_Seq (a b : regex) (k : jsstring -> captures -> option captures)
      (s : jsstring) (c : captures) :
  rmatch (Seq a b) k s c = rmatch a (rmatch b k) s c.
Proof. reflexivity. Qed.

Lemma rmatch_Group (i : nat) (a : regex)
      (k : jsstring -> captures -> option captures) (s : jsstring)
      (c : captures) :
  rmatch (Group i a) k s c =
  rmatch a (fun s' c' =>
              k s' ((i, firstn (List.length s - List.length s') s) :: c'))
         s c.
Proof. reflexivity. Qed.

Lemma rmatch_Chr_cons (p : codeunit -> bool)
      (k : jsstring -> captures -> option captures) (x : codeunit)
      (s : jsstring) (c : captures) :
  rmatch (Chr p) k (x :: s) c = if p x then k s c else None.
Proof. reflexivity. Qed.

Lemma space_not_digit (w : codeunit) : isSpace w = true -> isDigit w = false.
Proof.
  intros Hw. unfold isSpace in Hw. unfold isDigit.
  destruct ((48 <=? w) && (w <=? 57)) eqn:E; [|reflexivity].
  apply andb_true_iff in E. destruct E as [E1 E2].
  apply Z.leb_le in E1, E2.
  repeat match type of Hw with
         | context [?p =? ?q] =>
             replace (p =? q) with false in Hw
               by (symmetry; apply Z.eqb_neq; lia)
         | context [?p <=? ?q] =>
             replace (p <=? q) with false in Hw
               by (symmetry; apply Z.leb_gt; lia)
         end.
  discriminate.
Qed.

(** At the start of digits, blanks and a unit word the pattern matches,
    capturing the whole run of digits. *)
Lemma numberUnit_at (a0 : codeunit) (a b ds ws u rest : jsstring) :
  b <> [] ->
  ds <> [] -> forallb isDigit ds = true ->
  forallb isSpace ws = true ->
  isUnitVariant (a0 :: a) u = true \/
  (isUnitVariant b u = true /\
   match u with
   | x :: _ => (canonicalize x =? canonicalize a0) = false
   | [] => False
   end) ->
  match u with
  | x :: _ => negb (isDigit x) && negb (isSpace x)
  | [] => false
  end = true ->
  rmatch (numberUnit (a0 :: a) b) (fun _ c => Some c)
         (ds ++ ws ++ u ++ rest) []
  = Some [(2%nat, u); (1%nat, ds)].
Proof.
  intros Hb Hds Hdig Hws Hunit Hhead.
  destruct u as [|x u]; [discriminate|].
  apply andb_true_iff in Hhead. destruct Hhead as [Hxd Hxs].
  destruct ds as [|d ds]; [contradiction|].
  cbn [forallb] in Hdig. apply andb_true_iff in Hdig.
  destruct Hdig as [Hd Hdig].
  unfold numberUnit, Plus.
  rewrite rmatch_Seq, rmatch_Group, rmatch_Seq.
  cbn [app]. rewrite rmatch_Chr_cons, Hd.
  apply star_chr_greedy; [exact Hdig | |].
  - cbn beta.
    replace (firstn _ (d :: ds ++ ws ++ x :: u ++ rest)) with (d :: ds)
      by (symmetry; apply (firstn_consumed (d :: ds) (ws ++ (x :: u) ++ rest))).
    rewrite rmatch_Seq.
    apply star_chr_greedy; [exact Hws | |].
    + rewrite rmatch_Group.
      apply (alt_variant a0 a b (x :: u) rest _ _ _ Hb Hunit).
      replace (firstn _ (x :: u ++ rest)) with (x :: u)
        by (symmetry; apply (firstn_consumed (x :: u) rest)).
      reflexivity.
    + exact Hxs.
  - destruct ws as [|w ws]; cbn [app].
    + exact Hxd.
    + cbn [forallb] in Hws. apply andb_true_iff in Hws.
      destruct Hws as [Hw _]. rewrite (space_not_digit w Hw). reflexivity.
Qed.

(** Leading text without a digit is skipped. *)
Lemma exec_skip (a b pre s : jsstring) (r : captures) :
  forallb notDigit pre = true ->
  rmatch (numberUnit a b) (fun _ c => Some c) s [] = Some r ->
  exec (numberUnit a b) (pre ++ s) = Some r.
Proof.
  intros Hpre Hs. induction pre as [|x pre IH].
  - cbn [app]. destruct s; cbn [exec]; rewrite Hs; reflexivity.
  - cbn [forallb] in Hpre. apply andb_true_iff in Hpre.
    destruct Hpre as [Hx Hpre].
    cbn [app exec]. rewrite numberUnit_needs_digit by exact Hx.
    apply IH. exact Hpre.
Qed.

Lemma variant_head (w u : jsstring) :
  isUnitVariant w u = true ->
  match w with
  | a0 :: _ => negb (isDigit a0) && negb (isSpace a0)
  | [] => false
  end = true ->
  match u with
  | x :: _ => negb (isDigit x) && negb (isSpace x)
  | [] => false
  end = true.
Proof.
  unfold isUnitVariant. destruct w as [|a0 w]; [discriminate|].
  destruct u as [|x u]; [discriminate|].
  cbn [map JsString.eqb]. intros H Hw. apply andb_true_iff in H.
  destruct H as [Hx _]. apply Z.eqb_eq in Hx.
  rewrite <- (canonicalize_digit x), <- (canonicalize_space x), Hx.
  rewrite canonicalize_digit, canonicalize_space. exact Hw.
Qed.

Lemma variant_other_head (w u : jsstring) (a0 : codeunit) :
  isUnitVariant w u = true ->
  match w with
  | b0 :: _ => (canonicalize b0 =? canonicalize a0) = false
  | [] => False
  end ->
  match u with
  | x :: _ => (canonicalize x =? canonicalize a0) = false
  | [] => False
  end.
Proof.
  unfold isUnitVariant. destruct w as [|b0 w]; [contradiction|].
  destruct u as [|x u]; [discriminate|].
  cbn [map JsString.eqb]. intros H Hw. apply andb_true_iff in H.
  destruct H as [Hx _]. apply Z.eqb_eq in Hx. rewrite Hx. exact Hw.
Qed.

Lemma fold_digits_nonneg (ds : jsstring) (acc : Z) :
  0 <= acc -> forallb isDigit ds = true ->
  0 <= fold_left (fun a c => 10 * a + (c - 48)) ds acc.
Proof.
  revert acc. induction ds as [|c ds IH]; intros acc Hacc Hd; [exact Hacc|].
  cbn [forallb] in Hd. apply andb_true_iff in Hd. destruct Hd as [Hc Hd].
  unfold isDigit in Hc. apply andb_true_iff in Hc. destruct Hc as [H1 _].
  apply Z.leb_le in H1. cbn [fold_left]. apply IH; [lia | exact Hd].
Qed.

Lemma decimalValue_nonneg (ds : jsstring) :
  forallb isDigit ds = true -> 0 <= decimalValue ds.
Proof. apply fold_digits_nonneg. lia. Qed.

(** X1. The three patterns of the service on a text that writes a number,
    optional blanks and the unit, in either language and any letter case,
    after text without digits: for a number that a Number holds exactly
    (at most 2^53), the number read is the one written. *)
Theorem duration_patterns_read_number (pre ds ws u rest : jsstring) :
  forallb notDigit pre = true ->
  ds <> [] -> forallb isDigit ds = true ->
  decimalValue ds <= 2 ^ 53 ->
  forallb isSpace ws = true ->
  (isUnitVariant unit_yawm u || isUnitVariant (u16 "day") u = true ->
   matchNumber daysRe (pre ++ ds ++ ws ++ u ++ rest)
   = Some (decimalValue ds)) /\
  (isUnitVariant unit_usbu u || isUnitVariant (u16 "week") u = true ->
   matchNumber weeksRe (pre ++ ds ++ ws ++ u ++ rest)
   = Some (decimalValue ds)) /\
  (isUnitVariant unit_shahr u || isUnitVariant (u16 "month") u = true ->
   matchNumber monthsRe (pre ++ ds ++ ws ++ u ++ rest)
   = Some (decimalValue ds)).
Proof.
  intros Hpre Hds Hdig Hsmall Hws.
  assert (Hexact : parseInt ds = decimalValue ds).
  { apply toNumber_exact. split; [apply decimalValue_nonneg|]; assumption. }
  rewrite <- Hexact.
  assert (Hgen : forall a0 a b,
             b <> [] ->
             negb (isDigit a0) && negb (isSpace a0) = true ->
             match b with
             | b0 :: _ => negb (isDigit b0) && negb (isSpace b0) &&
                          negb (canonicalize b0 =? canonicalize a0)
             | [] => false
             end = true ->
             isUnitVariant (a0 :: a) u || isUnitVariant b u = true ->
             matchNumber (numberUnit (a0 :: a) b)
                         (pre ++ ds ++ ws ++ u ++ rest)
             = Some (parseInt ds)).
  { intros a0 a b Hb Ha0 Hb0 Hu.
    unfold matchNumber.
    rewrite (exec_skip (a0 :: a) b pre _ [(2%nat, u); (1%nat, ds)] Hpre);
      [reflexivity|].
    destruct b as [|b0 b']; [contradiction|].
    apply andb_true_iff in Hb0. destruct Hb0 as [Hb0 Hne].
    apply negb_true_iff in Hne.
    apply orb_true_iff in Hu.
    apply numberUnit_at; try assumption.
    - destruct Hu as [Hu | Hu]; [left; exact Hu | right].
      split; [exact Hu|].
      apply (variant_other_head (b0 :: b') u a0 Hu). exact Hne.
    - destruct Hu as [Hu | Hu].
      + apply (variant_head (a0 :: a) u Hu). exact Ha0.
      + apply (variant_head (b0 :: b') u Hu). exact Hb0. }
  repeat split; intros Hu.
  - apply (Hgen 0x64A [0x648; 0x645] (u16 "day"));
      [discriminate | reflexivity | reflexivity | exact Hu].
  - apply (Hgen 0x623 [0x633; 0x628; 0x648; 0x639] (u16 "week"));
      [discriminate | reflexivity | reflexivity | exact Hu].
  - apply (Hgen 0x634 [0x647; 0x631] (u16 "month"));
      [discriminate | reflexivity | reflexivity | exact Hu].
Qed.

Lemma duration_patterns_read_number_witness :
  matchNumber daysRe (u16 "for 14  Days") = Some 14 /\
  matchNumber weeksRe ([0x644; 0x645; 0x62F; 0x629; 0x20] ++ u16 "2"
                       ++ unit_usbu ++ [0x64A; 0x646]) = Some 2 /\
  matchNumber monthsRe (u16 "3 MONTHS") = Some 3.
Proof.
  split; [|split].
  - apply (duration_patterns_read_number (u16 "for ") (u16 "14") (u16 "  ")
             (u16 "Day") (u16 "s"));
      first [reflexivity | discriminate | (vm_compute; discriminate)].
  - apply (duration_patterns_read_number [0x644; 0x645; 0x62F; 0x629; 0x20]
             (u16 "2") [] unit_usbu [0x64A; 0x646]);
      first [reflexivity | discriminate | (vm_compute; discriminate)].
  - apply (duration_patterns_read_number [] (u16 "3") (u16 " ")
             (u16 "MONTH") (u16 "S"));
      first [reflexivity | discriminate | (vm_compute; discriminate)].
Defined.

(** ** The evaluators case by case *)

Section EvaluatorCases.

Variable zone : timezone.
Variable toLowerCase : jsstring -> jsstring.

(** The body of the filter callback, test by test. *)
Lemma activeByDuration_cases (now : Z) (m : MedicationRecord) :
  activeByDuration zone toLowerCase now m =
  if continuousCurrent toLowerCase (duration (med m)) then true
  else
    match durationMatch daysRe (duration (med m)) with
    | Some n => numLe (Some now) (endAfterDays zone (recVisitDate m) n)
    | None =>
    match durationMatch weeksRe (duration (med m)) with
    | Some n => numLe (Some now) (endAfterDays zone (recVisitDate m) (n * 7))
    | None =>
    match durationMatch monthsRe (duration (med m)) with
    | Some n => numLe (Some now) (endAfterMonths zone (recVisitDate m) n)
    | None => ratLe (daysSince now (newDate (recVisitDate m))) 90
    end end end.
Proof. reflexivity. Qed.

Lemma isMedicationActive_cases (now : Z) (p : Prescription)
      (visitDate : date) :
  isMedicationActive zone toLowerCase now p visitDate =
  if continuousHistory toLowerCase (duration p) then true
  else
    match durationMatch daysRe (duration p) with
    | Some n => numLe (Some now) (endAfterDays zone visitDate n)
    | None => ratLe (daysSince now (newDate visitDate)) 30
    end.
Proof. reflexivity. Qed.

Lemma continuousHistory_current (d : option jsstring) :
  continuousHistory toLowerCase d = true ->
  continuousCurrent toLowerCase d = true.
Proof.
  unfold continuousHistory, continuousCurrent, keywordHistory, keywordCurrent.
  destruct (truthy d); [|discriminate]. destruct d as [s|]; [|discriminate].
  cbn [andb]. intros ->. reflexivity.
Qed.

Lemma numLe_earlier (now1 now2 : Z) (e : date) :
  now1 <= now2 -> numLe (Some now2) e = true -> numLe (Some now1) e = true.
Proof.
  intros H. destruct e as [t|]; [|discriminate]. cbn.
  rewrite !Z.leb_le. lia.
Qed.

Lemma ratLe_earlier (now1 now2 : Z) (d : date) (n : Z) :
  now1 <= now2 ->
  ratLe (daysSince now2 d) n = true -> ratLe (daysSince now1 d) n = true.
Proof.
  intros H. destruct d as [p|]; [|discriminate].
  rewrite !ratLe_daysSince, !Z.leb_le. lia.
Qed.

Lemma ratLe_wider (now : Z) (d : date) :
  ratLe (daysSince now d) 30 = true -> ratLe (daysSince now d) 90 = true.
Proof.
  destruct d as [p|]; [|discriminate].
  rewrite !ratLe_daysSince, !Z.leb_le. unfold msPerDay. lia.
Qed.

(** X2. Activity only ends.  A prescription that either evaluator finds
    active at some time is found active at every earlier time. *)
Theorem active_at_earlier_times (now1 now2 : Z) (m : MedicationRecord) :
  now1 <= now2 ->
  (activeByDuration zone toLowerCase now2 m = true ->
   activeByDuration zone toLowerCase now1 m = true) /\
  (isMedicationActive zone toLowerCase now2 (med m) (recVisitDate m) = true ->
   isMedicationActive zone toLowerCase now1 (med m) (recVisitDate m) = true).
Proof.
  intros H. split.
  - rewrite !activeByDuration_cases.
    destruct (continuousCurrent toLowerCase (duration (med m)));
      [reflexivity|].
    destruct (durationMatch daysRe (duration (med m)));
      [apply numLe_earlier; exact H|].
    destruct (durationMatch weeksRe (duration (med m)));
      [apply numLe_earlier; exact H|].
    destruct (durationMatch monthsRe (duration (med m)));
      [apply numLe_earlier; exact H|].
    apply ratLe_earlier; exact H.
  - rewrite !isMedicationActive_cases.
    destruct (continuousHistory toLowerCase (duration (med m)));
      [reflexivity|].
    destruct (durationMatch daysRe (duration (med m)));
      [apply numLe_earlier; exact H | apply ratLe_earlier; exact H].
Qed.

(** X3. A record stamped active by the history is among the current
    medications, unless its duration is written in weeks or months. *)
Theorem stamped_active_is_current (now : Z) (m : MedicationRecord) :
  (durationMatch daysRe (duration (med m)) = None ->
   durationMatch weeksRe (duration (med m)) = None /\
   durationMatch monthsRe (duration (med m)) = None) ->
  isMedicationActive zone toLowerCase now (med m) (recVisitDate m) = true ->
  activeByDuration zone toLowerCase now m = true.
Proof.
  intros Hunits. rewrite activeByDuration_cases, isMedicationActive_cases.
  destruct (continuousHistory toLowerCase (duration (med m))) eqn:Eh.
  - rewrite (continuousHistory_current _ Eh). reflexivity.
  - destruct (continuousCurrent toLowerCase (duration (med m)));
      [reflexivity|].
    destruct (durationMatch daysRe (duration (med m))); [tauto|].
    destruct (Hunits eq_refl) as [-> ->]. apply ratLe_wider.
Qed.

(** X4. With an invalid visit date only a continuous keyword makes a
    prescription active. *)
Theorem invalid_visit_date (now : Z) (m : MedicationRecord) :
  recVisitDate m = None ->
  activeByDuration zone toLowerCase now m
  = continuousCurrent toLowerCase (duration (med m)) /\
  isMedicationActive zone toLowerCase now (med m) None
  = continuousHistory toLowerCase (duration (med m)).
Proof.
  intros Hd. rewrite activeByDuration_cases, isMedicationActive_cases, Hd.
  split.
  - destruct (continuousCurrent toLowerCase (duration (med m)));
      [reflexivity|].
    destruct (durationMatch daysRe (duration (med m))); [reflexivity|].
    destruct (durationMatch weeksRe (duration (med m))); [reflexivity|].
    destruct (durationMatch monthsRe (duration (med m))); reflexivity.
  - destruct (continuousHistory toLowerCase (duration (med m)));
      [reflexivity|].
    destruct (durationMatch daysRe (duration (med m))); reflexivity.
Qed.

(** X5. A duration written without a digit is never read as days, weeks
    or months: apart from the keywords only the default window counts. *)
Theorem digitless_duration (now : Z) (m : MedicationRecord) (s : jsstring) :
  duration (med m) = Some s ->
  forallb notDigit s = true ->
  activeByDuration zone toLowerCase now m
  = continuousCurrent toLowerCase (Some s)
    || ratLe (daysSince now (newDate (recVisitDate m))) 90 /\
  isMedicationActive zone toLowerCase now (med m) (recVisitDate m)
  = continuousHistory toLowerCase (Some s)
    || ratLe (daysSince now (newDate (recVisitDate m))) 30.
Proof.
  intros Hd Hs.
  assert (Hno : forall a b, durationMatch (numberUnit a b) (Some s) = None).
  { intros a b. unfold durationMatch, matchNumber.
    rewrite (exec_without_digit a b s Hs). reflexivity. }
  rewrite activeByDuration_cases, isMedicationActive_cases, Hd.
  unfold daysRe, weeksRe, monthsRe. rewrite !Hno.
  split.
  - destruct (continuousCurrent toLowerCase (Some s)); reflexivity.
  - destruct (continuousHistory toLowerCase (Some s)); reflexivity.
Qed.

(** X6. Day and week counts expire, inclusive, at the same local clock
    time the days written (seven per week) after the visit, on the
    current-medications path, and day counts likewise in the history.
    Where no clock change falls in between, that is origination plus the
    days written. *)
Theorem expiry_of_days_and_weeks
        (m : MedicationRecord) (origination n : Z) :
  recVisitDate m = Some origination ->
  validTime origination ->
  continuousCurrent toLowerCase (duration (med m)) = false ->
  (durationMatch daysRe (duration (med m)) = Some n ->
   validTime (localDaysLater zone origination n) ->
   forall now,
     (activeByDuration zone toLowerCase now m = true
      <-> now <= localDaysLater zone origination n) /\
     (isMedicationActive zone toLowerCase now (med m) (Some origination) = true
      <-> now <= localDaysLater zone origination n)) /\
  (durationMatch daysRe (duration (med m)) = None ->
   durationMatch weeksRe (duration (med m)) = Some n ->
   validTime (localDaysLater zone origination (7 * n)) ->
   forall now,
     activeByDuration zone toLowerCase now m = true
     <-> now <= localDaysLater zone origination (7 * n)) /\
  (forall k,
      sameOffsetAfter zone origination (k * msPerDay) ->
      localDaysLater zone origination k = origination + k * msPerDay).
Proof.
  intros Hdate Hvalid Hcont.
  assert (Hhist : continuousHistory toLowerCase (duration (med m)) = false).
  { destruct (continuousHistory toLowerCase (duration (med m))) eqn:E;
      [|reflexivity].
    rewrite (continuousHistory_current _ E) in Hcont. discriminate. }
  split; [|split].
  - intros Hdays Hend now.
    rewrite activeByDuration_cases, isMedicationActive_cases.
    rewrite Hcont, Hhist, Hdays, Hdate.
    rewrite (endAfterDays_local zone origination n Hvalid).
    fold (localDaysLater zone origination n).
    rewrite (TimeClip_valid _ Hend). cbn [numLe].
    rewrite Z.leb_le. tauto.
  - intros Hdays Hweeks Hend now.
    rewrite activeByDuration_cases, Hcont, Hdays, Hweeks, Hdate.
    rewrite (endAfterDays_local zone origination (n * 7) Hvalid).
    fold (localDaysLater zone origination (n * 7)).
    replace (n * 7) with (7 * n) by lia.
    rewrite (TimeClip_valid _ Hend). cbn [numLe].
    apply Z.leb_le.
  - intros k Hsame. apply UTC_sameOffset. exact Hsame.
Qed.


End EvaluatorCases.

Lemma active_at_earlier_times_witness :
  let m := recordWith (Some (u16 "5 days")) 1706702400000 in
  activeByDuration zonePlus3 asciiToLowerCase 1706788800000 m = true /\
  isMedicationActive zonePlus3 asciiToLowerCase 1706788800000 (med m)
                     (recVisitDate m) = true.
Proof.
  intros m.
  destruct (active_at_earlier_times zonePlus3 asciiToLowerCase
              1706788800000 1707134400000 m) as [Hcurrent Hhistory].
  - lia.
  - split; [apply Hcurrent | apply Hhistory]; reflexivity.
Defined.

Lemma stamped_active_is_current_witness :
  activeByDuration zonePlus3 asciiToLowerCase 1707134400000
                   (recordWith (Some (u16 "5 days")) 1706702400000) = true.
Proof.
  apply (stamped_active_is_current zonePlus3 asciiToLowerCase 1707134400000
           (recordWith (Some (u16 "5 days")) 1706702400000)).
  - intros H. vm_compute in H. discriminate H.
  - reflexivity.
Defined.

Lemma invalid_visit_date_witness :
  let m := {| med := continuousRx "Insulin"; visitId := 1;
              recVisitDate := None; doctorName := doctorUnspecified;
              doctorSpecialization := None; isActive := None |} in
  activeByDuration zoneUTC asciiToLowerCase 1706702400000 m
  = continuousCurrent asciiToLowerCase (duration (med m)) /\
  isMedicationActive zoneUTC asciiToLowerCase 1706702400000 (med m) None
  = continuousHistory asciiToLowerCase (duration (med m)).
Proof.
  intros m.
  apply (invalid_visit_date zoneUTC asciiToLowerCase 1706702400000 m).
  reflexivity.
Defined.

Lemma digitless_duration_witness :
  let s := u16 "two weeks" in
  let m := recordWith (Some s) 1706702400000 in
  activeByDuration zoneUTC asciiToLowerCase 1707134400000 m
  = continuousCurrent asciiToLowerCase (Some s)
    || ratLe (daysSince 1707134400000 (newDate (recVisitDate m))) 90 /\
  isMedicationActive zoneUTC asciiToLowerCase 1707134400000 (med m) (recVisitDate m)
  = continuousHistory asciiToLowerCase (Some s)
    || ratLe (daysSince 1707134400000 (newDate (recVisitDate m))) 30.
Proof.
  intros s m.
  apply (digitless_duration zoneUTC asciiToLowerCase 1707134400000 m s);
    reflexivity.
Defined.

Lemma expiry_of_days_and_weeks_witness :
  let origination := 1648029600000 in
  let days := recordWith (Some (u16 "5 days")) origination in
  let weeks := recordWith (Some (u16 "2 weeks")) origination in
  activeByDuration springForward2022 asciiToLowerCase
                   (origination + 5 * msPerDay - msPerHour) days = true /\
  isMedicationActive springForward2022 asciiToLowerCase
                     (origination + 5 * msPerDay - msPerHour) (med days)
                     (Some origination) = true /\
  activeByDuration springForward2022 asciiToLowerCase
                   (origination + 14 * msPerDay - msPerHour) weeks = true.
Proof.
  intros origination days weeks.
  assert (Hv : validTime origination)
    by (unfold validTime, maxTime, origination; simpl; lia).
  destruct (expiry_of_days_and_weeks springForward2022 asciiToLowerCase days
              origination 5 eq_refl Hv eq_refl) as (Hdays & _ & _).
  destruct (expiry_of_days_and_weeks springForward2022 asciiToLowerCase weeks
              origination 2 eq_refl Hv eq_refl) as (_ & Hweeks & _).
  split; [|split].
  - apply Hdays; [reflexivity | | vm_compute; discriminate].
    unfold validTime. vm_compute. discriminate.
  - apply Hdays; [reflexivity | | vm_compute; discriminate].
    unfold validTime. vm_compute. discriminate.
  - apply Hweeks; [reflexivity | reflexivity | | vm_compute; discriminate].
    unfold validTime. vm_compute. discriminate.
Defined.


(** ** Calendar months *)












(** ** Names counted once *)

Lemma existsb_eqb_In (x : jsstring) (seen : list jsstring) :
  existsb (JsString.eqb x) seen = true <-> In x seen.
Proof.
  rewrite existsb_exists. split.
  - intros (y & Hy & E). apply eqb_eq in E. subst. exact Hy.
  - intros H. exists x. split; [exact H | apply eqb_refl].
Qed.

Lemma distinct_In (l seen : list jsstring) (x : jsstring) :
  In x (distinct seen l) <-> In x l /\ ~ In x seen.
Proof.
  revert seen. induction l as [|y l IH]; intros seen.
  - cbn. tauto.
  - cbn [distinct].
    destruct (existsb (JsString.eqb y) seen) eqn:E.
    + apply existsb_eqb_In in E. rewrite IH. cbn [In].
      split; [tauto|]. intros [[-> | H] Hn]; [contradiction | tauto].
    + assert (Hy : ~ In y seen).
      { intros H. apply existsb_eqb_In in H. congruence. }
      cbn [In]. rewrite IH. cbn [In].
      destruct (list_eq_dec Z.eq_dec y x) as [-> | Hne]; [tauto|].
      split; [intros [H | [H1 H2]]; [contradiction | tauto]|].
      intros [[H | H] Hn]; [contradiction|]. right. tauto.
Qed.

Lemma distinct_NoDup (l seen : list jsstring) : NoDup (distinct seen l).
Proof.
  revert seen. induction l as [|y l IH]; intros seen.
  - constructor.
  - cbn [distinct]. destruct (existsb (JsString.eqb y) seen); [apply IH|].
    constructor; [|apply IH].
    rewrite distinct_In. cbn [In]. tauto.
Qed.

Lemma distinct_length (l seen : list jsstring) :
  (List.length (distinct seen l) <= List.length l)%nat.
Proof.
  revert seen. induction l as [|y l IH]; intros seen; [cbn; lia|].
  cbn [distinct]. destruct (existsb (JsString.eqb y) seen); cbn [List.length].
  - specialize (IH seen). lia.
  - specialize (IH (y :: seen)). lia.
Qed.

(** X9. The statistics of the history.  The total is the number of records
    listed; the active count is the number of records whose prescription
    isMedicationActive accepts and never exceeds the total; the unique
    count is the number of different names, each counted once, and is zero
    only for an empty history. *)
Theorem history_statistics
        (zone : timezone) (toLowerCase : jsstring -> jsstring) (now : Z)
        (filterName : option jsstring) (page limit : Z)
        (q : QueryOutcome) (c : CountOutcome)
        (h : list MedicationRecord) :
  history (getMedicationHistory zone toLowerCase now filterName page limit
                                q c) = Some h ->
  exists st names,
    statistics (getMedicationHistory zone toLowerCase now filterName
                                     page limit q c)
    = Some st /\
    totalPrescriptions st = List.length h /\
    activeMedications st =
    List.length
      (filter (fun r => isMedicationActive zone toLowerCase now (med r)
                                           (recVisitDate r)) h) /\
    (activeMedications st <= totalPrescriptions st)%nat /\
    NoDup names /\
    (forall x, In x names <-> exists r, In r h /\ medicationName (med r) = x) /\
    uniqueMedications st = List.length names /\
    (uniqueMedications st <= totalPrescriptions st)%nat /\
    (uniqueMedications st = 0%nat <-> h = []).
Proof.
  destruct q as [visits|]; [|discriminate].
  destruct c as [matching|]; [|discriminate].
  cbn [getMedicationHistory history statistics]. intros H. injection H as <-.
  set (h := collectHistory zone toLowerCase now filterName visits).
  set (names := distinct [] (map (fun m => medicationName (med m)) h)).
  eexists. exists names. split; [reflexivity|].
  cbn [totalPrescriptions activeMedications uniqueMedications].
  assert (Hstamp : forall r, In r h ->
             stampedActive r
             = isMedicationActive zone toLowerCase now (med r) (recVisitDate r)).
  { intros r Hr. unfold h, collectHistory in Hr.
    apply in_flat_map in Hr. destruct Hr as (v & _ & Hr).
    apply in_map_iff in Hr. destruct Hr as (p & <- & _). reflexivity. }
  assert (Hnames : forall x,
             In x names <-> exists r, In r h /\ medicationName (med r) = x).
  { intros x. unfold names. rewrite distinct_In, in_map_iff. cbn [In].
    split; [intros [(r & E & Hr) _]; eauto | intros (r & Hr & E); eauto]. }
  repeat split.
  - f_equal. apply filter_ext_in. exact Hstamp.
  - apply filter_length_le.
  - apply distinct_NoDup.
  - apply Hnames.
  - apply Hnames.
  - fold names. unfold names.
    rewrite <- (length_map (fun m => medicationName (med m)) h).
    apply distinct_length.
  - fold names. intros E. destruct h as [|r h']; [reflexivity|].
    exfalso. destruct names as [|x xs] eqn:En; [|discriminate].
    apply (proj2 (Hnames (medicationName (med r)))).
    exists r. split; [left; reflexivity | reflexivity].
  - fold names. intros E.
    destruct names as [|x xs] eqn:En; [reflexivity|].
    exfalso. destruct (proj1 (Hnames x) (or_introl eq_refl)) as (r & Hr & _).
    rewrite E in Hr. destruct Hr.
Qed.

Lemma history_statistics_witness :
  let q := Found [visitWith ["Aspirin"; "aspirin"; "Aspirin"]%string] in
  exists st,
    statistics (getMedicationHistory zoneUTC asciiToLowerCase
                                     1706702400000 None 1 50 q (Counted 1))
    = Some st /\
    totalPrescriptions st = 3%nat /\
    activeMedications st = 3%nat /\
    uniqueMedications st <> 0%nat.
Proof.
  intros q.
  destruct (history_statistics zoneUTC asciiToLowerCase
              1706702400000 None 1 50 q (Counted 1) _ eq_refl)
    as (st & names & Hst & Htotal & Hactive & _ & _ & _ & _ & _ & Hzero).
  exists st. split; [exact Hst|]. split; [rewrite Htotal; reflexivity|].
  split; [rewrite Hactive; reflexivity|].
  intros E. apply Hzero in E. discriminate E.
Defined.

(** At its own position a string is found by [indexOf] exactly when it
    does not stand earlier. *)
Lemma indexOf_own_position (pre rest : list jsstring) (x : jsstring) :
  indexOf (pre ++ x :: rest) x = Z.of_nat (List.length pre) <-> ~ In x pre.
Proof.
  assert (Hk : nth_error (pre ++ x :: rest) (List.length pre) = Some x).
  { rewrite nth_error_app2 by lia. rewrite Nat.sub_diag. reflexivity. }
  destruct (indexOf_first _ _ _ Hk) as (j & Hj & Hle & Hnth & Hmin).
  rewrite Hj. split.
  - intros E Hin. apply Nat2Z.inj in E. subst j.
    apply In_nth_error in Hin. destruct Hin as (i & Hi).
    assert (Hlt : (i < List.length pre)%nat).
    { apply nth_error_Some. rewrite Hi. discriminate. }
    apply (Hmin i Hlt). rewrite nth_error_app1 by exact Hlt. exact Hi.
  - intros Hnot. f_equal.
    destruct (Nat.eq_dec j (List.length pre)) as [E|E]; [exact E|].
    exfalso. apply Hnot.
    rewrite nth_error_app1 in Hnth by lia.
    apply nth_error_In in Hnth. exact Hnth.
Qed.

Lemma duplicates_and_distinct (pre rest seen : list jsstring) :
  (forall y, In y seen <-> In y pre) ->
  (List.length (duplicatesFrom (pre ++ rest) (Z.of_nat (List.length pre)) rest)
   + List.length (distinct seen rest) = List.length rest)%nat.
Proof.
  revert pre seen. induction rest as [|x rest IH]; intros pre seen Hseen.
  - reflexivity.
  - cbn [duplicatesFrom distinct].
    assert (Hnext : pre ++ x :: rest = (pre ++ [x]) ++ rest)
      by (rewrite <- app_assoc; reflexivity).
    assert (Hlen : Z.of_nat (List.length pre) + 1
                   = Z.of_nat (List.length (pre ++ [x])))
      by (rewrite length_app; cbn; lia).
    rewrite Hlen.
    destruct (Z.eqb_spec (indexOf (pre ++ x :: rest) x)
                         (Z.of_nat (List.length pre))) as [E|E].
    + (* first occurrence *)
      apply indexOf_own_position in E.
      assert (Hs : existsb (JsString.eqb x) seen = false).
      { destruct (existsb (JsString.eqb x) seen) eqn:Ex; [|reflexivity].
        apply existsb_eqb_In in Ex. apply Hseen in Ex. contradiction. }
      rewrite Hs. cbn [negb List.length]. rewrite Hnext.
      rewrite <- (IH (pre ++ [x]) (x :: seen)); [lia|].
      intros y. cbn [In]. rewrite in_app_iff, Hseen. cbn [In]. tauto.
    + assert (Hin : In x pre).
      { destruct (in_dec (list_eq_dec Z.eq_dec) x pre) as [H|H]; [exact H|].
        apply indexOf_own_position with (rest := rest) in H. contradiction. }
      assert (Hs : existsb (JsString.eqb x) seen = true)
        by (apply existsb_eqb_In, Hseen; exact Hin).
      rewrite Hs. cbn [negb List.length]. rewrite Hnext.
      rewrite <- (IH (pre ++ [x]) seen); [lia|].
      intros y. rewrite in_app_iff, Hseen. cbn [In].
      split; [tauto|]. intros [H | [<- | []]]; [exact H | exact Hin].
Qed.

(** X10. The list of the DUPLICATE warning has one entry for every active
    medication beyond the first of its name: its length is the number of
    names minus the number of different names. *)
Theorem duplicates_count (names : list jsstring) :
  (List.length (duplicatesFrom names 0 names)
   + List.length (distinct [] names) = List.length names)%nat /\
  NoDup (distinct [] names) /\
  (forall x, In x (distinct [] names) <-> In x names).
Proof.
  split; [|split].
  - apply (duplicates_and_distinct [] names []). tauto.
  - apply distinct_NoDup.
  - intros x. rewrite distinct_In. cbn [In]. tauto.
Qed.

(** ** How the two aggregators relate *)

Lemma filter_filter_and {A : Type} (f g : A -> bool) (l : list A) :
  filter f (filter g l) = filter (fun x => g x && f x) l.
Proof.
  induction l as [|x l IH]; [reflexivity|].
  cbn [filter]. destruct (g x); cbn [filter andb]; [|exact IH].
  destruct (f x); rewrite IH; reflexivity.
Qed.

(** X11. The name filter of the history keeps, in place, exactly the
    records whose medication name contains the text asked for; an empty
    text filters nothing. *)
Theorem history_name_filter
        (zone : timezone) (toLowerCase : jsstring -> jsstring) (now : Z)
        (name : jsstring) (page limit : Z) (q : QueryOutcome)
        (c : CountOutcome) :
  history (getMedicationHistory zone toLowerCase now (Some name) page limit
                                q c)
  = option_map
      (filter (fun r =>
                 match name with
                 | [] => true
                 | _ :: _ => includes (medicationName (med r)) name
                 end))
      (history (getMedicationHistory zone toLowerCase now None page limit
                                     q c)).
Proof.
  destruct q as [visits|]; [|reflexivity].
  destruct c as [matching|]; [|reflexivity].
  cbn [getMedicationHistory history option_map]. f_equal.
  unfold collectHistory. rewrite filter_flat_map.
  apply flat_map_ext. intros v.
  rewrite filter_map_swap. f_equal.
  rewrite filter_filter_and. apply filter_ext. intros p.
  destruct name as [|c name]; [reflexivity|].
  unfold nameSelected. cbn [truthy andb negb withVisitStamped med].
  apply negb_involutive.
Qed.

(** X12. When the find of the history gives back the visits that the
    find of getCurrentMedications gives back (no date filter, a page that
    holds them all) and its count succeeds, the current medications are
    the records of the unfiltered history, without their stamps, that
    filterActiveMedications keeps, in the same order, and both functions
    succeed.  A rejected find fails either function; a rejected count
    fails the history alone. *)
Theorem current_from_history
        (zone : timezone) (toLowerCase : jsstring -> jsstring) (now : Z)
        (page limit matching : Z) (visits : list Visit) :
  let current := getCurrentMedications zone toLowerCase now in
  let past := getMedicationHistory zone toLowerCase now None page limit in
  medications (current (Found visits))
  = option_map
      (fun h => filter (activeByDuration zone toLowerCase now) (map unstamp h))
      (history (past (Found visits) (Counted matching))) /\
  cSuccess (current (Found visits)) = true /\
  hSuccess (past (Found visits) (Counted matching)) = true /\
  hSuccess (past (Found visits) CountRejected) = false /\
  cSuccess (current Rejected) = false /\
  (forall c, hSuccess (past Rejected c) = false).
Proof.
  intros current past.
  split; [|split; [|repeat split]].
  - unfold current, past. cbn [getMedicationHistory history option_map].
    assert (E : map unstamp (collectHistory zone toLowerCase now None visits)
                = collectMedications visits).
    { unfold collectHistory, collectMedications.
      induction visits as [|v vs IH]; [reflexivity|].
      cbn [flat_map]. rewrite map_app, IH. f_equal.
      rewrite map_map.
      assert (F : filter (nameSelected None) (visitMedications v)
                  = visitMedications v).
      { induction (visitMedications v) as [|p ps IHp]; [reflexivity|].
        cbn. f_equal. exact IHp. }
      rewrite F. apply map_ext. reflexivity. }
    rewrite E. unfold getCurrentMedications.
    destruct visits as [|v vs]; reflexivity.
  - unfold current. cbn. destruct (List.length visits =? 0)%nat; reflexivity.
Qed.

(** X13. Whatever the lookup gives, the checker answers with success, an
    empty interactions list and at most one warning of each kind, the
    duplicate one first; the medication count is present exactly when
    there is an active medication, and then is their number. *)
Theorem checker_report_shape
        (zone : timezone) (toLowerCase : jsstring -> jsstring) (now : Z)
        (q : QueryOutcome) :
  let r := checkMedicationInteractions zone toLowerCase now q in
  iSuccess r = true /\
  interactions r = Some [] /\
  iMessage r = None /\
  (exists ws,
      warnings r = Some ws /\
      (List.length (filter isDuplicate ws) <= 1)%nat /\
      (List.length (filter isPolypharmacy ws) <= 1)%nat /\
      ws = filter isDuplicate ws ++ filter isPolypharmacy ws) /\
  medicationCount r =
  match medications (getCurrentMedications zone toLowerCase now q) with
  | Some (m :: l) => Some (List.length (m :: l))
  | _ => None
  end.
Proof.
  destruct q as [visits|].
  2:{ cbn. repeat split. exists []. repeat split; cbn; lia. }
  unfold checkMedicationInteractions.
  destruct (getCurrentMedications zone toLowerCase now (Found visits))
    as [s ms cnt msg] eqn:E.
  assert (Hs : s = true /\ exists l, ms = Some l).
  { unfold getCurrentMedications in E.
    destruct (List.length visits =? 0)%nat; injection E as <- <- _ _;
      split; eauto. }
  destruct Hs as [-> (l & ->)]. cbn [cSuccess medications negb].
  destruct l as [|m l].
  - cbn. repeat split. exists []. repeat split; cbn; lia.
  - cbn [List.length Nat.eqb iSuccess interactions iMessage warnings
         medicationCount].
    repeat split. eexists. split; [reflexivity|].
    rewrite !filter_app, no_polypharmacy_in_duplicate,
      no_duplicate_in_polypharmacy, app_nil_r. cbn [app].
    unfold duplicateWarning, polypharmacyWarning.
    destruct (0 <? _)%nat; destruct (5 <=? _)%nat; cbn; repeat split; lia.
Qed.

(* ================================================================== *)
(** * Further properties of the upload paths *)
(* ================================================================== *)

Import DoctorRequestFiles.

(** ** What path.extname returns *)

Import ExtnameTerms.

Lemma extStep_invariant (path pre : jsstring) (c : codeunit) (st : ExtScan) :
  nth (List.length pre) path 0 = c ->
  extInvariant path (pre ++ [c]) st ->
  extInvariant path pre (extStep st (Z.of_nat (List.length pre)) c).
Proof.
  intros Hc (Ha & Hb & Hd).
  rewrite length_app in Hb, Hd. cbn [List.length] in Hb, Hd.
  destruct st as [sd sp ep ms pd stp].
  unfold extStep, extInvariant.
  cbn [stopped startDot startPart endPos matchedSlash preDotState] in *.
  destruct stp.
  { (* the scan has stopped *)
    cbn [stopped startDot endPos matchedSlash].
    repeat split; try discriminate; intros; apply Hd; assumption. }
  specialize (Ha eq_refl).
  destruct (Z.eqb_spec c SLASH) as [Hs|Hs].
  { destruct ms; cbn [negb].
    - assert (Hep : ep = -1) by (apply Ha; reflexivity).
      cbn [stopped startDot endPos matchedSlash].
      split; [intros _; exact Ha|]. split; [intros _ E; contradiction|].
      intros Hsd. exfalso. destruct (Hd Hsd) as [? _]. lia.
    - cbn [stopped startDot endPos matchedSlash].
      repeat split; try discriminate; intros; apply Hd; assumption. }
  (* an ordinary character *)
  set (i := Z.of_nat (List.length pre)) in *.
  set (e := if ep =? -1 then i + 1 else ep).
  set (m' := if ep =? -1 then false else ms).
  assert (Hregion : e <> -1 /\ i < e /\
                    forall j, (List.length pre <= j)%nat -> Z.of_nat j < e ->
                              nth j path 0 <> SLASH).
  { unfold e. destruct (Z.eqb_spec ep (-1)) as [E|E].
    - repeat split; try (unfold i; lia).
      intros j Hj1 Hj2. replace j with (List.length pre) by (unfold i in *; lia).
      rewrite Hc. exact Hs.
    - destruct (Hb eq_refl E) as [Hle Hreg].
      repeat split; [exact E | unfold i; lia |].
      intros j Hj1 Hj2.
      destruct (Nat.eq_dec j (List.length pre)) as [->|Hne];
        [rewrite Hc; exact Hs | apply Hreg; lia]. }
  destruct Hregion as (He & Hie & Hreg).
  assert (Ha' : m' = true <-> e = -1).
  { unfold m', e. destruct (Z.eqb_spec ep (-1)) as [E|E]; [split; [discriminate | lia]|].
    rewrite Ha. tauto. }
  assert (Hkeep : sd <> -1 ->
                  0 <= sd < e /\ i <= sd /\
                  forall j, sd <= Z.of_nat j < e -> nth j path 0 <> SLASH).
  { intros Hsd. destruct (Hd Hsd) as (H1 & H2 & H3).
    assert (E : ep <> -1) by lia.
    unfold e. destruct (Z.eqb_spec ep (-1)); [contradiction|].
    specialize (H2 eq_refl). repeat split; try lia. exact H3. }
  assert (Hfin : forall sd',
             (sd' <> -1 ->
              0 <= sd' < e /\ i <= sd' /\
              forall j, sd' <= Z.of_nat j < e -> nth j path 0 <> SLASH) ->
             (false = false -> (m' = true <-> e = -1)) /\
             (false = false -> e <> -1 ->
              i <= e /\
              forall j, (List.length pre <= j)%nat -> Z.of_nat j < e ->
                        nth j path 0 <> SLASH) /\
             (sd' <> -1 ->
              0 <= sd' < e /\ (false = false -> i <= sd') /\
              forall j, sd' <= Z.of_nat j < e -> nth j path 0 <> SLASH)).
  { intros sd' H. split; [intros _; exact Ha'|].
    split; [intros _ _; split; [lia | exact Hreg]|].
    intros Hsd'. destruct (H Hsd') as (A & B & C).
    split; [exact A|]. split; [intros _; exact B | exact C]. }
  destruct (Z.eqb_spec c DOT) as [Hdot|Hdot].
  - destruct (Z.eqb_spec sd (-1)) as [Hsd|Hsd];
      cbn [stopped startDot endPos matchedSlash].
    + apply (Hfin i). intros _. split; [unfold i; lia|]. split; [lia|].
      intros j Hj. apply Hreg; unfold i in *; lia.
    + apply (Hfin sd). exact Hkeep.
  - destruct (Z.eqb_spec sd (-1)) as [Hsd|Hsd];
      cbn [negb stopped startDot endPos matchedSlash];
      apply (Hfin sd); exact Hkeep.
Qed.

Lemma extScan_invariant (path suf pre : jsstring) (st : ExtScan) :
  path = pre ++ suf ->
  extInvariant path pre st ->
  extInvariant path [] (extScan st (rev pre)).
Proof.
  revert suf st. induction pre as [|c pre IH] using rev_ind; intros suf st Hp Hinv.
  - exact Hinv.
  - rewrite rev_app_distr. cbn [rev app extScan]. rewrite length_rev.
    apply (IH (c :: suf)).
    + rewrite Hp, <- app_assoc. reflexivity.
    + apply extStep_invariant; [|exact Hinv].
      rewrite Hp, <- app_assoc. cbn [app]. apply nth_middle.
Qed.

Lemma extInit_invariant (path : jsstring) : extInvariant path path extInit.
Proof.
  unfold extInvariant, extInit.
  cbn [stopped startDot endPos matchedSlash].
  repeat split; intros; try reflexivity; try contradiction.
Qed.

Lemma In_slice (a b : Z) (s : jsstring) (x : codeunit) :
  0 <= a ->
  In x (slice a b s) ->
  exists j, a <= Z.of_nat j < b /\ nth j s 0 = x.
Proof.
  intros Ha Hin. unfold slice in Hin.
  apply (In_nth _ _ 0) in Hin. destruct Hin as (k & Hk & Hx).
  rewrite length_firstn in Hk.
  rewrite nth_firstn in Hx.
  destruct (Nat.ltb_spec k (Z.to_nat (b - a))) as [Hlt|Hge]; [|lia].
  rewrite nth_skipn in Hx.
  exists (Z.to_nat a + k)%nat. split; [lia | exact Hx].
Qed.

(** What [extname] returns never holds a path separator, whatever the
    path. *)
Lemma extname_no_separator (path : jsstring) :
  forallb notSlash (extname path) = true.
Proof.
  pose proof (extScan_invariant path [] path extInit
                (eq_sym (app_nil_r path)) (extInit_invariant path))
    as (_ & _ & Hd).
  unfold extname.
  set (st := extScan extInit (rev path)) in *.
  destruct (Z.eqb_spec (startDot st) (-1)) as [E|E]; [reflexivity|].
  cbn [orb].
  destruct ((endPos st =? -1) || (preDotState st =? 0) ||
            (preDotState st =? 1) && (startDot st =? endPos st - 1) &&
            (startDot st =? startPart st + 1)); [reflexivity|].
  destruct (Hd E) as (Hrange & _ & Hreg).
  apply forallb_forall. intros x Hx.
  apply In_slice in Hx; [|lia]. destruct Hx as (j & Hj & <-).
  unfold notSlash. apply negb_true_iff, Z.eqb_neq. apply Hreg. exact Hj.
Qed.

(** ** Directory and file name put together *)

Lemma filter_clean_nonempty (segs : list jsstring) :
  forallb cleanSegment segs = true ->
  filter (fun a => negb (JsString.eqb a [])) segs = segs.
Proof.
  induction segs as [|s segs IH]; [reflexivity|]. intros H.
  cbn [forallb] in H. apply andb_true_iff in H. destruct H as [Hs Hrest].
  cbn [filter]. unfold cleanSegment in Hs. rewrite !andb_true_iff in Hs.
  destruct Hs as [[[H1 _] _] _]. rewrite H1, (IH Hrest). reflexivity.
Qed.

Lemma normalize_clean (segs : list jsstring) :
  segs <> [] ->
  forallb cleanSegment segs = true ->
  normalize (joinWith SLASH segs) = joinWith SLASH segs.
Proof.
  intros Hne Hclean. rewrite <- (join_clean segs Hne Hclean) at 2.
  unfold join. rewrite (filter_clean_nonempty segs Hclean).
  destruct segs; [contradiction | reflexivity].
Qed.

Lemma joinWith_snoc (segs : list jsstring) (f : jsstring) :
  segs <> [] ->
  joinWith SLASH (segs ++ [f]) = joinWith SLASH segs ++ SLASH :: f.
Proof.
  induction segs as [|s segs IH]; [contradiction|]. intros _.
  destruct segs as [|s2 rest].
  - reflexivity.
  - change (joinWith SLASH ((s :: s2 :: rest) ++ [f]))
      with (s ++ SLASH :: joinWith SLASH ((s2 :: rest) ++ [f])).
    rewrite IH by discriminate.
    change (joinWith SLASH (s :: s2 :: rest))
      with (s ++ SLASH :: joinWith SLASH (s2 :: rest)).
    rewrite <- app_assoc. reflexivity.
Qed.

Lemma joinWith_nonempty (segs : list jsstring) :
  segs <> [] ->
  forallb cleanSegment segs = true ->
  joinWith SLASH segs <> [].
Proof.
  destruct segs as [|s segs]; [contradiction|]. intros _ H.
  cbn [forallb] in H. apply andb_true_iff in H. destruct H as [Hs _].
  apply nonempty_of_clean in Hs.
  destruct s; [contradiction|]. destruct segs; discriminate.
Qed.

(** Joining a directory of clean segments with a clean file name puts one
    separator between them. *)
Lemma join_directory_file (segs : list jsstring) (f : jsstring) :
  segs <> [] ->
  forallb cleanSegment segs = true ->
  cleanSegment f = true ->
  join [joinWith SLASH segs; f] = joinWith SLASH segs ++ SLASH :: f.
Proof.
  intros Hne Hclean Hf.
  pose proof (joinWith_nonempty segs Hne Hclean) as Hd.
  pose proof (nonempty_of_clean f Hf) as Hfn.
  unfold join. cbn [filter].
  destruct (joinWith SLASH segs) as [|c d] eqn:Ed; [contradiction|].
  destruct f as [|x f'] eqn:Ef; [contradiction|].
  cbn [JsString.eqb negb].
  change (joinWith SLASH [c :: d; x :: f'])
    with ((c :: d) ++ SLASH :: x :: f').
  rewrite <- Ed, <- (joinWith_snoc segs (x :: f') Hne).
  apply normalize_clean.
  - destruct segs; discriminate.
  - rewrite forallb_app, Hclean. cbn [forallb]. rewrite Hf. reflexivity.
Qed.

Lemma padStart0_notSlash (w : nat) (s : jsstring) :
  forallb isDigit s = true -> forallb notSlash (padStart0 w s) = true.
Proof.
  intros H. apply digit_notSlash. unfold padStart0.
  rewrite forallb_app. apply andb_true_iff.
  split; [apply repeat_digits | exact H].
Qed.

Lemma toISOString_notSlash (t : Z) : forallb notSlash (toISOString t) = true.
Proof.
  unfold toISOString.
  repeat (rewrite forallb_app; apply andb_true_iff; split);
    try reflexivity;
    try (apply padStart0_notSlash, natToString_digits).
  unfold isoYear. destruct ((0 <=? _) && _).
  - apply padStart0_notSlash, natToString_digits.
  - cbn [forallb]. rewrite padStart0_notSlash by apply natToString_digits.
    destruct (_ <? 0); reflexivity.
Qed.

Lemma timestampOf_notSlash (now : Z) :
  forallb notSlash (timestampOf now) = true.
Proof.
  rewrite timestamp_keeps_milliseconds.
  pose proof (toISOString_notSlash now) as H.
  induction (toISOString now) as [|c s IH]; [reflexivity|].
  cbn [forallb] in H. apply andb_true_iff in H. destruct H as [Hc Hs].
  cbn [replaceAll map forallb].
  fold (replaceAll (fun c => (c =? 58) || (c =? 46)) 45 s).
  rewrite (IH Hs), andb_true_r.
  destruct ((c =? 58) || (c =? 46)); [reflexivity | exact Hc].
Qed.

Lemma intToString_notSlash (n : Z) : forallb notSlash (intToString n) = true.
Proof. apply cleanSegment_notSlash, intToString_clean. Qed.

(** A name holding an underscore and no separator is a clean segment. *)
Lemma underscore_clean (a b : jsstring) :
  forallb notSlash a = true -> forallb notSlash b = true ->
  cleanSegment (a ++ 95 :: b) = true.
Proof.
  intros Ha Hb. unfold cleanSegment.
  assert (Hns : forallb notSlash (a ++ 95 :: b) = true).
  { rewrite forallb_app, Ha. cbn [forallb]. rewrite Hb. reflexivity. }
  assert (Hno : forall d, ~ In 95 d -> JsString.eqb (a ++ 95 :: b) d = false).
  { intros d Hd. destruct (JsString.eqb (a ++ 95 :: b) d) eqn:E; [|reflexivity].
    apply eqb_eq in E. exfalso. apply Hd. rewrite <- E.
    apply in_or_app. right. left. reflexivity. }
  rewrite Hns, !Hno; [reflexivity | | |];
    cbn [In]; unfold DOT; intros H; repeat destruct H as [H|H]; lia.
Qed.

Lemma forallb_firstn_skipn {A : Type} (p : A -> bool) (n : nat) (s : list A) :
  forallb p s = true ->
  forallb p (firstn n s) = true /\ forallb p (skipn n s) = true.
Proof.
  intros H. rewrite <- (firstn_skipn n s), forallb_app in H.
  apply andb_true_iff in H. exact H.
Qed.

Lemma directory_of_clean (zone : timezone) (uploadType patientId originalFilename : jsstring)
      (now : Z) (randomText : jsstring) :
  forallb notSlash uploadType = true ->
  forallb notSlash patientId = true ->
  directory (generateFilePath zone uploadType patientId originalFilename
                              now randomText)
  = joinWith SLASH
      [u16 "uploads"; uploadType ++ u16 "s";
       intToString (YearFromTime (LocalTime zone now)); monthText zone now;
       u16 "patient_" ++ patientId] /\
  forallb cleanSegment
      [u16 "uploads"; uploadType ++ u16 "s";
       intToString (YearFromTime (LocalTime zone now)); monthText zone now;
       u16 "patient_" ++ patientId] = true.
Proof.
  intros Htype Hid.
  destruct (monthText_two_digits zone now) as (_ & _ & Hmonth).
  assert (Hclean : forallb cleanSegment
      [u16 "uploads"; uploadType ++ u16 "s";
       intToString (YearFromTime (LocalTime zone now)); monthText zone now;
       u16 "patient_" ++ patientId] = true).
  { cbn [forallb].
    rewrite (typeSegment_clean _ Htype), (intToString_clean _), Hmonth,
      (patientSegment_clean _ Hid). reflexivity. }
  split; [|exact Hclean].
  unfold generateFilePath. cbn [directory]. fold (monthText zone now).
  apply join_clean; [discriminate | exact Hclean].
Qed.

Lemma generated_filename_clean
      (zone : timezone) (uploadType patientId originalFilename : jsstring)
      (now : Z) (randomText : jsstring) :
  forallb notSlash uploadType = true ->
  forallb notSlash randomText = true ->
  cleanSegment (filename (generateFilePath zone uploadType patientId
                                           originalFilename now randomText))
  = true.
Proof.
  intros Htype Hrandom.
  assert (Htoken : forallb notSlash (substring 2 10 randomText) = true).
  { unfold substring.
    apply forallb_firstn_skipn, forallb_firstn_skipn. exact Hrandom. }
  unfold generateFilePath. cbn [filename].
  apply underscore_clean; [exact Htype|].
  rewrite !forallb_app, timestampOf_notSlash, Htoken, extname_no_separator.
  reflexivity.
Qed.

(** X14. The file name generateFilePath builds never holds a path
    separator, whatever the uploaded file was called, so the file lands
    directly in the patient's directory: the full path is the directory,
    one separator and the file name. *)
Theorem upload_stays_in_patient_directory
        (zone : timezone) (uploadType patientId originalFilename : jsstring)
        (now : Z) (randomText : jsstring) :
  forallb notSlash uploadType = true ->
  forallb notSlash patientId = true ->
  forallb notSlash randomText = true ->
  let r := generateFilePath zone uploadType patientId originalFilename
                            now randomText in
  forallb notSlash (filename r) = true /\
  fullPath r = directory r ++ SLASH :: filename r /\
  directory r = expectedDirectory zone uploadType patientId now.
Proof.
  intros Htype Hid Hrandom r.
  destruct (directory_of_clean zone uploadType patientId originalFilename
                               now randomText Htype Hid) as [Hdir Hclean].
  fold r in Hdir.
  assert (Hfile : cleanSegment (filename r) = true)
    by (apply generated_filename_clean; assumption).
  split; [apply cleanSegment_notSlash; exact Hfile|].
  split.
  - change (fullPath r) with (join [directory r; filename r]).
    rewrite Hdir. apply join_directory_file; [discriminate | exact Hclean | exact Hfile].
  - rewrite Hdir. apply directory_text.
Qed.

Lemma upload_stays_in_patient_directory_witness :
  let r := generateFilePath zoneUTC (u16 "visit") (u16 "12345678901")
                            (u16 "../../etc/passwd.png") sampleTime
                            (u16 "0.abc12345xyz") in
  forallb notSlash (filename r) = true /\
  fullPath r = directory r ++ SLASH :: filename r /\
  directory r = expectedDirectory zoneUTC (u16 "visit") (u16 "12345678901")
                                  sampleTime.
Proof.
  apply (upload_stays_in_patient_directory zoneUTC (u16 "visit") (u16 "12345678901")
           (u16 "../../etc/passwd.png") sampleTime (u16 "0.abc12345xyz"));
    reflexivity.
Defined.

(** The text before the first separator of a path is determined by the
    path. *)
Lemma split_at_first_separator (a b x y : jsstring) :
  forallb notSlash a = true -> forallb notSlash b = true ->
  a ++ SLASH :: x = b ++ SLASH :: y -> a = b /\ x = y.
Proof.
  revert b. induction a as [|c a IH]; intros b Ha Hb E.
  - destruct b as [|d b]; [injection E as ->; split; reflexivity|].
    cbn [app] in E. injection E as <- _.
    cbn [forallb] in Hb. discriminate.
  - destruct b as [|d b].
    + cbn [app] in E. injection E as -> _. cbn [forallb] in Ha. discriminate.
    + cbn [app] in E. injection E as -> E.
      cbn [forallb] in Ha, Hb.
      apply andb_true_iff in Ha. apply andb_true_iff in Hb.
      destruct (IH b (proj2 Ha) (proj2 Hb) E) as [-> ->].
      split; reflexivity.
Qed.

(** X15. For one time, the directory tells the upload type and the owner:
    two uploads share a directory only if they agree on both. *)
Theorem directory_determines_type_and_owner
        (zone : timezone) (type1 type2 id1 id2 name1 name2 : jsstring)
        (now : Z) (random1 random2 : jsstring) :
  forallb notSlash type1 = true -> forallb notSlash type2 = true ->
  forallb notSlash id1 = true -> forallb notSlash id2 = true ->
  directory (generateFilePath zone type1 id1 name1 now random1)
  = directory (generateFilePath zone type2 id2 name2 now random2) ->
  type1 = type2 /\ id1 = id2.
Proof.
  intros Ht1 Ht2 Hi1 Hi2.
  destruct (directory_of_clean zone type1 id1 name1 now random1 Ht1 Hi1)
    as [-> _].
  destruct (directory_of_clean zone type2 id2 name2 now random2 Ht2 Hi2)
    as [-> _].
  rewrite !directory_text. intros E.
  apply app_inv_head in E.
  change (type1 ++ u16 "s/" ++ ?x) with (type1 ++ u16 "s/" ++ x) in E.
  assert (E' : (type1 ++ u16 "s") ++ SLASH ::
               (intToString (YearFromTime (LocalTime zone now)) ++ u16 "/" ++
                monthText zone now ++ u16 "/patient_" ++ id1)
               = (type2 ++ u16 "s") ++ SLASH ::
               (intToString (YearFromTime (LocalTime zone now)) ++ u16 "/" ++
                monthText zone now ++ u16 "/patient_" ++ id2)).
  { rewrite <- !app_assoc. exact E. }
  apply split_at_first_separator in E'.
  - destruct E' as [Et Er].
    apply app_inv_tail in Et. subst type2. split; [reflexivity|].
    apply app_inv_head in Er. apply app_inv_head in Er.
    apply app_inv_head in Er. apply app_inv_head in Er. exact Er.
  - rewrite forallb_app, Ht1. reflexivity.
  - rewrite forallb_app, Ht2. reflexivity.
Qed.

Lemma directory_determines_type_and_owner_witness :
  u16 "visit" = u16 "visit" /\ u16 "11" = u16 "11".
Proof.
  apply (directory_determines_type_and_owner zoneUTC (u16 "visit") (u16 "visit")
           (u16 "11") (u16 "11") (u16 "a.png") (u16 "b.pdf") sampleTime
           (u16 "0.aaaaaaaaaa") (u16 "0.bbbbbbbbbb")); reflexivity.
Defined.

(** ** Doctor-request files *)

Lemma pendingSegments_clean (requestId : jsstring) :
  forallb notSlash requestId = true ->
  forallb cleanSegment
    [u16 "uploads"; u16 "doctor-requests"; u16 "pending";
     u16 "request_" ++ requestId] = true.
Proof.
  intros Hid. cbn [forallb].
  change (u16 "request_" ++ requestId)
    with (u16 "request" ++ 95 :: requestId).
  rewrite (underscore_clean (u16 "request") requestId eq_refl Hid).
  reflexivity.
Qed.

Lemma pendingDir_text (requestId : jsstring) :
  forallb notSlash requestId = true ->
  pendingDir requestId
  = u16 "uploads/doctor-requests/pending/request_" ++ requestId.
Proof.
  intros Hid. unfold pendingDir.
  rewrite join_clean;
    [reflexivity | discriminate | apply pendingSegments_clean; exact Hid].
Qed.



(** ** The storage callbacks *)

Import UploadDoctorFiles UploadRoutes.

Lemma getProp_setProp_same (k v : jsstring) (o : list (jsstring * jsstring)) :
  getProp k (setProp k v o) = Some v.
Proof.
  induction o as [|[k' v'] o IH]; cbn [setProp getProp].
  - rewrite eqb_refl. reflexivity.
  - destruct (JsString.eqb k' k) eqn:E; cbn [getProp].
    + rewrite eqb_refl. reflexivity.
    + rewrite E. exact IH.
Qed.

Lemma getProp_setProp_other (k k2 v : jsstring)
      (o : list (jsstring * jsstring)) :
  k2 <> k -> getProp k2 (setProp k v o) = getProp k2 o.
Proof.
  intros Hne.
  assert (Hk : JsString.eqb k k2 = false).
  { destruct (JsString.eqb k k2) eqn:E; [|reflexivity].
    apply eqb_eq in E. congruence. }
  induction o as [|[k' v'] o IH]; cbn [setProp getProp].
  - rewrite Hk. reflexivity.
  - destruct (JsString.eqb k' k) eqn:E; cbn [getProp].
    + apply eqb_eq in E. subst k'. rewrite Hk. reflexivity.
    + destruct (JsString.eqb k' k2); [reflexivity | exact IH].
Qed.

Lemma newTempRequestId_notSlash (now : Z) (randomText : jsstring) :
  forallb notSlash randomText = true ->
  forallb notSlash (newTempRequestId now randomText) = true.
Proof.
  intros H. unfold newTempRequestId.
  destruct (forallb_firstn_skipn notSlash 7 randomText H) as [_ Hs].
  rewrite !forallb_app, intToString_notSlash. cbn [forallb app].
  unfold codeunit in *. rewrite Hs. reflexivity.
Qed.

(** X17. The destination callback of the doctor-request storage.  When the
    directory can be ensured, multer is given
    uploads/doctor-requests/pending/request_temp_<ms>_<random>, the request
    remembers that directory under the file's field name, keeps what it
    held for the other fields and remembers the temporary id; when it
    cannot, the error is passed on and the request is left as it was. *)
Theorem doctor_upload_destination
        (req : Request) (file : File) (now : Z) (randomText : jsstring)
        (nowInner : Z) :
  forallb notSlash randomText = true ->
  let tempId := newTempRequestId now randomText in
  let dir := u16 "uploads/doctor-requests/pending/request_" ++ tempId in
  let old := match uploadDirectories req with Some d => d | None => [] end in
  (exists dirs,
      destination req file now randomText nowInner None
      = ({| uploadDirectories := Some dirs; tempRequestId := Some tempId |},
         Done dir) /\
      getProp (fieldname file) dirs = Some dir /\
      forall k, k <> fieldname file -> getProp k dirs = getProp k old) /\
  (forall error,
      destination req file now randomText nowInner (Some error)
      = (req, Failed error)).
Proof.
  intros Hrandom tempId dir old. split; [|reflexivity].
  assert (Hdir : directory (generateDoctorRequestPath tempId (fieldname file)
                              (originalname file) nowInner) = dir).
  { change (directory _) with (pendingDir tempId).
    apply pendingDir_text, newTempRequestId_notSlash. exact Hrandom. }
  exists (setProp (fieldname file) dir old).
  unfold destination. fold tempId. rewrite Hdir. fold old.
  split; [reflexivity|]. split.
  - apply getProp_setProp_same.
  - intros k Hk. apply getProp_setProp_other. exact Hk.
Qed.

Lemma doctor_upload_destination_witness :
  let req := {| uploadDirectories :=
                  Some [(u16 "profilePhoto", u16 "uploads/x")];
                tempRequestId := Some (u16 "temp_1") |} in
  let file := {| fieldname := u16 "licenseDocument";
                 originalname := u16 "license.pdf";
                 mimetype := u16 "application/pdf" |} in
  let dir :=
    u16 "uploads/doctor-requests/pending/request_temp_1705746645123_82mvyr" in
  exists dirs,
    destination req file sampleTime (u16 "0.4fzyo82mvyr") sampleTime None
    = ({| uploadDirectories := Some dirs;
          tempRequestId := Some (u16 "temp_1705746645123_82mvyr") |},
       Done dir) /\
    getProp (u16 "licenseDocument") dirs = Some dir /\
    getProp (u16 "profilePhoto") dirs = Some (u16 "uploads/x").
Proof.
  intros req file dir.
  destruct (doctor_upload_destination req file sampleTime
              (u16 "0.4fzyo82mvyr") sampleTime eq_refl)
    as ((dirs & E & Hown & Hother) & _).
  exists dirs. split; [exact E|]. split; [exact Hown|].
  rewrite Hother; [reflexivity | discriminate].
Defined.

(** X18. Two files of one registration.  Each call of the destination
    callback draws a temporary id of its own, so two fields of one request
    are stored in two directories whenever the ids drawn differ; the
    request keeps both directories, each under its field name, but only
    the id drawn last; and the name the filename callback gives is
    <field>_<ms><extension> whatever the request remembers. *)
Theorem doctor_upload_two_files
        (req : Request) (file1 file2 : File)
        (now1 now2 : Z) (random1 random2 : jsstring) (inner1 inner2 : Z) :
  forallb notSlash random1 = true ->
  forallb notSlash random2 = true ->
  fieldname file1 <> fieldname file2 ->
  newTempRequestId now1 random1 <> newTempRequestId now2 random2 ->
  let first := destination req file1 now1 random1 inner1 None in
  let second := destination (fst first) file2 now2 random2 inner2 None in
  exists dir1 dir2 dirs,
    snd first = Done dir1 /\ snd second = Done dir2 /\ dir1 <> dir2 /\
    uploadDirectories (fst second) = Some dirs /\
    getProp (fieldname file1) dirs = Some dir1 /\
    getProp (fieldname file2) dirs = Some dir2 /\
    tempRequestId (fst second) = Some (newTempRequestId now2 random2) /\
    forall anyReq file now inner,
      filenameCallback anyReq file now inner
      = Done (fieldname file ++ u16 "_" ++ intToString inner ++
              extname (originalname file)).
Proof.
  intros Hr1 Hr2 Hfields Hids first second.
  set (id1 := newTempRequestId now1 random1) in *.
  set (id2 := newTempRequestId now2 random2) in *.
  assert (Hd1 : directory (generateDoctorRequestPath id1 (fieldname file1)
                             (originalname file1) inner1)
                = u16 "uploads/doctor-requests/pending/request_" ++ id1).
  { change (directory _) with (pendingDir id1).
    apply pendingDir_text, newTempRequestId_notSlash. exact Hr1. }
  assert (Hd2 : directory (generateDoctorRequestPath id2 (fieldname file2)
                             (originalname file2) inner2)
                = u16 "uploads/doctor-requests/pending/request_" ++ id2).
  { change (directory _) with (pendingDir id2).
    apply pendingDir_text, newTempRequestId_notSlash. exact Hr2. }
  unfold second, first, destination. fold id1 id2.
  cbn [fst snd uploadDirectories tempRequestId]. rewrite Hd1, Hd2.
  do 3 eexists. split; [reflexivity|]. split; [reflexivity|].
  split; [intros E; apply app_inv_head in E; exact (Hids E)|].
  split; [reflexivity|]. split.
  - rewrite getProp_setProp_other by exact Hfields.
    apply getProp_setProp_same.
  - split; [apply getProp_setProp_same|]. split; [reflexivity|].
    intros anyReq file now inner. unfold filenameCallback.
    destruct (tempRequestId anyReq) as [[|c t]|]; reflexivity.
Qed.

Lemma doctor_upload_two_files_witness :
  let req := {| uploadDirectories := None; tempRequestId := None |} in
  let file1 := {| fieldname := u16 "licenseDocument";
                  originalname := u16 "license.pdf";
                  mimetype := u16 "application/pdf" |} in
  let file2 := {| fieldname := u16 "profilePhoto";
                  originalname := u16 "me.png";
                  mimetype := u16 "image/png" |} in
  let first :=
    destination req file1 sampleTime (u16 "0.4fzyo82mvyr") sampleTime None in
  let second :=
    destination (fst first) file2 sampleTime (u16 "0.9kq1x7p3abc") sampleTime
                None in
  snd first <> snd second /\
  tempRequestId (fst second) = Some (u16 "temp_1705746645123_7p3abc").
Proof.
  intros req file1 file2 first second.
  destruct (doctor_upload_two_files req file1 file2 sampleTime sampleTime
              (u16 "0.4fzyo82mvyr") (u16 "0.9kq1x7p3abc")
              sampleTime sampleTime)
    as (dir1 & dir2 & dirs & E1 & E2 & Hne & _ & _ & _ & Hid & _).
  - reflexivity.
  - reflexivity.
  - intros E. apply (f_equal (fun l => nth 0 l 0)) in E. discriminate E.
  - intros E. apply (f_equal (fun l => nth 19 l 0)) in E. discriminate E.
  - split; [|exact Hid].
    intros E. apply Hne.
    assert (Hsame : Done dir1 = Done dir2)
      by (rewrite <- E1, <- E2; exact E).
    injection Hsame as Hsame. exact Hsame.
Defined.

(** X19. Every error that reaches handleUploadErrors is answered with
    status 400, [success: false] and a message that is not empty, and
    [next] is called exactly when there is no error. *)
Theorem upload_errors_answered (err : option UploadError) :
  match handleUploadErrors err with
  | Next => err = None
  | Respond r =>
      err <> None /\ status r = 400 /\ success r = false /\ message r <> []
  end.
Proof.
  destruct err as [[code m | [[|c s]|]]|]; cbn [handleUploadErrors].
  - destruct (JsString.eqb code (u16 "LIMIT_FILE_SIZE"));
      repeat split; discriminate.
  - repeat split; discriminate.
  - repeat split; discriminate.
  - repeat split; discriminate.
  - reflexivity.
Qed.

Lemma ecg_temp_name_notSlash (now randomInt : Z) (name : jsstring) :
  forallb notSlash
    (u16 "ecg-temp-" ++ (intToString now ++ u16 "-" ++ intToString randomInt)
     ++ extname name) = true.
Proof.
  rewrite !forallb_app, !intToString_notSlash, extname_no_separator.
  reflexivity.
Qed.

(** X20. Where the visit and ECG routes store an upload.  With a patient id
    that holds no separator both hand multer the directory
    uploads/<visits|ecgs>/<year>/<month>/patient_<id>; without one the
    visit route fails with its own error before anything else, while the
    ECG route falls back to uploads/temp and a name ecg-temp-<ms>-<n><ext>.
    The ECG file name never holds a separator. *)
Theorem route_storage_destinations
        (zone : timezone) (file : File) (now : Z) (randomText : jsstring)
        (randomInt : Z) :
  forallb notSlash randomText = true ->
  (forall c s,
      forallb notSlash (c :: s) = true ->
      visitDestination zone (Some (c :: s)) file now randomText None
      = Done (expectedDirectory zone (u16 "visit") (c :: s) now) /\
      ecgDestination zone (Some (c :: s)) file now randomText None
      = Done (expectedDirectory zone (u16 "ecg") (c :: s) now)) /\
  (forall id ensureFailure,
      id = None \/ id = Some [] ->
      visitDestination zone id file now randomText ensureFailure
      = Failed msgPatientIdMissing /\
      ecgDestination zone id file now randomText None
      = Done (u16 "uploads/temp") /\
      ecgFilename zone id file now randomText randomInt
      = Done (u16 "ecg-temp-" ++ intToString now ++ u16 "-" ++
              intToString randomInt ++ extname (originalname file))) /\
  (forall id,
      exists name,
        ecgFilename zone id file now randomText randomInt = Done name /\
        forallb notSlash name = true).
Proof.
  intros Hrandom. split; [|split].
  - intros c s Hid. unfold visitDestination, ecgDestination.
    destruct (directory_of_clean zone (u16 "visit") (c :: s)
                (originalname file) now randomText eq_refl Hid) as [-> _].
    destruct (directory_of_clean zone (u16 "ecg") (c :: s)
                (originalname file) now randomText eq_refl Hid) as [-> _].
    rewrite !directory_text. split; reflexivity.
  - intros id ensureFailure [-> | ->]; repeat split;
      unfold ecgFilename; rewrite <- ?app_assoc; reflexivity.
  - intros [[|c s]|]; unfold ecgFilename; eexists;
      (split; [reflexivity|]).
    + apply ecg_temp_name_notSlash.
    + apply cleanSegment_notSlash, generated_filename_clean;
        [reflexivity | exact Hrandom].
    + apply ecg_temp_name_notSlash.
Qed.

Lemma route_storage_destinations_witness :
  let file := {| fieldname := u16 "ecg_image"; originalname := u16 "ecg.png";
                 mimetype := u16 "image/png" |} in
  visitDestination zoneUTC (Some (u16 "12345678901")) file sampleTime
                   (u16 "0.abc12345xyz") None
  = Done (u16 "uploads/visits/2024/01/patient_12345678901") /\
  ecgDestination zoneUTC (Some (u16 "12345678901")) file sampleTime
                 (u16 "0.abc12345xyz") None
  = Done (u16 "uploads/ecgs/2024/01/patient_12345678901").
Proof.
  intros file.
  destruct (route_storage_destinations zoneUTC file sampleTime (u16 "0.abc12345xyz")
              7 eq_refl) as (H & _ & _).
  apply (H 49 (u16 "2345678901")). reflexivity.
Defined.
